(** * Rectify (realm): a shallow embedding of the repair/validation harness

    The development follows the layout of the Python package:
    - [utils]   : helpers shared by the other modules,
    - [d4j]     : the Defects4J interface and the diff model ([d4j.py]),
    - [text]    : the text buffer used by the repair loop,
    - [repair]  : hunk removal and the repair sweep ([repair.py]),
    - [runner]  : transform / validate / validate_patch ([runner.py]).

    Python dictionaries are insertion ordered and are iterated by the code,
    so they are association lists here ([pydict]); sets of strings are
    [gset string]; raised exceptions are values of [exn] carried by [res]
    or by the state-and-exception monad [M] over the outside world. *)

From Stdlib Require Import ZArith Ascii String List Bool Lia.
From stdpp Require Import base option list strings gmap sorting.

Local Open Scope string_scope.
Local Open Scope list_scope.

(** ** Exceptions and fallible computations *)

Inductive exn : Type :=
  | AssertionError
  | KeyError
  | ValueError
  | TypeError
  | IndexError
  | TimeoutExpired
  | ExternalError (what : string)
  | OutOfFuel.

Inductive res (A : Type) : Type :=
  | Ok (a : A)
  | Raise (e : exn).
Arguments Ok {A} a.
Arguments Raise {A} e.

Definition rbind {A B} (r : res A) (k : A -> res B) : res B :=
  match r with
  | Ok a => k a
  | Raise e => Raise e
  end.

Definition assert (b : bool) : res unit :=
  if b then Ok tt else Raise AssertionError.

Global Instance result_ret : MRet res := fun _ a => Ok a.
Global Instance result_bind : MBind res := fun _ _ k r => rbind r k.

Fixpoint mapM {A B} (f : A -> res B) (l : list A) : res (list B) :=
  match l with
  | [] => Ok []
  | x :: l' => y ← f x; ys ← mapM f l'; Ok (y :: ys)
  end.

(** ** Insertion-ordered dictionaries *)

Module pydict.
Section pydict.
Context {K : Type} `{EqDecision K} {V : Type}.

Fixpoint get (k : K) (d : list (K * V)) : option V :=
  match d with
  | [] => None
  | (k', v) :: d' => if decide (k' = k) then Some v else get k d'
  end.

(** [d[k] = v]: an existing key keeps its position. *)
Fixpoint set (k : K) (v : V) (d : list (K * V)) : list (K * V) :=
  match d with
  | [] => [(k, v)]
  | (k', v') :: d' =>
      if decide (k' = k) then (k', v) :: d' else (k', v') :: set k v d'
  end.

(** [d.setdefault(k, v)]: the value now stored under [k], and the dict. *)
Definition setdefault (k : K) (v : V) (d : list (K * V)) : V * list (K * V) :=
  match get k d with
  | Some v' => (v', d)
  | None => (v, set k v d)
  end.

Definition keys (d : list (K * V)) : list K := d.*1.

Definition wf (d : list (K * V)) : Prop := NoDup (keys d).

End pydict.
End pydict.

(** ** Small string helpers (Python [str] methods used by the code) *)

Definition nl : ascii := "010"%char.

Fixpoint str_drop (n : nat) (s : string) : string :=
  match n, s with
  | O, _ => s
  | S n', String _ s' => str_drop n' s'
  | S _, EmptyString => EmptyString
  end.

(** [s.startswith(p)] *)
Definition startswith (s p : string) : bool := String.prefix p s.

(** [needle in s] *)
Fixpoint str_contains (needle s : string) : bool :=
  String.prefix needle s ||
  match s with
  | EmptyString => false
  | String _ s' => str_contains needle s'
  end.

(** [s.split(sep)] for a one-character separator. *)
Fixpoint split_on (sep : ascii) (s : string) : list string :=
  match s with
  | EmptyString => [""]
  | String c s' =>
      if decide (c = sep) then "" :: split_on sep s'
      else match split_on sep s' with
           | [] => [String c ""]
           | w :: ws => String c w :: ws
           end
  end.

(** Python's [str.isspace] on one-byte code points. *)
Definition is_space (c : ascii) : bool :=
  let n := nat_of_ascii c in
  ((9 <=? n)%nat && (n <=? 13)%nat) || ((28 <=? n)%nat && (n <=? 32)%nat)
  || (n =? 133)%nat || (n =? 160)%nat.

(** File contents are sequences of characters. *)
Abbreviation text := (list ascii).

(** ** unidiff: the lines of a parsed patch (external library) *)

Module unidiff.
Record Line := {
  source_line_no : option Z;
  target_line_no : option Z;
  line_type : string;
  value : string;
}.

Definition is_added (l : Line) : bool := bool_decide (line_type l = "+").
Definition is_removed (l : Line) : bool := bool_decide (line_type l = "-").
Definition is_context (l : Line) : bool := bool_decide (line_type l = " ").
(** [str(line)] *)
Definition to_str (l : Line) : string := line_type l +:+ value l.

Record PatchedFile := {
  source_file : string;
  is_modified_file : bool;
  hunks : list (list Line);
}.
End unidiff.

(** ** The world outside the process

    Files of the machine, and the log of what the process asked of the
    outside: commands run, parser calls, file writes. What the outside answers
    is not part of the repository; it is the record [External]. *)

Record Cmd := {
  argv : list string;
  cwd : option string;
  java_home : option string;   (* JAVA_HOME of the child environment *)
  timeout : option Z;
}.

Record Completed := {
  returncode : Z;
  stdout : string;
  stderr : string;
}.

(** What [javalang.parse.parse] does on a text. *)
Inductive ParseOutcome :=
  | Parsed
  | JavaSyntaxError (msg : string)
  | LexerError (msg : string)
  | OtherException (type_name msg : string).

Inductive Event :=
  | ERun (c : Cmd)
  | EParse (content : text)
  | EWrite (path : string) (content : text)
  | EAppend (path : string) (s : text)
  | ERepairBug (bug_id : string).

Record World := {
  fs : gmap string text;
  trace : list Event;
}.

Record External := {
  (** the files after the command, and its completion; [None] when the
      timeout expired *)
  subprocess_run : Cmd -> gmap string text -> gmap string text * option Completed;
  java_parse : text -> ParseOutcome;
  (** [time.perf_counter()] as a reading of what has happened so far *)
  perf_counter : list Event -> Z;
  dir_exists : string -> bool;
  (** [Path.absolute()] *)
  absolute : string -> string;
  (** the rows of every [active-bugs.csv] under [<home>/framework/projects],
      per project directory, each row as its (column, value) pairs *)
  active_bugs : string -> list (string * list (list (string * string)));
  (** [PatchSet.from_filename(patch_file, errors="ignore")] *)
  patch_set : string -> list unidiff.PatchedFile;
  (** [regex.fullmatch(pattern, s) is not None] *)
  fullmatch : string -> string -> bool;
}.

(** State and exceptions: a computation leaves a world also when it raises. *)
Definition M (A : Type) : Type := World -> res A * World.

Global Instance M_ret : MRet M := fun _ a w => (Ok a, w).
Global Instance M_bind : MBind M := fun _ _ k m w =>
  match m w with
  | (Ok a, w') => k a w'
  | (Raise e, w') => (Raise e, w')
  end.

Definition raise {A} (e : exn) : M A := fun w => (Raise e, w).
Definition lift {A} (r : res A) : M A := fun w => (r, w).
Definition get_world : M World := fun w => (Ok w, w).
Definition emit (e : Event) : M unit :=
  fun w => (Ok tt, {| fs := fs w; trace := trace w ++ [e] |}).
Definition put_fs (f : gmap string text) : M unit :=
  fun w => (Ok tt, {| fs := f; trace := trace w |}).
Definition massert (b : bool) : M unit := lift (assert b).

(** [try: body except TimeoutExpired: handler] *)
Definition catch_timeout {A} (body : M A) (handler : M A) : M A := fun w =>
  match body w with
  | (Raise TimeoutExpired, w') => handler w'
  | r => r
  end.

Fixpoint forM_ {A} (l : list A) (f : A -> M unit) : M unit :=
  match l with
  | [] => mret tt
  | x :: l' => _ ← f x; forM_ l' f
  end.

(** [Path.exists()] *)
Definition path_exists (ext : External) (p : string) : M bool :=
  fun w => (Ok (bool_decide (is_Some (fs w !! p)) || dir_exists ext p), w).

(** [subprocess.run(argv, ...)]: logged, then answered by the outside. *)
Definition run (ext : External) (c : Cmd) : M Completed := fun w =>
  let w1 := {| fs := fs w; trace := trace w ++ [ERun c] |} in
  match subprocess_run ext c (fs w1) with
  | (f, Some done) => (Ok done, {| fs := f; trace := trace w1 |})
  | (f, None) => (Raise TimeoutExpired, {| fs := f; trace := trace w1 |})
  end.

(** ** utils *)

Module utils.
Import unidiff.

(** Modelled from the spec: [utils.binary(pred, x)], the "boolean-to-int
    helper": 1 when [pred(x)] holds, else 0. *)
Definition binary {A} (pred : A -> bool) (x : A) : nat := if pred x then 1 else 0.

(** Modelled from the spec: [utils.line_consecutive(lhs, rhs)], "true if two
    diff lines are positionally adjacent (their respective line numbers
    differ by exactly one)"; a run collects "same-type, position-consecutive
    lines (a line is consecutive with the previous one if its source/target
    line number is exactly one greater)". Added lines carry a target number,
    removed lines a source number. *)
Definition succ_of (a b : option Z) : bool :=
  match a, b with
  | Some x, Some y => bool_decide ((x + 1)%Z = y)
  | _, _ => false
  end.

Definition line_consecutive (lhs rhs : Line) : bool :=
  if is_added lhs && is_added rhs
  then succ_of (target_line_no lhs) (target_line_no rhs)
  else if is_removed lhs && is_removed rhs
  then succ_of (source_line_no lhs) (source_line_no rhs)
  else false.

Section iterators.
Context {A : Type}.

(** Modelled from the spec: [utils.take_while_two(unary_pred,
    pairwise_pred, iterable)] "consumes a lazy sequence while each
    element individually satisfies [unary_pred] and each consecutive pair
    satisfies [pairwise_pred], returning the consumed prefix and the
    remaining iterator".

    The iterable given by the callers is [itertools.chain(front, under)]
    over a shared iterator [under]. An element is tested after it has been
    fetched, so the first element that fails has left [under] too; it is
    the head of the returned iterator (the second component here) and is
    no longer in the shared one (the third component). *)
Definition admits (p1 : A -> bool) (p2 : A -> A -> bool)
    (prev : option A) (x : A) : bool :=
  p1 x && match prev with Some y => p2 y x | None => true end.

Fixpoint take_under (p1 : A -> bool) (p2 : A -> A -> bool) (prev : option A)
    (under : list A) : list A * list A * list A :=
  match under with
  | [] => ([], [], [])
  | x :: u =>
      if admits p1 p2 prev x
      then let '(taken, front, u') := take_under p1 p2 (Some x) u in
           (x :: taken, front, u')
      else ([], [x], u)
  end.

Fixpoint take_front (p1 : A -> bool) (p2 : A -> A -> bool) (prev : option A)
    (front under : list A) : list A * list A * list A :=
  match front with
  | [] => take_under p1 p2 prev under
  | x :: f =>
      if admits p1 p2 prev x
      then let '(taken, front', u') := take_front p1 p2 (Some x) f under in
           (x :: taken, front', u')
      else ([], x :: f, under)
  end.

Definition take_while_two (p1 : A -> bool) (p2 : A -> A -> bool)
    (front under : list A) : list A * list A * list A :=
  take_front p1 p2 None front under.

(** Modelled from the spec: [utils.chunked(size, iterable)] "splits a
    sequence into fixed-size groups (last group may be shorter)". Each
    group takes up to [size] elements; the first empty group ends the
    iteration, so there is no group at all for [size = 0]. *)
Fixpoint chunked_fuel (fuel size : nat) (l : list A) : list (list A) :=
  match fuel with
  | O => []
  | S fuel' =>
      match take size l with
      | [] => []
      | chunk => chunk :: chunked_fuel fuel' size (drop size l)
      end
  end.

Definition chunked (size : nat) (l : list A) : list (list A) :=
  chunked_fuel (length l) size l.
End iterators.
End utils.

(** ** d4j.py: the diff model and the Defects4J interface *)

Module d4j.
Import unidiff utils.

Record Change := {
  start : Z;
  removed_lines : list string;
  added_lines : list string;
}.

Record BuggyFile := {
  path : string;
  changes : list Change;
}.

Definition line_no (reversed : bool) (l : Line) : option Z :=
  if reversed then target_line_no l else source_line_no l.

(** [str(line)[1:]] *)
Definition strip_marker (l : Line) : string := str_drop 1 (to_str l).

(** Lines 67-89 of [from_patch_file]: the [Change] of one collected run. *)
Definition make_change (reversed : bool) (last_context : Line)
    (removed added : list Line) : res Change :=
  let '(removed, added) :=
    if reversed then (added, removed) else (removed, added) in
  start ←
    (if (length removed =? 0)%nat && (0 <? length added)%nat
     then match line_no reversed last_context with
          | Some n => Ok (Some (1 + n)%Z)
          | None => Raise TypeError
          end
     else match removed with
          | l :: _ => Ok (line_no reversed l)
          | [] => Raise IndexError
          end);
  match start with
  | None => Raise AssertionError
  | Some start =>
      Ok {| start := start;
            removed_lines := strip_marker <$> removed;
            added_lines := strip_marker <$> added |}
  end.

(** The [while True] loop; [lines_iter] is what the shared line iterator
    still holds. Each turn fetches at least one line, so the loop started
    with more fuel than lines never runs out of it. *)
Fixpoint from_patch_loop (fuel : nat) (reversed : bool) (last_context : Line)
    (lines_iter : list Line) (changes : list Change) : res (list Change) :=
  match fuel with
  | O => Raise OutOfFuel
  | S fuel =>
      match lines_iter with
      | [] => Ok changes
      | start_line :: lines_iter =>
          if is_added start_line then
            _ ← assert (is_context last_context);
            let '(added, _, lines_iter) :=
              take_while_two (fun _ => true) line_consecutive
                [start_line] lines_iter in
            c ← make_change reversed last_context [] added;
            from_patch_loop fuel reversed last_context lines_iter (changes ++ [c])
          else if is_removed start_line then
            _ ← assert (is_context last_context);
            let '(removed, line_iter, lines_iter) :=
              take_while_two (fun _ => true) line_consecutive
                [start_line] lines_iter in
            let '(added, _, lines_iter) :=
              take_while_two is_added line_consecutive line_iter lines_iter in
            c ← make_change reversed last_context removed added;
            from_patch_loop fuel reversed last_context lines_iter (changes ++ [c])
          else
            from_patch_loop fuel reversed
              (if is_context start_line then start_line else last_context)
              lines_iter changes
      end
  end.

Definition remove_prefix (diff_fname : string) : string :=
  let prefixes := ["a/"; "b/"] in
  let prefix := default "" (head (filter (fun p => startswith diff_fname p = true) prefixes)) in
  str_drop (String.length prefix) diff_fname.

Definition from_patch_file (reversed : bool) (patch_file : PatchedFile)
    : res BuggyFile :=
  let lines_iter := concat (hunks patch_file) in
  changes ←
    match lines_iter with
    | [] => Ok []
    | last_context :: lines_iter =>
        from_patch_loop (S (length lines_iter)) reversed last_context lines_iter []
    end;
  Ok {| path := remove_prefix (source_file patch_file); changes := changes |}.

Record Bug := {
  buggy_files : list BuggyFile;
  proj_path : string;
}.

Definition iter_hunks (bug : Bug) : list ((nat * nat) * BuggyFile * Change) :=
  '(idx_i, buggy_file) ← imap pair (buggy_files bug);
  '(idx_j, change) ← imap pair (changes buggy_file);
  [((idx_i, idx_j), buggy_file, change)].

Record CheckoutMeta := {
  cm_proj : string;
  cm_bug_id : string;
  cm_buggy_commit : string;
  cm_url : string;
  cm_fixed_commit : string;
  cm_path : string;
  cm_cmd : list string;
}.

Record Defects4J := {
  d4j_home : string;
  d4j_checkout_root : string;
  java8_home : string;
  metadata : list CheckoutMeta;
  all_bugs : list (string * Bug);
  single_hunk_bugs : list (string * Bug);
  single_line_bugs : list (string * Bug);
}.

(** [p / q] on paths *)
Definition pjoin (p q : string) : string := p +:+ "/" +:+ q.

Definition executable_of (home : string) : string :=
  pjoin (pjoin (pjoin home "framework") "bin") "defects4j".
Definition d4j_executable (self : Defects4J) : string :=
  executable_of (d4j_home self).

Definition split_bug_id (bug_id : string) : res (string * string) :=
  match split_on "-"%char bug_id with
  | [proj; id_str] => Ok (proj, id_str)
  | _ => Raise ValueError
  end.

Definition form_bug_id (proj id_str : string) : string := proj +:+ "-" +:+ id_str.

(** [key_fn] of [group_by_project]: the project of an item of the dict. *)
Definition key_fn {T} (item : string * T) : res string :=
  '(proj, _) ← split_bug_id item.1; Ok proj.

(** [data_items.sort(key=key_fn)]: the items in the order of their keys,
    compared with [<] on strings; items of equal keys stay in their order. An
    item goes behind those of the sorted rest whose key is smaller than its
    own. *)
Fixpoint insert_by_key {A} (x : string * A) (l : list (string * A))
    : list (string * A) :=
  match l with
  | [] => [x]
  | y :: l' =>
      if String.ltb y.1 x.1 then y :: insert_by_key x l' else x :: y :: l'
  end.

Definition sort_by_key {A} (l : list (string * A)) : list (string * A) :=
  foldr insert_by_key [] l.

(** [itertools.groupby] on items that carry their key: the runs of
    consecutive items of equal keys. *)
Fixpoint groupby {A} (l : list (string * A)) : list (string * list A) :=
  match l with
  | [] => []
  | (k, x) :: l' =>
      match groupby l' with
      | (k', g) :: gs =>
          if decide (k = k') then (k, x :: g) :: gs
          else (k, [x]) :: (k', g) :: gs
      | [] => [(k, [x])]
      end
  end.

(** [{bug_id: data for bug_id, data in group}] *)
Definition dict_of {T} (group : list (string * T)) : list (string * T) :=
  foldl (fun d '(bug_id, data) => pydict.set bug_id data d) [] group.

Definition group_by_project {T} (data_dict : list (string * T))
    : res (list (string * list (string * T))) :=
  data_items ← mapM (fun item => k ← key_fn item; Ok (k, item)) data_dict;
  Ok ((fun '(project, group) => (project, dict_of group))
        <$> groupby (sort_by_key data_items)).

Definition key {V} (k : string) (d : list (string * V)) : res V :=
  match pydict.get k d with
  | Some v => Ok v
  | None => Raise KeyError
  end.

Section with_external.
Context (ext : External).

Definition _get_checkout_meta (checkout_root proj : string)
    (bug : list (string * string)) (home : string) : res CheckoutMeta :=
  bug_id ← key "bug.id" bug;
  let path := pjoin checkout_root (proj +:+ "-" +:+ bug_id) in
  bug_id ← key "bug.id" bug;
  buggy ← key "revision.id.buggy" bug;
  url ← key "report.url" bug;
  fixed ← key "revision.id.fixed" bug;
  Ok {| cm_proj := proj; cm_bug_id := bug_id; cm_buggy_commit := buggy;
        cm_url := url; cm_fixed_commit := fixed;
        cm_path := absolute ext path;
        cm_cmd := [executable_of home; "checkout"; "-p"; proj; "-v";
                   bug_id +:+ "f"; "-w"; absolute ext path] |}.

Definition _get_all_bugs (home : string)
    : list (string * list (list (string * string))) :=
  foldl (fun d '(proj, bugs) => pydict.set proj bugs d) [] (active_bugs ext home).

Definition _get_metadata (home checkout_root : string) : res (list CheckoutMeta) :=
  mapM (fun '(proj, bug) => _get_checkout_meta checkout_root proj bug home)
       ('(proj, proj_bugs) ← _get_all_bugs home;
        bug ← proj_bugs; [(proj, bug)]).

Definition get_buggy_files (home : string) (bug : CheckoutMeta)
    : res (list BuggyFile) :=
  let patch_file :=
    pjoin (pjoin (pjoin (pjoin (pjoin home "framework") "projects")
             (cm_proj bug)) "patches") (cm_bug_id bug +:+ ".src.patch") in
  mapM (from_patch_file true)
       (filter (fun f => is_modified_file f = true) (patch_set ext patch_file)).

Definition bug_id_of (bug : CheckoutMeta) : string :=
  cm_proj bug +:+ "-" +:+ cm_bug_id bug.

Fixpoint _all_bugs (home : string) (metadata : list CheckoutMeta)
    (acc : list (string * Bug)) : res (list (string * Bug)) :=
  match metadata with
  | [] => Ok acc
  | bug :: rest =>
      files ← get_buggy_files home bug;
      _all_bugs home rest
        (pydict.set (bug_id_of bug)
           {| buggy_files := files; proj_path := cm_path bug |} acc)
  end.

(** [len(bug.buggy_files) == 1 and len(bug.buggy_files[0].changes) == 1] *)
Definition is_single_hunk (bug : Bug) : bool :=
  (length (buggy_files bug) =? 1)%nat &&
  match buggy_files bug with
  | f :: _ => (length (changes f) =? 1)%nat
  | [] => false
  end.

(** [len(bug.buggy_files[0].changes[0].added_lines) == 1] *)
Definition is_single_line (bug : Bug) : res bool :=
  match buggy_files bug with
  | f :: _ =>
      match changes f with
      | c :: _ => Ok (length (added_lines c) =? 1)%nat
      | [] => Raise IndexError
      end
  | [] => Raise IndexError
  end.

Fixpoint filterM {A} (f : A -> res bool) (l : list A) : res (list A) :=
  match l with
  | [] => Ok []
  | x :: l' =>
      b ← f x; r ← filterM f l';
      Ok (if (b : bool) then x :: r else r)
  end.

Definition __init__ (home checkout_root java8 : string) : M Defects4J :=
  e1 ← path_exists ext home; _ ← massert e1;
  e2 ← path_exists ext (executable_of home); _ ← massert e2;
  e3 ← path_exists ext java8; _ ← massert e3;
  e4 ← path_exists ext checkout_root; _ ← massert e4;
  metadata ← lift (_get_metadata home checkout_root);
  all ← lift (_all_bugs home metadata []);
  let single_hunk := filter (fun '(_, bug) => is_single_hunk bug = true) all in
  single_line ← lift (filterM (fun '(_, bug) => is_single_line bug) single_hunk);
  mret {| d4j_home := home; d4j_checkout_root := checkout_root;
          java8_home := java8; metadata := metadata; all_bugs := all;
          single_hunk_bugs := single_hunk; single_line_bugs := single_line |}.

(** [repo.git.execute(argv)]: a non-zero status raises. *)
Definition git_execute (repo : string) (args : list string) : M unit :=
  r ← run ext {| argv := args; cwd := Some repo; java_home := None;
                 timeout := None |};
  if bool_decide (returncode r = 0%Z) then mret tt
  else raise (ExternalError "GitCommandError").

Definition compile (self : Defects4J) (bug_id : string)
    : M (bool * string * string) :=
  bug ← lift (key bug_id (all_bugs self));
  r ← run ext {| argv := [d4j_executable self; "compile"];
                 cwd := Some (proj_path bug);
                 java_home := Some (java8_home self); timeout := None |};
  let success := bool_decide (returncode r = 0%Z) in
  _ ← massert (if success then negb (str_contains "FAIL" (stderr r))
               else str_contains "FAIL" (stderr r));
  mret (success, stdout r, stderr r).

Definition test_with_option (self : Defects4J) (bug_id : string)
    (timeout : Z) (entire_test_suite : bool) : M (bool * string * string) :=
  bug ← lift (key bug_id (all_bugs self));
  r ← run ext {| argv := [d4j_executable self; "test"]
                         ++ (if entire_test_suite then [] else ["-r"]);
                 cwd := Some (proj_path bug);
                 java_home := Some (java8_home self);
                 timeout := Some timeout |};
  let failing_tests := pjoin (proj_path bug) "failing_tests" in
  e ← path_exists ext failing_tests; _ ← massert e;
  w ← get_world;
  content ← match fs w !! failing_tests with
            | Some c => mret c
            | None => raise (ExternalError "IsADirectoryError")
            end;
  let success := forallb is_space content in
  let failing_test_0 := "Failing tests: 0" in
  _ ← massert (if success then startswith (stdout r) failing_test_0
               else negb (startswith (stdout r) failing_test_0));
  mret (success, stdout r, stderr r).

Definition test (self : Defects4J) (bug_id : string) (timeout : Z)
    : M (bool * string * string) :=
  '(success, out, err) ← test_with_option self bug_id timeout false;
  if negb success then mret (success, out, err)
  else test_with_option self bug_id timeout true.

Definition git_reset : list string := ["git"; "checkout"; "HEAD"; "-f"; "."].
Definition git_clean : list string := ["git"; "clean"; "-xfd"].
Definition d4j_checkout_cmd (self : Defects4J) (proj id_str : string)
    (buggy : bool) (bug_proj_path : string) : Cmd :=
  {| argv := [d4j_executable self; "checkout"; "-p"; proj;
              "-v" +:+ id_str +:+ (if buggy then "b" else "f");
              "-w"; bug_proj_path];
     cwd := None; java_home := None; timeout := None |}.

(** Opening and closing the [git.Repo] handle runs no command. *)
Definition checkout (self : Defects4J) (bug_id : string) (buggy : bool) : M unit :=
  bug ← lift (key bug_id (all_bugs self));
  let bug_proj_path := proj_path bug in
  '(proj, id_str) ← lift (split_bug_id bug_id);
  _ ← git_execute bug_proj_path git_reset;
  _ ← run ext (d4j_checkout_cmd self proj id_str buggy bug_proj_path);
  _ ← git_execute bug_proj_path git_reset;
  _ ← git_execute bug_proj_path git_clean;
  mret tt.
End with_external.
End d4j.

(** ** lsp/text.py: the text buffer *)

Module text.

(** Modelled from the spec: the module of [TextFile] is not among the sources
    read. The spec (3, 4.2) gives a [TextFile] a [path], the full text
    [content] and a [cursor] offset. Lines are numbered from 0 and a line ends
    at its newline character. *)
Record TextFile := {
  path : string;
  content : text;
  cursor : Z;
}.

Record Position := {
  line : Z;
  character : Z;
}.

(** one [{"text": ..., "range": {"start": ..., "end": ...}}] edit *)
Record Edit := {
  edit_text : text;
  range_start : Position;
  range_end : Position;
}.

(** Offset of the first character of line [line], if the text has that line. *)
Fixpoint line_offset (content : text) (line : nat) : option nat :=
  match line, content with
  | O, _ => Some O
  | S _, [] => None
  | S line', c :: cs =>
      S <$> line_offset cs (if decide (c = nl) then line' else line)
  end.

(** Number of characters of the line that starts at the head of the text. *)
Fixpoint line_length (content : text) : nat :=
  match content with
  | [] => O
  | c :: cs => if decide (c = nl) then O else S (line_length cs)
  end.

Definition count_nl (s : text) : nat := length (filter (fun c => c = nl) s).
Definition n_lines (s : text) : nat := S (count_nl s).

(** Modelled from the spec: "[form_index(line, col)] converts a position to
    an offset assuming it lies within current content bounds". A position
    outside the content has no offset; it is an [IndexError] here. *)
Definition form_index (self : TextFile) (line character : Z) : res nat :=
  if bool_decide (0 <= line)%Z && bool_decide (0 <= character)%Z then
    match line_offset (content self) (Z.to_nat line) with
    | Some off =>
        if bool_decide (Z.to_nat character <= line_length (drop off (content self)))%nat
        then Ok (off + Z.to_nat character)%nat
        else Raise IndexError
    | None => Raise IndexError
    end
  else Raise IndexError.

(** Modelled from the spec: "[refine_index(line, col)] performs a
    best-effort/clamped version tolerant of positions at line boundaries (used
    when a hunk's removed region ends exactly at end-of-file)": a line past the
    last one is the end of the text, a column past the end of its line is the
    end of that line. *)
Definition refine_index (self : TextFile) (line character : Z) : Position :=
  let line := Z.max 0 line in
  let character := Z.max 0 character in
  match line_offset (content self) (Z.to_nat line) with
  | Some off =>
      {| line := line;
         character := Z.min character
                        (Z.of_nat (line_length (drop off (content self)))) |}
  | None =>
      let last := count_nl (content self) in
      {| line := Z.of_nat last;
         character :=
           Z.of_nat (line_length
             (drop (default O (line_offset (content self) last)) (content self))) |}
  end.

(** [s[a:b]] for offsets that are not negative *)
Definition slice (s : text) (a b : nat) : text := take (b - a) (drop a s).

(** Modelled from the spec: "[change(edits)] applies an ordered list of
    [{range: {start, end}, text}] replacements to content, each given as
    (line, column) pairs"; the edits are applied one after the other. *)
Definition apply_edit (self : TextFile) (e : Edit) : res TextFile :=
  s ← form_index self (line (range_start e)) (character (range_start e));
  t ← form_index self (line (range_end e)) (character (range_end e));
  Ok {| path := path self;
        content := take s (content self) ++ edit_text e ++ drop t (content self);
        cursor := cursor self |}.

Fixpoint change (self : TextFile) (edits : list Edit) : res TextFile :=
  match edits with
  | [] => Ok self
  | e :: edits' => self' ← apply_edit self e; change self' edits'
  end.

(** Modelled from the spec: "[move_cursor(offset)] repositions the cursor". *)
Definition move_cursor (self : TextFile) (offset : Z) : TextFile :=
  {| path := path self; content := content self; cursor := offset |}.

(** Modelled from the spec: "[copy()] returns an independent value with the
    same content/path/cursor". *)
Definition copy (self : TextFile) : TextFile := self.

(** Modelled from the spec: "[write()] persists content to [path] on the
    filesystem". *)
Definition write (self : TextFile) : M unit :=
  _ ← emit (EWrite (path self) (content self));
  w ← get_world;
  put_fs (<[path self := content self]> (fs w)).

(** [s[i]] with Python's negative indices *)
Definition py_index (s : text) (i : Z) : res ascii :=
  let n := Z.of_nat (length s) in
  let j := if bool_decide (i < 0)%Z then (n + i)%Z else i in
  if bool_decide (0 <= j)%Z then
    match s !! Z.to_nat j with
    | Some c => Ok c
    | None => Raise IndexError
    end
  else Raise IndexError.

(** [s.endswith("\n")] *)
Definition ends_with_nl (s : text) : bool :=
  match last s with
  | Some c => bool_decide (c = nl)
  | None => false
  end.

End text.

(** ** repair.py *)

Module repair.
Import d4j text.

(** [remove_buggy_hunk]: the prefix, the suffix and the modified file. *)
Definition remove_buggy_hunk (text_file : TextFile) (change : Change)
    : res (text * text * TextFile) :=
  let start := (d4j.start change - 1)%Z in
  let end_ := (start + Z.of_nat (length (removed_lines change)))%Z in
  let start_pos := refine_index text_file start 0 in
  let end_pos := refine_index text_file end_ 0 in
  start_index ← form_index text_file start 0;
  end_index ← form_index text_file end_ 0;
  let prefix_start := O in
  let suffix_end := length (content text_file) in
  let prefix := slice (content text_file) prefix_start start_index in
  let suffix := nl :: slice (content text_file) end_index suffix_end in
  text_file ← text.change text_file
    [{| edit_text := [nl]; range_start := start_pos; range_end := end_pos |}];
  let text_file := move_cursor text_file (Z.of_nat start_index) in
  _ ← assert (ends_with_nl prefix);
  before ← py_index (content text_file) (cursor text_file - 1);
  _ ← assert (bool_decide (before = nl));
  at_cursor ← py_index (content text_file) (cursor text_file);
  _ ← assert (bool_decide (at_cursor = nl));
  Ok (prefix, suffix, text_file).

(** Modelled from the spec: [RepairConfig] (config.py is not among the
    sources read) carries "batch size, sample count per hunk, a
    regular-expression filter over BugId"; the fields read by [repair]. *)
Record RepairConfig := {
  bug_pattern : string;
  batch_size : nat;
  n_samples : nat;
}.

(** What the sweep calls and this file does not contain: the reporter, the
    per-bug repair (checkout, analyzers, generation) and the analyzers'
    shutdown. They act on the files; [chart_11] is the module flag
    [gen.CHART_11] set before each bug. *)
Record Repairer := {
  d4j : Defects4J;
  dump_repair_config : RepairConfig -> gmap string text -> res unit * gmap string text;
  repair_bug_no_cleanup :
    bool -> RepairConfig -> string -> Bug -> gmap string text
    -> res unit * gmap string text;
  clean_up : gmap string text -> res unit * gmap string text;
}.

Definition on_files (f : gmap string text -> res unit * gmap string text)
    : M unit := fun w =>
  let '(r, f') := f (fs w) in (r, {| fs := f'; trace := trace w |}).

(** [try: body finally: handler] *)
Definition finally (body handler : M unit) : M unit := fun w =>
  match body w with
  | (Ok tt, w') => handler w'
  | (Raise e, w') =>
      match handler w' with
      | (Ok tt, w'') => (Raise e, w'')
      | (Raise e', w'') => (Raise e', w'')
      end
  end.

Definition repair_bug (self : Repairer) (chart_11 : bool) (config : RepairConfig)
    (bug_id : string) (bug : Bug) : M unit :=
  _ ← emit (ERepairBug bug_id);
  finally (on_files (repair_bug_no_cleanup self chart_11 config bug_id bug))
          (on_files (clean_up self)).

Definition bugs_to_repair (ext : External) (self : Repairer)
    (config : RepairConfig) (hunk_only : bool) : list (string * Bug) :=
  let pattern := bug_pattern config in
  let bugs_considered :=
    if hunk_only then single_hunk_bugs (d4j self) else all_bugs (d4j self) in
  filter (fun '(bug_id, bug) =>
            fullmatch ext pattern bug_id = true /\ bug_id <> "Lang-25")
         bugs_considered.

(** [Repairer.repair]; fixing the seeds changes nothing that is modelled. *)
Definition repair (ext : External) (self : Repairer) (config : RepairConfig)
    (hunk_only : bool) : M unit :=
  _ ← on_files (dump_repair_config self config);
  forM_ (bugs_to_repair ext self config hunk_only)
    (fun '(bug_id, bug) =>
       repair_bug self (bool_decide (bug_id = "Chart-11")) config bug_id bug).

End repair.

(** ** results: the data model of the runner

    The modules that declare these types are not among the sources read
    (only [results/__init__.py], which re-exports them, is). *)

Module results.
Import text.

(** Modelled from the spec: "[SynthesisResult] ... either Successful (carries
    the synthesized hunk text ...), Pruned ([is_pruned_halfway] true), or
    Unfinished ([is_unfinished] true)"; [runner.py] reads the text of a hunk
    as [hunk.result.hunk], [None] when there is none. Timings are left out. *)
Record SynthesisResult := {
  hunk : option string;
  is_pruned_halfway : bool;
  is_unfinished : bool;
}.

Record AvgSynthesisResult := {
  result : SynthesisResult;
}.

(** Modelled from the spec: "[BuggyHunk] ... owning [file] (the buggy
    [TextFile] before editing), [start]/[end] character offsets of the
    removed region". *)
Record BuggyHunk := {
  file : TextFile;
  start : nat;
  end_ : nat;
}.

(** Modelled from the spec: a [TaggedResult] holds one
    [SynthesisResultBatch], "one round of parallel sampling". *)
Record SynthesisResultBatch := {
  batch_results : list SynthesisResult;
}.

Record TaggedResult := {
  synthesis_result_batch : SynthesisResultBatch;
}.

Record HunkRepairResult := {
  buggy_hunk : BuggyHunk;
  results : list TaggedResult;
}.

(** [AvgFilePatch(hunks, bug, buggy_hunk_indices)] *)
Record AvgFilePatch := {
  hunks : list AvgSynthesisResult;
  bug : TextFile;
  buggy_hunk_indices : list (nat * nat);
}.

(** [AvgPatch(file_patches, is_duplicate)] *)
Record AvgPatch := {
  file_patches : list AvgFilePatch;
  is_duplicate : bool;
}.

Definition lacks_text (h : AvgSynthesisResult) : bool :=
  bool_decide (hunk (result h) = None).

(** Modelled from the spec: [AvgPatch.is_broken], "any constituent hunk in
    that state"; a broken patch is "a candidate patch containing at least one
    hunk whose generation did not successfully complete". *)
Definition is_broken (p : AvgPatch) : bool :=
  existsb (fun fp => existsb lacks_text (hunks fp)) (file_patches p).

(** Modelled from the spec: [RepairConfig]-independent part of
    [RepairResult]: "mapping BugId -> (per buggy-file -> per-hunk
    [HunkRepairResult])". *)
Record RepairResult := {
  rr_result_dict : list (string * list (list HunkRepairResult));
}.

(** [RepairTransformedResult(result_dict, all_appeared)] *)
Record RepairTransformedResult := {
  tr_result_dict : list (string * list AvgPatch);
  all_appeared : list (string * gset string);
}.

Inductive Outcome := ParseError | CompilationError | TestingError | Success.

(** [PatchValidationResult(outcome, time_cost, stdout, stderr)] *)
Record PatchValidationResult := {
  outcome : Outcome;
  time_cost : Z;
  pv_stdout : string;
  pv_stderr : string;
}.

(** Modelled from the spec: [ValidationConfig], a "regular-expression filter
    over BugId and a parallelism degree ([n_cores])". *)
Record ValidationConfig := {
  bug_pattern : string;
  n_cores : nat;
}.

(** [ValidationResult(validation_configs, result_dict)] *)
Record ValidationResult := {
  validation_configs : list ValidationConfig;
  vr_result_dict : list (string * list (nat * (nat * PatchValidationResult)));
}.

(** Modelled from the spec: [GenerationDatapoint], the cumulative statistics
    of [evaluate_generation]; it "supports pointwise addition ([zero()]
    identity element)". The generation time is a float; its type, zero and
    sum are left open. *)
Record GenerationDatapoint (T : Type) := {
  gen_time : T;
  n_total : nat;
  n_unique : nat;
  n_unfinished : nat;
  n_pruned : nat;
}.
Arguments gen_time {T} _.
Arguments n_total {T} _.
Arguments n_unique {T} _.
Arguments n_unfinished {T} _.
Arguments n_pruned {T} _.

Definition datapoint_zero {T} (t_zero : T) : GenerationDatapoint T :=
  {| gen_time := t_zero; n_total := 0; n_unique := 0; n_unfinished := 0;
     n_pruned := 0 |}.

Definition datapoint_add {T} (t_add : T -> T -> T)
    (a b : GenerationDatapoint T) : GenerationDatapoint T :=
  {| gen_time := t_add (gen_time a) (gen_time b);
     n_total := n_total a + n_total b;
     n_unique := n_unique a + n_unique b;
     n_unfinished := n_unfinished a + n_unfinished b;
     n_pruned := n_pruned a + n_pruned b |}.

(** Modelled from the spec: [MetaConfig], the "benchmark/tooling paths"
    from which [Report.get_d4j] rebuilds the benchmark interface. *)
Record MetaConfig := {
  d4j_home : string;
  d4j_checkout_root : string;
  java8_home : string;
}.

(** [Report(root, config, repair_result, transformed_result,
    validation_result)] *)
Record Report := {
  config : MetaConfig;
  repair_result : RepairResult;
  transformed_result : option RepairTransformedResult;
  validation_result : option ValidationResult;
}.

End results.

(** ** runner.py *)

Module runner.
Import text results.

(** A work item of the validation: [(bug_id, patch_idx, patch)]. *)
Definition WorkItem : Type := string * nat * AvgPatch.

(** What a [Runner] acts on: its report (mutated in place), what the last
    [report.save()] left on disk, the outside world, and a record of each
    batch handed to the worker pool. *)
Record RunnerState := {
  report : Report;
  disk : option Report;
  outside : World;
  dispatched : list (list WorkItem);
}.

Definition RM (A : Type) : Type := RunnerState -> res A * RunnerState.

Global Instance RM_ret : MRet RM := fun _ a st => (Ok a, st).
Global Instance RM_bind : MBind RM := fun _ _ k m st =>
  match m st with
  | (Ok a, st') => k a st'
  | (Raise e, st') => (Raise e, st')
  end.

Definition rm_get : RM RunnerState := fun st => (Ok st, st).
Definition rm_lift {A} (r : res A) : RM A := fun st => (r, st).
Definition rm_assert (b : bool) : RM unit := rm_lift (assert b).
Definition set_report (r : Report) : RM unit := fun st =>
  (Ok tt, {| report := r; disk := disk st; outside := outside st;
             dispatched := dispatched st |}).
Definition rm_outside {A} (m : M A) : RM A := fun st =>
  let '(r, w) := m (outside st) in
  (r, {| report := report st; disk := disk st; outside := w;
         dispatched := dispatched st |}).
Definition log_dispatch (batch : list WorkItem) : RM unit := fun st =>
  (Ok tt, {| report := report st; disk := disk st; outside := outside st;
             dispatched := dispatched st ++ [batch] |}).

(** [report.save()] *)
Definition save : RM unit := fun st =>
  (Ok tt, {| report := report st; disk := Some (report st);
             outside := outside st; dispatched := dispatched st |}).

Fixpoint rforM_ {A} (l : list A) (f : A -> RM unit) : RM unit :=
  match l with
  | [] => mret tt
  | x :: l' => _ ← f x; rforM_ l' f
  end.

Definition set_transformed (tr : RepairTransformedResult) : RM unit :=
  st ← rm_get;
  set_report {| config := config (report st);
                repair_result := repair_result (report st);
                transformed_result := Some tr;
                validation_result := validation_result (report st) |}.

Definition set_validation (vr : ValidationResult) : RM unit :=
  st ← rm_get;
  set_report {| config := config (report st);
                repair_result := repair_result (report st);
                transformed_result := transformed_result (report st);
                validation_result := Some vr |}.

(** [zip] over the unpacked lists: as many tuples as the shortest list has elements, none when
    there is no list. *)
Fixpoint zip_star {A} (xss : list (list A)) : list (list A) :=
  match xss with
  | [] => []
  | [xs] => (fun x => [x]) <$> xs
  | xs :: rest => zip_with cons xs (zip_star rest)
  end.

(** [zip_longest] over the unpacked lists: as many tuples as the longest list has elements,
    [None] where a list has run out. *)
Definition zip_longest_star {A} (xss : list (list A)) : list (list (option A)) :=
  (fun i => (fun xs => xs !! i) <$> xss) <$> seq 0 (max_list (length <$> xss)).

(** [filter(lambda r: r is not None, zipped_result)] *)
Definition not_none {A} (zipped : list (option A)) : list A := omap id zipped.

Section runner.
Context (ext : External).
(** [SynthesisResultBatch.to_average_results], [AvgFilePatch.compute_patch]
    and [utils.RULE] are not among the sources read; [parallel] is how
    joblib's [Parallel(n_jobs=...)] runs the jobs it is given. *)
Context (to_average_results : SynthesisResultBatch -> list AvgSynthesisResult).
Context (compute_patch : AvgFilePatch -> option TextFile).
Context (RULE : string).
Context (parallel : nat -> list (M PatchValidationResult)
                    -> M (list PatchValidationResult)).

Definition _AvgResult : Type := AvgSynthesisResult * BuggyHunk.

Definition avg_results (hunk_result : HunkRepairResult) : list _AvgResult :=
  tagged_result ← results hunk_result;
  avg_result ← to_average_results (synthesis_result_batch tagged_result);
  [(avg_result, buggy_hunk hunk_result)].

(** The three assertions on a group, lines 264-266. *)
Definition group_ok (group : list (list _AvgResult)) : bool :=
  (0 <? length group)%nat
  && (length (remove_dups (length <$> group)) =? 1)%nat
  && (length (remove_dups ((fun t : _AvgResult => path (file t.2)) <$> concat group))
      =? 1)%nat.

Definition file_patch_of (file_group : list _AvgResult) : res AvgFilePatch :=
  _ ← assert (0 <? length file_group)%nat;
  match last file_group with
  | Some (_, buggy_hunk) =>
      Ok {| hunks := fst <$> file_group;
            bug := file buggy_hunk;
            buggy_hunk_indices :=
              (fun t : _AvgResult => (start t.2, end_ t.2)) <$> file_group |}
  | None => Raise AssertionError
  end.

Definition patch_of_rank (file_groups : list (list _AvgResult))
    : res (list AvgFilePatch) :=
  _ ← assert (0 <? length file_groups)%nat;
  mapM file_patch_of file_groups.

(** Lines 242-262: per file, per hunk, the averaged results of all rounds. *)
Definition groups_of (file_results : list (list HunkRepairResult))
    : list (list (list _AvgResult)) :=
  (fun hunk_results : list HunkRepairResult => avg_results <$> hunk_results)
    <$> file_results.

(** [iter_files]: the candidate patches in rank order. The generator checks
    the groups when its first element is asked for; the assertions made while
    it yields cannot fail once those have passed (see
    [iter_files_yields]), so all checks are made here before the list. *)
Definition iter_files (file_results : list (list HunkRepairResult))
    : res (list (list AvgFilePatch)) :=
  let groups := groups_of file_results in
  _ ← assert (forallb group_ok groups);
  mapM patch_of_rank (zip_star (zip_star <$> groups)).

(** [any(hunk.result.hunk is None for file in patch for hunk in file.hunks)] *)
Definition any_hunk_missing (patch : list AvgFilePatch) : bool :=
  existsb (fun file => existsb lacks_text (hunks file)) patch.

(** The joined hunk texts; only evaluated when every hunk has a text. *)
Definition concat_hunk_str (patch : list AvgFilePatch) : string :=
  String.concat ""
    (file_patch ← patch; hunk_patch ← hunks file_patch;
     [default "" (hunk (result hunk_patch))]).

(** One turn of the loop over the candidates of a bug, lines 72-89. *)
Definition transform_step (patches : list AvgPatch) (appeared : gset string)
    (patch_idx : nat) (patch : list AvgFilePatch)
    : list AvgPatch * gset string :=
  if (patch_idx <? length patches)%nat then (patches, appeared)
  else if any_hunk_missing patch then
    (patches ++ [{| file_patches := patch; is_duplicate := false |}], appeared)
  else
    let concat_hunk_str := concat_hunk_str patch in
    if bool_decide (concat_hunk_str ∈ appeared) then
      (patches ++ [{| file_patches := patch; is_duplicate := true |}], appeared)
    else
      (patches ++ [{| file_patches := patch; is_duplicate := false |}],
       {[concat_hunk_str]} ∪ appeared).

Fixpoint transform_loop (patch_idx : nat) (candidates : list (list AvgFilePatch))
    (patches : list AvgPatch) (appeared : gset string)
    : list AvgPatch * gset string :=
  match candidates with
  | [] => (patches, appeared)
  | patch :: rest =>
      let '(patches, appeared) := transform_step patches appeared patch_idx patch in
      transform_loop (S patch_idx) rest patches appeared
  end.

Definition get_transformed : RM RepairTransformedResult :=
  st ← rm_get;
  match transformed_result (report st) with
  | Some tr => mret tr
  | None => rm_lift (Raise AssertionError)
  end.

(** The body of the loop over the bugs, lines 69-90. *)
Definition transform_bug (bug_id : string)
    (files : list (list HunkRepairResult)) : RM unit :=
  tr ← get_transformed;
  let '(patches, result_dict) := pydict.setdefault bug_id [] (tr_result_dict tr) in
  let '(appeared, all_appeared) := pydict.setdefault bug_id ∅ (all_appeared tr) in
  _ ← set_transformed {| tr_result_dict := result_dict;
                         all_appeared := all_appeared |};
  candidates ← rm_lift (iter_files files);
  let '(patches, appeared) := transform_loop 0 candidates patches appeared in
  set_transformed {| tr_result_dict := pydict.set bug_id patches result_dict;
                     all_appeared := pydict.set bug_id appeared all_appeared |}.

Definition transform : RM unit :=
  st ← rm_get;
  _ ← match transformed_result (report st) with
      | Some _ => mret tt
      | None => set_transformed {| tr_result_dict := []; all_appeared := [] |}
      end;
  _ ← rforM_ (rr_result_dict (repair_result (report st)))
         (fun '(bug_id, files) => transform_bug bug_id files);
  save.

Definition transform_if_not_performed : RM unit :=
  st ← rm_get;
  match transformed_result (report st) with
  | Some _ => mret tt
  | None => transform
  end.

(** Modelled from the spec: "[get_d4j()] reconstructs a [Defects4J] benchmark
    interface from the stored [MetaConfig]". *)
Definition get_d4j (r : Report) : M d4j.Defects4J :=
  d4j.__init__ ext (results.d4j_home (config r))
    (results.d4j_checkout_root (config r)) (results.java8_home (config r)).

(** [time.perf_counter() - start_time] *)
Definition cost (start_time : Z) : M Z :=
  w ← get_world; mret (perf_counter ext (trace w) - start_time)%Z.

(** Lines 187-193 of [validate_patch]: the materialized files. *)
Fixpoint patch_files_of (file_patches : list AvgFilePatch) : M (list TextFile) :=
  match file_patches with
  | [] => mret []
  | patch_file :: rest =>
      patch_text_file ← match compute_patch patch_file with
                        | Some t => mret t
                        | None => raise AssertionError
                        end;
      e ← path_exists ext (path patch_text_file);
      _ ← massert e;
      files ← patch_files_of rest;
      mret (patch_text_file :: files)
  end.

Definition append_file (p : string) (s : text) : M unit :=
  _ ← emit (EAppend p s);
  w ← get_world;
  put_fs (<[p := default [] (fs w !! p) ++ s]> (fs w)).

(** Lines 196-210: parse and write each file in turn; [Some] is the early
    return on a syntax or lexer error. *)
Fixpoint parse_and_write (start_time : Z) (patch_files : list TextFile)
    : M (option PatchValidationResult) :=
  match patch_files with
  | [] => mret None
  | patch_text_file :: rest =>
      _ ← emit (EParse (content patch_text_file));
      match java_parse ext (content patch_text_file) with
      | JavaSyntaxError e | LexerError e =>
          c ← cost start_time;
          mret (Some {| outcome := ParseError; time_cost := c;
                        pv_stdout := ""; pv_stderr := e |})
      | OtherException type_name e =>
          _ ← append_file "unexpected_exception"
                (list_ascii_of_string type_name ++ [nl] ++ list_ascii_of_string e);
          _ ← write patch_text_file;
          parse_and_write start_time rest
      | Parsed =>
          _ ← write patch_text_file;
          parse_and_write start_time rest
      end
  end.

(** Lines 211-230: compile, then test under a timeout of 180 seconds. *)
Definition compile_and_test (start_time : Z) (d4j_ : d4j.Defects4J)
    (bug_id : string) : M PatchValidationResult :=
  '(comp_success, comp_stdout, comp_stderr) ← d4j.compile ext d4j_ bug_id;
  if negb comp_success then
    c ← cost start_time;
    mret {| outcome := CompilationError; time_cost := c;
            pv_stdout := comp_stdout; pv_stderr := comp_stderr |}
  else
    catch_timeout
      ('(val_success, val_stdout, val_stderr) ← d4j.test ext d4j_ bug_id 180;
       c ← cost start_time;
       mret {| outcome := if (val_success : bool) then Success else TestingError;
               time_cost := c;
               pv_stdout := comp_stdout +:+ RULE +:+ val_stdout;
               pv_stderr := comp_stderr +:+ RULE +:+ val_stderr |})
      (c ← cost start_time;
       mret {| outcome := TestingError; time_cost := c;
               pv_stdout := comp_stdout +:+ RULE +:+ "Timeout";
               pv_stderr := comp_stderr +:+ RULE +:+ "Timeout" |}).

(** Lines 181-195: what precedes the parsing; the start time and the files. *)
Definition prepare (d4j_ : d4j.Defects4J) (bug_id : string) (patch : AvgPatch)
    : M (Z * list TextFile) :=
  w ← get_world;
  let start_time := perf_counter ext (trace w) in
  _ ← massert (negb (is_duplicate patch));
  patch_files ← patch_files_of (file_patches patch);
  _ ← massert (length (remove_dups (path <$> patch_files)) =? 1)%nat;
  _ ← d4j.checkout ext d4j_ bug_id false;
  mret (start_time, patch_files).

Definition validate_patch (d4j_ : d4j.Defects4J) (bug_id : string)
    (patch : AvgPatch) : M PatchValidationResult :=
  '(start_time, patch_files) ← prepare d4j_ bug_id patch;
  early ← parse_and_write start_time patch_files;
  match early with
  | Some parse_error => mret parse_error
  | None => compile_and_test start_time d4j_ bug_id
  end.

(** The items of one bug that are still to validate, lines 122-128. *)
Definition unvalidated_of (bug_id : string) (patches : list AvgPatch)
    (validated_patches : list (nat * (nat * PatchValidationResult)))
    : list WorkItem :=
  omap (fun '(patch_idx, patch) =>
          if negb (is_duplicate patch) && negb (is_broken patch)
             && bool_decide (pydict.get patch_idx validated_patches = None)
          then Some (bug_id, patch_idx, patch) else None)
       (imap pair patches).

(** The loop over the transformed results, lines 117-128. *)
Fixpoint collect (pattern : string) (items : list (string * list AvgPatch))
    (validation_result_dict : list (string * list (nat * (nat * PatchValidationResult))))
    : list (list WorkItem)
      * list (string * list (nat * (nat * PatchValidationResult))) :=
  match items with
  | [] => ([], validation_result_dict)
  | (bug_id, patches) :: rest =>
      if fullmatch ext pattern bug_id then
        let '(validated_patches, validation_result_dict) :=
          pydict.setdefault bug_id [] validation_result_dict in
        let '(unvalidated, validation_result_dict) :=
          collect pattern rest validation_result_dict in
        (unvalidated_of bug_id patches validated_patches :: unvalidated,
         validation_result_dict)
      else collect pattern rest validation_result_dict
  end.

(** The batches in the order of the two nested loops, lines 130-132. *)
Definition batches (n_cores : nat) (unvalidated : list (list WorkItem))
    : list (list WorkItem) :=
  zipped_result ← zip_longest_star unvalidated;
  utils.chunked n_cores (not_none zipped_result).

Definition get_validation : RM ValidationResult :=
  st ← rm_get;
  match validation_result (report st) with
  | Some vr => mret vr
  | None => rm_lift (Raise AssertionError)
  end.

(** Lines 140-146. *)
Definition record_result (val_config_idx : nat)
    (item_result : WorkItem * PatchValidationResult) : RM unit :=
  let '((bug_id, val_idx, _), val_result) := item_result in
  vr ← get_validation;
  match pydict.get bug_id (vr_result_dict vr) with
  | None => rm_lift (Raise AssertionError)
  | Some validated =>
      _ ← rm_assert (bool_decide (pydict.get val_idx validated = None));
      set_validation
        {| validation_configs := validation_configs vr;
           vr_result_dict :=
             pydict.set bug_id
               (pydict.set val_idx (val_config_idx, val_result) validated)
               (vr_result_dict vr) |}
  end.

(** The body of the loop over the batches, lines 133-147. *)
Definition run_batch (d4j_ : d4j.Defects4J) (val_config_idx : nat)
    (result_batch : list WorkItem) : RM unit :=
  _ ← rm_assert (length result_batch
                 =? length (remove_dups ((fun r : WorkItem => r.1.1) <$> result_batch)))%nat;
  _ ← log_dispatch result_batch;
  val_results ← rm_outside
    (parallel (length result_batch)
       ((fun '(bug_id, _, avg_patch) => validate_patch d4j_ bug_id avg_patch)
          <$> result_batch));
  _ ← rforM_ (zip result_batch val_results) (record_result val_config_idx);
  save.

Definition validate (config : ValidationConfig) : RM unit :=
  _ ← transform_if_not_performed;
  st ← rm_get;
  d4j_ ← rm_outside (get_d4j (report st));
  tr ← get_transformed;
  let vr := default {| validation_configs := []; vr_result_dict := [] |}
                    (validation_result (report st)) in
  let validation_configs := validation_configs vr ++ [config] in
  let val_config_idx := (length validation_configs - 1)%nat in
  let '(unvalidated, validation_result_dict) :=
    collect (bug_pattern config) (tr_result_dict tr) (vr_result_dict vr) in
  _ ← set_validation {| validation_configs := validation_configs;
                        vr_result_dict := validation_result_dict |};
  rforM_ (batches (n_cores config) unvalidated) (run_batch d4j_ val_config_idx).

(** [AvgPatch.total_gen_time], [is_unfinished] and [is_pruned] are not among
    the sources read, nor are the floats of the generation times. *)
Context {T : Type} (t_zero : T) (t_add : T -> T -> T).
Context (total_gen_time : AvgPatch -> T).
Context (patch_is_unfinished patch_is_pruned : AvgPatch -> bool).

(** The datapoint of one patch, lines 158-166. *)
Definition datapoint_of (patch : AvgPatch) : GenerationDatapoint T :=
  {| gen_time := total_gen_time patch;
     n_total := 1;
     n_unique := utils.binary (fun patch => negb (is_duplicate patch)) patch;
     n_unfinished :=
       utils.binary (fun patch => negb (patch_is_unfinished patch)) patch;
     n_pruned := utils.binary (fun patch => negb (patch_is_pruned patch)) patch |}.

(** [lambda points, point: points + [points[-1] + point]] *)
Definition accumulate (points : list (GenerationDatapoint T))
    (point : GenerationDatapoint T) : res (list (GenerationDatapoint T)) :=
  match last points with
  | Some p => Ok (points ++ [datapoint_add t_add p point])
  | None => Raise IndexError
  end.

(** [functools.reduce(function, iterable, initial)] *)
Fixpoint reduce {A B} (function : B -> A -> res B) (iterable : list A)
    (initial : B) : res B :=
  match iterable with
  | [] => Ok initial
  | x :: rest => acc ← function initial x; reduce function rest acc
  end.

(** [evaluate_generation]; the report of a [Runner] always has a repair
    result, so the first assertion cannot fail. *)
Definition evaluate_generation
    : RM (list (string * list (GenerationDatapoint T))) :=
  _ ← transform_if_not_performed;
  tr ← get_transformed;
  rm_lift
    (reduce (fun result '(bug_id, patches) =>
               datapoints ← reduce accumulate (datapoint_of <$> patches)
                              [datapoint_zero t_zero];
               Ok (pydict.set bug_id datapoints result))
            (tr_result_dict tr) []).

End runner.
End runner.

(** * Properties *)

(** ** Dictionaries *)

Section pydict_facts.
Context {K : Type} `{EqDecision K} {V : Type}.
Implicit Types (k : K) (v : V) (d : list (K * V)).
Import pydict.

Lemma get_set_eq k v d : get k (set k v d) = Some v.
Proof.
  induction d as [|[k' v'] d IH]; simpl.
  - by rewrite decide_True.
  - destruct (decide (k' = k)) as [->|Hne]; simpl.
    + by rewrite decide_True.
    + by rewrite decide_False.
Qed.

Lemma get_set_ne k k' v d : k ≠ k' -> get k' (set k v d) = get k' d.
Proof.
  intros Hne. induction d as [|[k0 v0] d IH]; simpl.
  - by rewrite decide_False.
  - destruct (decide (k0 = k)) as [->|Hne0]; simpl.
    + by rewrite !decide_False.
    + destruct (decide (k0 = k')); [done|apply IH].
Qed.

Lemma set_get_id k v d : get k d = Some v -> set k v d = d.
Proof.
  induction d as [|[k0 v0] d IH]; simpl; [done|].
  destruct (decide (k0 = k)) as [->|Hne0]; [congruence|].
  intros Hg. by rewrite IH.
Qed.

Lemma keys_set_present k v d : is_Some (get k d) -> keys (set k v d) = keys d.
Proof.
  unfold keys. induction d as [|[k0 v0] d IH]; simpl.
  - by intros [? ?].
  - destruct (decide (k0 = k)) as [->|Hne0]; simpl; [done|].
    intros Hs. f_equal. by apply IH.
Qed.

Lemma keys_set_absent k v d : get k d = None -> keys (set k v d) = keys d ++ [k].
Proof.
  unfold keys. induction d as [|[k0 v0] d IH]; simpl; [done|].
  destruct (decide (k0 = k)) as [->|Hne0]; simpl; [done|].
  intros Hs. f_equal. by apply IH.
Qed.

Lemma get_None_keys k d : get k d = None <-> k ∉ keys d.
Proof.
  unfold keys. induction d as [|[k0 v0] d IH]; simpl.
  - split; [intros _; apply not_elem_of_nil|done].
  - rewrite not_elem_of_cons. destruct (decide (k0 = k)) as [->|Hne0].
    + split; [done|]. intros [? _]. done.
    + rewrite IH. split; [intros ?; split; [congruence|done]|by intros [_ ?]].
Qed.

Lemma get_Some_elem k v d : get k d = Some v -> (k, v) ∈ d.
Proof.
  induction d as [|[k0 v0] d IH]; simpl; [done|].
  destruct (decide (k0 = k)) as [->|Hne0].
  - intros [= ->]. apply list_elem_of_here.
  - intros Hg. apply list_elem_of_further. auto.
Qed.

Lemma elem_get_Some k v d : wf d -> (k, v) ∈ d -> get k d = Some v.
Proof.
  unfold wf, keys. induction d as [|[k0 v0] d IH]; simpl.
  - intros _ Hin. by apply elem_of_nil in Hin.
  - rewrite NoDup_cons. intros [Hnotin Hnd] Hin.
    apply elem_of_cons in Hin as [[= -> ->]|Hin].
    + by rewrite decide_True.
    + destruct (decide (k0 = k)) as [->|Hne0]; [|by apply IH].
      exfalso. apply Hnotin. apply list_elem_of_fmap. by exists (k, v).
Qed.

Lemma wf_set k v d : wf d -> wf (set k v d).
Proof.
  unfold wf. intros Hwf. destruct (get k d) as [v0|] eqn:Hg.
  - by rewrite keys_set_present.
  - rewrite keys_set_absent by done. apply NoDup_app. split; [done|].
    split; [|apply NoDup_singleton].
    intros x Hx Hx'. apply list_elem_of_singleton in Hx' as ->.
    by apply get_None_keys in Hg.
Qed.

End pydict_facts.

(** ** d4j.py: hunk extraction *)

Section from_patch_file_facts.
Import unidiff utils d4j.

Definition plain_line (l : Line) : Prop := is_added l = false /\ is_removed l = false.

Lemma context_is_plain l : is_context l = true -> plain_line l.
Proof.
  unfold is_context, plain_line, is_added, is_removed.
  intros H%bool_decide_eq_true. rewrite H. done.
Qed.

Lemma loop_plain_step n reversed lc x l ch :
  plain_line x ->
  from_patch_loop (S n) reversed lc (x :: l) ch =
  from_patch_loop n reversed (if is_context x then x else lc) l ch.
Proof. intros [Ha Hr]. simpl. by rewrite Ha, Hr. Qed.

(** Lines that open no change leave the collected changes as they are. *)
Lemma loop_plain_rest l : forall fuel reversed lc ch,
  Forall plain_line l -> (length l < fuel)%nat ->
  from_patch_loop fuel reversed lc l ch = Ok ch.
Proof.
  induction l as [|x l IH]; intros fuel reversed lc ch Hall Hfuel.
  - destruct fuel; [simpl in Hfuel; lia|done].
  - destruct fuel as [|fuel]; [simpl in Hfuel; lia|].
    apply Forall_cons in Hall as [Hx Hall].
    rewrite loop_plain_step by done. apply IH; [done|simpl in Hfuel; lia].
Qed.

(** One turn of the loop at a removed line. *)
Lemma loop_removed_step n reversed lc x l ch :
  is_added x = false -> is_removed x = true -> is_context lc = true ->
  from_patch_loop (S n) reversed lc (x :: l) ch =
  let '(removed, line_iter, l1) :=
    take_while_two (fun _ => true) line_consecutive [x] l in
  let '(added, _, l2) := take_while_two is_added line_consecutive line_iter l1 in
  c ← make_change reversed lc removed added;
  from_patch_loop n reversed lc l2 (ch ++ [c]).
Proof. intros Ha Hr Hc. simpl. by rewrite Ha, Hr, Hc. Qed.

(** A run of context lines only moves [last_context] forward. *)
Lemma loop_context_prefix pre : forall lc,
  Forall (fun l => is_context l = true) (lc :: pre) ->
  exists lc', is_context lc' = true /\
    forall n reversed rest ch,
      from_patch_loop (length pre + n) reversed lc (pre ++ rest) ch =
      from_patch_loop n reversed lc' rest ch.
Proof.
  induction pre as [|x pre IH]; intros lc Hall.
  - exists lc. split; [by apply Forall_cons in Hall as [? _]|done].
  - apply Forall_cons in Hall as [Hlc Hall].
    destruct (IH x Hall) as (lc' & Hlc' & Heq).
    exists lc'. split; [done|]. intros n reversed rest ch.
    apply Forall_cons in Hall as [Hx _].
    simpl length. simpl app. rewrite Nat.add_succ_l.
    rewrite loop_plain_step by by apply context_is_plain.
    rewrite Hx. apply Heq.
Qed.

(** C3. A hunk that, after its leading context lines, replaces the two
    consecutive removed lines numbered 10 and 11 in the source by one added
    line: without reversal the extraction is the single change that starts at
    10, removes the two lines and adds the one, markers stripped; with
    reversal the two lists are swapped and the start is the added line's
    number in the target. *)
Theorem from_patch_file_two_removed_one_added
    (c0 : Line) (pre post : list Line) (v10 v11 va : string) (t : Z)
    (src : string) (modified : bool) :
  Forall (fun l => is_context l = true) (c0 :: pre) ->
  Forall plain_line post ->
  let r10 := {| source_line_no := Some 10%Z; target_line_no := None;
                line_type := "-"; value := v10 |} in
  let r11 := {| source_line_no := Some 11%Z; target_line_no := None;
                line_type := "-"; value := v11 |} in
  let a := {| source_line_no := None; target_line_no := Some t;
              line_type := "+"; value := va |} in
  let patch_file := {| source_file := src; is_modified_file := modified;
                       hunks := [c0 :: pre ++ [r10; r11; a] ++ post] |} in
  from_patch_file false patch_file =
    Ok {| path := remove_prefix src;
          changes := [{| start := 10%Z; removed_lines := [v10; v11];
                         added_lines := [va] |}] |}
  /\ from_patch_file true patch_file =
    Ok {| path := remove_prefix src;
          changes := [{| start := t; removed_lines := [va];
                         added_lines := [v10; v11] |}] |}.
Proof.
  intros Hpre Hpost r10 r11 a patch_file.
  destruct (loop_context_prefix pre c0 Hpre) as (lc & Hlc & Hskip).
  assert (Hloop : forall reversed,
    from_patch_loop (S (length (pre ++ [r10; r11; a] ++ post))) reversed c0
      (pre ++ [r10; r11; a] ++ post) [] =
    from_patch_loop (S (S (S (S (length post))))) reversed lc
      ([r10; r11; a] ++ post) []).
  { intros reversed. rewrite <- Hskip. f_equal. rewrite length_app. simpl. lia. }
  assert (Hrun : forall reversed c,
    make_change reversed lc [r10; r11] [a] = Ok c ->
    from_patch_loop (S (S (S (S (length post))))) reversed lc
      ([r10; r11; a] ++ post) [] = Ok [c]).
  { intros reversed c Hc.
    change ([r10; r11; a] ++ post) with (r10 :: ([r11; a] ++ post)).
    rewrite loop_removed_step by done.
    destruct post as [|p post'].
    - change (take_while_two (fun _ => true) line_consecutive [r10] ([r11; a] ++ []))
        with ([r10; r11], [a], @nil Line).
      lazy beta match zeta.
      change (take_while_two is_added line_consecutive [a] [])
        with ([a], @nil Line, @nil Line).
      lazy beta match zeta. by rewrite Hc.
    - apply Forall_cons in Hpost as [[Hpa Hpr] Hpost].
      change (take_while_two (fun _ => true) line_consecutive [r10]
                ([r11; a] ++ p :: post'))
        with ([r10; r11], [a], p :: post').
      assert (take_while_two is_added line_consecutive [a] (p :: post')
              = ([a], [p], post')) as Htw.
      { unfold take_while_two. cbn [take_front take_under]. unfold admits.
        change (is_added a) with true. by rewrite Hpa. }
      lazy beta match zeta. rewrite Htw. lazy beta match zeta. rewrite Hc.
      cbn [mbind result_bind rbind app].
      apply loop_plain_rest; [done|simpl; lia]. }
  unfold from_patch_file. cbn [hunks concat patch_file source_file].
  rewrite app_nil_r. rewrite !Hloop.
  split.
  - by rewrite (Hrun false _ eq_refl).
  - by rewrite (Hrun true _ eq_refl).
Qed.

Definition context_9 : Line :=
  {| source_line_no := Some 9%Z; target_line_no := Some 9%Z;
     line_type := " "; value := "int x;" |}.
Definition context_12 : Line :=
  {| source_line_no := Some 12%Z; target_line_no := Some 11%Z;
     line_type := " "; value := "}" |}.
Definition two_for_one : PatchedFile :=
  {| source_file := "a/src/Foo.java"; is_modified_file := true;
     hunks := [context_9 :: [] ++
       [ {| source_line_no := Some 10%Z; target_line_no := None;
            line_type := "-"; value := "old1" |};
         {| source_line_no := Some 11%Z; target_line_no := None;
            line_type := "-"; value := "old2" |};
         {| source_line_no := None; target_line_no := Some 10%Z;
            line_type := "+"; value := "new" |} ] ++ [context_12]] |}.

Lemma from_patch_file_two_removed_one_added_witness :
  from_patch_file false two_for_one =
    Ok {| path := "src/Foo.java";
          changes := [{| start := 10%Z; removed_lines := ["old1"; "old2"];
                         added_lines := ["new"] |}] |}
  /\ from_patch_file true two_for_one =
    Ok {| path := "src/Foo.java";
          changes := [{| start := 10%Z; removed_lines := ["new"];
                         added_lines := ["old1"; "old2"] |}] |}.
Proof.
  refine (from_patch_file_two_removed_one_added context_9 [] [context_12]
            "old1" "old2" "new" 10%Z "a/src/Foo.java" true _ _).
  - repeat constructor.
  - repeat constructor.
Defined.

(** Without a context line before the change the extraction stops on its
    assertion. *)
Example from_patch_file_no_leading_context :
  from_patch_file false
    {| source_file := "a/src/Foo.java"; is_modified_file := true;
       hunks := [[ {| source_line_no := Some 10%Z; target_line_no := None;
                      line_type := "-"; value := "old1" |};
                   {| source_line_no := Some 11%Z; target_line_no := None;
                      line_type := "-"; value := "old2" |};
                   {| source_line_no := None; target_line_no := Some 10%Z;
                      line_type := "+"; value := "new" |} ]] |}
  = Raise AssertionError.
Proof. reflexivity. Qed.

(** The extraction loop is started with enough fuel. *)
Lemma take_under_length {A} (p1 : A -> bool) p2 u : forall prev t f u',
  take_under p1 p2 prev u = (t, f, u') -> (length u' <= length u)%nat.
Proof.
  induction u as [|x u IH]; intros prev t f u'; simpl.
  - intros [= <- <- <-]. done.
  - destruct (admits p1 p2 prev x).
    + destruct (take_under p1 p2 (Some x) u) as [[t0 f0] u0] eqn:E.
      intros [= <- <- <-]. apply IH in E. lia.
    + intros [= <- <- <-]. lia.
Qed.

Lemma take_front_length {A} (p1 : A -> bool) p2 front : forall prev under t f u',
  take_front p1 p2 prev front under = (t, f, u') ->
  (length u' <= length under)%nat.
Proof.
  induction front as [|x front IH]; intros prev under t f u'; simpl.
  - apply take_under_length.
  - destruct (admits p1 p2 prev x).
    + destruct (take_front p1 p2 (Some x) front under) as [[t0 f0] u0] eqn:E.
      intros [= <- <- <-]. by apply IH in E.
    + intros [= <- <- <-]. lia.
Qed.

Lemma make_change_fuel reversed lc removed added :
  make_change reversed lc removed added <> Raise OutOfFuel.
Proof.
  unfold make_change. destruct reversed; simpl; repeat (case_match; simpl; try done).
Qed.

Lemma from_patch_loop_fuel fuel : forall reversed lc l ch,
  (length l < fuel)%nat ->
  from_patch_loop fuel reversed lc l ch <> Raise OutOfFuel.
Proof.
  induction fuel as [|fuel IH]; intros reversed lc l ch Hlen; [lia|].
  destruct l as [|x l]; [done|]. simpl in Hlen. simpl.
  destruct (is_added x).
  - destruct (is_context lc); [|done]. simpl.
    destruct (take_while_two _ _ [x] l) as [[t f] u] eqn:E.
    apply take_front_length in E.
    pose proof (make_change_fuel reversed lc [] t) as Hm.
    destruct (make_change reversed lc [] t); [|simpl; congruence].
    simpl. apply IH. lia.
  - destruct (is_removed x).
    + destruct (is_context lc); [|done]. simpl.
      destruct (take_while_two _ _ [x] l) as [[t f] u] eqn:E.
      apply take_front_length in E.
      destruct (take_while_two is_added _ f u) as [[t2 f2] u2] eqn:E2.
      apply take_front_length in E2.
      pose proof (make_change_fuel reversed lc t t2) as Hm.
      destruct (make_change reversed lc t t2); [|simpl; congruence].
      simpl. apply IH. lia.
    + apply IH. lia.
Qed.

Lemma from_patch_file_fuel reversed patch_file :
  from_patch_file reversed patch_file <> Raise OutOfFuel.
Proof.
  unfold from_patch_file. destruct (concat (hunks patch_file)) as [|lc l]; [done|].
  pose proof (from_patch_loop_fuel (S (length l)) reversed lc l []) as H.
  destruct (from_patch_loop _ _ _ _ _); [done|].
  simpl. intros [= ->]. apply H; [lia|done].
Qed.

End from_patch_file_facts.

(** ** Reasoning about computations in [M] *)

Section monad_facts.
Context (ext : External).

Lemma bind_Ok {A B} (m : M A) (k : A -> M B) w b w' :
  (m ≫= k) w = (Ok b, w') ->
  exists a w1, m w = (Ok a, w1) /\ k a w1 = (Ok b, w').
Proof.
  unfold mbind, M_bind. destruct (m w) as [[a|e] w1]; [eauto|done].
Qed.

Lemma lift_Ok {A} (r : res A) w a w' :
  lift r w = (Ok a, w') -> r = Ok a /\ w' = w.
Proof. unfold lift. by intros [= -> ->]. Qed.

Lemma massert_Ok b w u w' : massert b w = (Ok u, w') -> b = true /\ w' = w.
Proof. unfold massert, lift, assert. destruct b; [by intros [= <-]|done]. Qed.

Lemma ret_Ok {A} (a : A) w b w' :
  (mret a : M A) w = (Ok b, w') -> b = a /\ w' = w.
Proof. unfold mret, M_ret. by intros [= -> ->]. Qed.

Lemma run_Ok c w r w' :
  run ext c w = (Ok r, w') ->
  trace w' = trace w ++ [ERun c] /\
  subprocess_run ext c (fs w) = (fs w', Some r).
Proof.
  unfold run. simpl. destruct (subprocess_run ext c (fs w)) as [f [d|]]; [|done].
  by intros [= <- <-].
Qed.

Lemma git_execute_Ok repo args w u w' :
  d4j.git_execute ext repo args w = (Ok u, w') ->
  trace w' = trace w ++ [ERun {| argv := args; cwd := Some repo;
                                 java_home := None; timeout := None |}].
Proof.
  unfold d4j.git_execute. intros (r & w1 & Hrun & Hk)%bind_Ok.
  apply run_Ok in Hrun as [Ht _].
  destruct (bool_decide _); [|done]. apply ret_Ok in Hk as [_ ->]. done.
Qed.

Lemma path_exists_Ok p w b w' :
  path_exists ext p w = (Ok b, w') -> w' = w.
Proof. unfold path_exists. by intros [= _ <-]. Qed.

End monad_facts.

(** ** d4j.py: checkout *)

Section checkout_facts.
Import d4j.

Definition in_repo (repo : string) (args : list string) : Event :=
  ERun {| argv := args; cwd := Some repo; java_home := None; timeout := None |}.

(** The sequence of operations the spec gives for [checkout]. *)
Definition checkout_ops_spec (self : Defects4J) (bug_id : string) (buggy : bool)
    (bug : Bug) (proj id_str : string) : list Event :=
  [ in_repo (proj_path bug) git_reset;
    in_repo (proj_path bug) git_clean;
    ERun (d4j_checkout_cmd self proj id_str buggy (proj_path bug));
    in_repo (proj_path bug) git_reset;
    in_repo (proj_path bug) git_clean ].

(** The sequence the code issues: no clean before the benchmark checkout. *)
Definition checkout_ops (self : Defects4J) (bug_id : string) (buggy : bool)
    (bug : Bug) (proj id_str : string) : list Event :=
  [ in_repo (proj_path bug) git_reset;
    ERun (d4j_checkout_cmd self proj id_str buggy (proj_path bug));
    in_repo (proj_path bug) git_reset;
    in_repo (proj_path bug) git_clean ].

(** C4 (as amended). A [checkout] that returns has issued, in this order and
    nothing else: a hard reset, the benchmark checkout command of the buggy or
    fixed revision, a hard reset, an untracked-file clean. *)
Theorem checkout_operations ext (self : Defects4J) bug_id buggy w w' :
  checkout ext self bug_id buggy w = (Ok tt, w') ->
  exists bug proj id_str,
    pydict.get bug_id (all_bugs self) = Some bug /\
    split_bug_id bug_id = Ok (proj, id_str) /\
    trace w' = trace w ++ checkout_ops self bug_id buggy bug proj id_str.
Proof.
  unfold checkout.
  intros (bug & w1 & Hbug & H)%bind_Ok.
  apply lift_Ok in Hbug as [Hbug ->].
  apply bind_Ok in H as ([proj id_str] & w2 & Hsplit & H).
  apply lift_Ok in Hsplit as [Hsplit ->].
  apply bind_Ok in H as (u1 & w3 & H1 & H). apply git_execute_Ok in H1.
  apply bind_Ok in H as (r2 & w4 & H2 & H). apply run_Ok in H2 as [H2 _].
  apply bind_Ok in H as (u3 & w5 & H3 & H). apply git_execute_Ok in H3.
  apply bind_Ok in H as (u4 & w6 & H4 & H). apply git_execute_Ok in H4.
  apply ret_Ok in H as [_ ->].
  exists bug, proj, id_str. split; [|split; [done|]].
  - unfold key in Hbug. destruct (pydict.get bug_id (all_bugs self)); congruence.
  - rewrite H4, H3, H2, H1. unfold checkout_ops, in_repo. by rewrite <- !app_assoc.
Qed.

(** An outside in which every command succeeds and changes no file. *)
Definition quiet_external : External :=
  {| subprocess_run := fun _ f => (f, Some {| returncode := 0; stdout := ""; stderr := "" |});
     java_parse := fun _ => Parsed;
     perf_counter := fun t => Z.of_nat (length t);
     dir_exists := fun _ => true;
     absolute := fun p => p;
     active_bugs := fun _ => [];
     patch_set := fun _ => [];
     fullmatch := fun _ _ => true |}.

Definition lang_1 : Bug := {| buggy_files := []; proj_path := "/co/Lang-1" |}.

Definition one_bug_d4j : Defects4J :=
  {| d4j_home := "/d4j"; d4j_checkout_root := "/co"; java8_home := "/jdk8";
     metadata := []; all_bugs := [("Lang-1", lang_1)];
     single_hunk_bugs := []; single_line_bugs := [] |}.

Definition empty_world : World := {| fs := ∅; trace := [] |}.

Lemma checkout_operations_witness :
  exists w',
    checkout quiet_external one_bug_d4j "Lang-1" false empty_world = (Ok tt, w') /\
    trace w' = checkout_ops one_bug_d4j "Lang-1" false lang_1 "Lang" "1".
Proof.
  exists (checkout quiet_external one_bug_d4j "Lang-1" false empty_world).2.
  assert (Hrun : checkout quiet_external one_bug_d4j "Lang-1" false empty_world
                 = (Ok tt, (checkout quiet_external one_bug_d4j "Lang-1" false
                              empty_world).2)) by (vm_compute; reflexivity).
  split; [exact Hrun|].
  destruct (checkout_operations quiet_external one_bug_d4j "Lang-1" false
              empty_world _ Hrun) as (bug & proj & id_str & Hb & Hs & Ht).
  vm_compute in Hb. injection Hb as <-.
  vm_compute in Hs. injection Hs as <- <-. exact Ht.
Defined.

(** The spec's sequence is not what a returning [checkout] has issued: the
    fixed revision of Lang-1 is checked out with no clean before the benchmark
    command. *)
Lemma checkout_no_clean_before :
  exists w',
    checkout quiet_external one_bug_d4j "Lang-1" false empty_world = (Ok tt, w') /\
    trace w' <> trace empty_world
                ++ checkout_ops_spec one_bug_d4j "Lang-1" false lang_1 "Lang" "1".
Proof.
  exists (checkout quiet_external one_bug_d4j "Lang-1" false empty_world).2.
  split; [vm_compute; reflexivity|]. vm_compute. discriminate.
Qed.

End checkout_facts.

(** ** d4j.py: the bug sets computed at construction *)

Section init_facts.
Import unidiff d4j.

Lemma filterM_Ok {A} (f : A -> res bool) l : forall r,
  filterM f l = Ok r -> forall x, x ∈ r -> x ∈ l /\ f x = Ok true.
Proof.
  induction l as [|y l IH]; intros r; simpl.
  - intros [= <-] x Hx. by apply elem_of_nil in Hx.
  - destruct (f y) as [b|] eqn:Hfy; [|done]. simpl.
    destruct (filterM f l) as [r0|]; [|done]. simpl.
    intros [= <-] x Hx. destruct b.
    + apply elem_of_cons in Hx as [->|Hx].
      * split; [apply list_elem_of_here|done].
      * destruct (IH r0 eq_refl x Hx). split; [by apply list_elem_of_further|done].
    + destruct (IH r0 eq_refl x Hx). split; [by apply list_elem_of_further|done].
Qed.

Lemma is_single_hunk_true bug :
  is_single_hunk bug = true ->
  exists f c, buggy_files bug = [f] /\ changes f = [c].
Proof.
  unfold is_single_hunk.
  destruct (buggy_files bug) as [|f [|f' fs]]; simpl; try done.
  destruct (changes f) as [|c [|c' cs]] eqn:Hc; simpl; try done.
  intros _. by exists f, c.
Qed.

(** The spec's reading of a single-line bug: one line added, none removed. *)
Definition one_line_insertion (c : Change) : Prop :=
  length (added_lines c) = 1%nat /\ removed_lines c = [].

Definition single_line_bugs_insert_only (d : Defects4J) : Prop :=
  forall id bug, (id, bug) ∈ single_line_bugs d ->
    exists f c, buggy_files bug = [f] /\ changes f = [c] /\ one_line_insertion c.

(** C8 (as amended). After construction every single-line bug is a single-hunk
    bug and every single-hunk bug is a bug of [all_bugs]; a single-hunk bug has
    exactly one buggy file with exactly one change; and the one change of a
    single-line bug adds exactly one line (how many it removes is not
    constrained). *)
Theorem init_bug_sets ext home checkout_root java8 w d w' :
  __init__ ext home checkout_root java8 w = (Ok d, w') ->
  (forall id bug, (id, bug) ∈ single_line_bugs d ->
     (id, bug) ∈ single_hunk_bugs d /\ (id, bug) ∈ all_bugs d) /\
  (forall id bug, (id, bug) ∈ single_hunk_bugs d ->
     (id, bug) ∈ all_bugs d /\
     exists f c, buggy_files bug = [f] /\ changes f = [c]) /\
  (forall id bug, (id, bug) ∈ single_line_bugs d ->
     exists f c a, buggy_files bug = [f] /\ changes f = [c] /\ added_lines c = [a]).
Proof.
  unfold __init__.
  intros (e1 & w1 & _ & H)%bind_Ok. apply bind_Ok in H as (? & ? & _ & H).
  apply bind_Ok in H as (? & ? & _ & H). apply bind_Ok in H as (? & ? & _ & H).
  apply bind_Ok in H as (? & ? & _ & H). apply bind_Ok in H as (? & ? & _ & H).
  apply bind_Ok in H as (? & ? & _ & H). apply bind_Ok in H as (? & ? & _ & H).
  apply bind_Ok in H as (meta & ? & _ & H).
  apply bind_Ok in H as (all & ? & _ & H).
  apply bind_Ok in H as (single_line & w2 & Hsl & H).
  apply lift_Ok in Hsl as [Hsl ->]. apply ret_Ok in H as [-> ->]. simpl.
  pose proof (filterM_Ok _ _ _ Hsl) as Hin.
  assert (Hhunk : forall id bug,
    (id, bug) ∈ filter (fun '(_, bug) => is_single_hunk bug = true) all ->
    (id, bug) ∈ all /\ exists f c, buggy_files bug = [f] /\ changes f = [c]).
  { intros id bug [Hsh Hall]%list_elem_of_filter. split; [done|].
    by apply is_single_hunk_true. }
  split; [|split].
  - intros id bug Hx. destruct (Hin _ Hx) as [Hsh _]. split; [done|].
    by apply Hhunk.
  - exact Hhunk.
  - intros id bug Hx. destruct (Hin _ Hx) as [Hsh Hline].
    destruct (Hhunk _ _ Hsh) as (_ & f & c & Hf & Hc).
    unfold is_single_line in Hline. rewrite Hf, Hc in Hline.
    injection Hline as Hlen. apply Nat.eqb_eq in Hlen.
    destruct (added_lines c) as [|a [|a' l]] eqn:Ha; try done.
    by exists f, c, a.
Qed.

(** A benchmark with one project and one bug, Lang-1, whose stored patch is a
    one-line replacement: after a context line, one removed line and one
    added line. *)
Definition replacement_patch : PatchedFile :=
  {| source_file := "a/src/Foo.java"; is_modified_file := true;
     hunks := [[ {| source_line_no := Some 9%Z; target_line_no := Some 9%Z;
                    line_type := " "; value := "int x;" |};
                 {| source_line_no := Some 10%Z; target_line_no := None;
                    line_type := "-"; value := "return a;" |};
                 {| source_line_no := None; target_line_no := Some 10%Z;
                    line_type := "+"; value := "return b;" |} ]] |}.

Definition lang_only_external : External :=
  {| subprocess_run := fun _ f => (f, Some {| returncode := 0; stdout := ""; stderr := "" |});
     java_parse := fun _ => Parsed;
     perf_counter := fun t => Z.of_nat (length t);
     dir_exists := fun _ => true;
     absolute := fun p => p;
     active_bugs := fun _ =>
       [("Lang", [[("bug.id", "1"); ("revision.id.buggy", "b1");
                   ("revision.id.fixed", "f1"); ("report.url", "u1")]])];
     patch_set := fun _ => [replacement_patch];
     fullmatch := fun _ _ => true |}.

Definition lang_1_replacement : Bug :=
  {| buggy_files :=
       [{| path := "src/Foo.java";
           changes := [{| start := 10%Z; removed_lines := ["return b;"];
                          added_lines := ["return a;"] |}] |}];
     proj_path := "/co/Lang-1" |}.

Lemma lang_only_init :
  exists d, __init__ lang_only_external "/d4j" "/co" "/jdk8" empty_world
            = (Ok d, empty_world) /\
            single_line_bugs d = [("Lang-1", lang_1_replacement)].
Proof. eexists. split; vm_compute; reflexivity. Qed.

Lemma init_bug_sets_witness :
  exists d, __init__ lang_only_external "/d4j" "/co" "/jdk8" empty_world
            = (Ok d, empty_world) /\
    forall id bug, (id, bug) ∈ single_line_bugs d ->
      exists f c a, buggy_files bug = [f] /\ changes f = [c] /\ added_lines c = [a].
Proof.
  exists (match (__init__ lang_only_external "/d4j" "/co" "/jdk8" empty_world).1 with
          | Ok d => d
          | Raise _ => one_bug_d4j
          end).
  assert (Hrun : __init__ lang_only_external "/d4j" "/co" "/jdk8" empty_world
    = (Ok (match (__init__ lang_only_external "/d4j" "/co" "/jdk8" empty_world).1 with
           | Ok d => d
           | Raise _ => one_bug_d4j
           end), empty_world)) by (vm_compute; reflexivity).
  split; [exact Hrun|].
  exact (proj2 (proj2 (init_bug_sets _ _ _ _ _ _ _ Hrun))).
Defined.

(** The single-line bug of this benchmark removes a line as well: the set is
    not restricted to insertions. *)
Lemma single_line_bug_removes_a_line :
  exists d, __init__ lang_only_external "/d4j" "/co" "/jdk8" empty_world
            = (Ok d, empty_world) /\
            ~ single_line_bugs_insert_only d.
Proof.
  destruct lang_only_init as (d & Hd & Hsl). exists d. split; [done|].
  intros Hclaim.
  destruct (Hclaim "Lang-1" lang_1_replacement) as (f & c & Hf & Hc & _ & Hrm).
  { rewrite Hsl. apply list_elem_of_here. }
  injection Hf as <-. injection Hc as <-. discriminate Hrm.
Qed.

End init_facts.

(** ** repair.py: hunk removal *)

Section remove_buggy_hunk_facts.
Import d4j text repair.

Lemma count_nl_app s t : count_nl (s ++ t) = (count_nl s + count_nl t)%nat.
Proof. unfold count_nl. by rewrite filter_app, length_app. Qed.

Lemma count_nl_cons c s :
  count_nl (c :: s) = ((if decide (c = nl) then 1 else 0) + count_nl s)%nat.
Proof. unfold count_nl. rewrite filter_cons. by destruct (decide (c = nl)). Qed.

Lemma ends_with_nl_snoc s : ends_with_nl (s ++ [nl]) = true.
Proof. unfold ends_with_nl. rewrite last_snoc. by rewrite bool_decide_eq_true. Qed.

Lemma ends_with_nl_inv s : ends_with_nl s = true -> exists p, s = p ++ [nl].
Proof.
  unfold ends_with_nl. destruct (last s) as [c|] eqn:Hl; [|done].
  intros ->%bool_decide_eq_true. apply last_Some in Hl as [p ->]. by exists p.
Qed.

(** The offset of a line: the text before it has that many newlines and, past
    the first line, ends with one. *)
Lemma line_offset_spec s : forall n off,
  line_offset s n = Some off ->
  (off <= length s)%nat /\ count_nl (take off s) = n /\
  ((0 < n)%nat -> ends_with_nl (take off s) = true).
Proof.
  induction s as [|c s IH]; intros n off.
  - destruct n; simpl; [|done]. intros [= <-]. repeat split; [done|lia].
  - destruct n as [|n]; simpl.
    { intros [= <-]. repeat split; [lia|lia]. }
    destruct (line_offset s (if decide (c = nl) then n else S n)) as [off'|] eqn:E;
      [|done].
    simpl. intros [= <-]. pose proof E as E0.
    apply IH in E as (Hlen & Hcount & Hend).
    rewrite firstn_cons, count_nl_cons. split; [simpl; lia|]. split.
    + destruct (decide (c = nl)); lia.
    + intros _. destruct (decide (c = nl)) as [->|Hne].
      * destruct n as [|n].
        -- assert (off' = O) as -> by (destruct s; simpl in E0; congruence).
           by rewrite take_0.
        -- destruct (ends_with_nl_inv _ (Hend ltac:(lia))) as [p Hp].
           rewrite Hp. change (nl :: p ++ [nl]) with ((nl :: p) ++ [nl]).
           apply ends_with_nl_snoc.
      * destruct (ends_with_nl_inv _ (Hend ltac:(lia))) as [p Hp].
        rewrite Hp. change (c :: p ++ [nl]) with ((c :: p) ++ [nl]).
        apply ends_with_nl_snoc.
Qed.

Lemma line_offset_exists s : forall n,
  (n <= count_nl s)%nat -> is_Some (line_offset s n).
Proof.
  induction s as [|c s IH]; intros n Hn.
  - change (count_nl []) with O in Hn. assert (n = O) as -> by lia. by eexists.
  - destruct n as [|n]; [by eexists|]. simpl.
    rewrite count_nl_cons in Hn.
    destruct (decide (c = nl)).
    + destruct (IH n) as [off ->]; [lia|]. by eexists.
    + destruct (IH (S n)) as [off ->]; [lia|]. by eexists.
Qed.

Lemma count_nl_take_mono s i j :
  (i <= j)%nat -> (count_nl (take i s) <= count_nl (take j s))%nat.
Proof.
  intros Hij. replace j with (i + (j - i))%nat by lia.
  rewrite <- take_take_drop, count_nl_app. lia.
Qed.

Lemma line_offset_lt s a b oa ob :
  line_offset s a = Some oa -> line_offset s b = Some ob ->
  (a < b)%nat -> (oa < ob)%nat.
Proof.
  intros (_ & Ha & _)%line_offset_spec (_ & Hb & _)%line_offset_spec Hab.
  destruct (decide (oa < ob)%nat); [done|].
  pose proof (count_nl_take_mono s ob oa ltac:(lia)). lia.
Qed.

Lemma form_index_col0 tf (n : nat) off :
  line_offset (content tf) n = Some off ->
  form_index tf (Z.of_nat n) 0 = Ok off.
Proof.
  intros H. unfold form_index.
  rewrite !bool_decide_eq_true_2 by lia. simpl.
  rewrite Nat2Z.id, H. simpl. by rewrite Nat.add_0_r.
Qed.

Lemma refine_index_col0 tf (n : nat) off :
  line_offset (content tf) n = Some off ->
  refine_index tf (Z.of_nat n) 0 = {| line := Z.of_nat n; character := 0 |}.
Proof.
  intros H. unfold refine_index.
  rewrite Z.max_r by lia. rewrite Nat2Z.id, H. f_equal. lia.
Qed.

(** C6. For a change whose removed lines are not empty and lie strictly inside
    the file (some line before them, and the line after them exists),
    [remove_buggy_hunk] returns: as prefix the text of the lines before the
    removed ones, which ends in a newline; as suffix a newline followed by the
    text after the removed lines. In the file it leaves, the characters at the
    cursor and just before it are newlines. *)
Theorem remove_buggy_hunk_inside (tf : TextFile) (c : Change) :
  (2 <= start c)%Z ->
  removed_lines c <> [] ->
  (start c - 1 + Z.of_nat (length (removed_lines c))
     < Z.of_nat (n_lines (content tf)))%Z ->
  exists prefix region rest tf',
    remove_buggy_hunk tf c = Ok (prefix, nl :: rest, tf') /\
    content tf = prefix ++ region ++ rest /\
    count_nl prefix = Z.to_nat (start c - 1) /\
    ends_with_nl prefix = true /\
    count_nl region = length (removed_lines c) /\
    ends_with_nl region = true /\
    content tf' = prefix ++ nl :: rest /\
    cursor tf' = Z.of_nat (length prefix) /\
    content tf' !! Z.to_nat (cursor tf') = Some nl /\
    content tf' !! Z.to_nat (cursor tf' - 1) = Some nl.
Proof.
  intros Hstart Hrem Hend.
  set (k := length (removed_lines c)) in *.
  assert (Hk : (0 < k)%nat).
  { subst k. destruct (removed_lines c); [done|simpl; lia]. }
  set (a := Z.to_nat (start c - 1)).
  assert (Ha : (start c - 1)%Z = Z.of_nat a) by (subst a; lia).
  assert (Hb : (start c - 1 + Z.of_nat k)%Z = Z.of_nat (a + k)) by lia.
  unfold n_lines in Hend.
  destruct (line_offset_exists (content tf) a) as [s Hs]; [lia|].
  destruct (line_offset_exists (content tf) (a + k)) as [e He]; [lia|].
  pose proof (line_offset_lt _ _ _ _ _ Hs He ltac:(lia)) as Hse.
  destruct (line_offset_spec _ _ _ Hs) as (Hslen & Hscount & Hsend).
  destruct (line_offset_spec _ _ _ He) as (Helen & Hecount & Heend).
  specialize (Hsend ltac:(lia)). specialize (Heend ltac:(lia)).
  set (prefix := take s (content tf)).
  set (region := take (e - s) (drop s (content tf))).
  set (rest := drop e (content tf)).
  fold prefix in Hsend, Hscount.
  assert (Hsplit : content tf = prefix ++ region ++ rest).
  { subst prefix region rest.
    rewrite <- (take_drop s (content tf)) at 1. f_equal.
    rewrite <- (take_drop (e - s) (drop s (content tf))) at 1. f_equal.
    rewrite drop_drop. f_equal. lia. }
  assert (Htake_e : take e (content tf) = prefix ++ region).
  { subst prefix region. replace e with (s + (e - s))%nat at 1 by lia.
    by rewrite <- take_take_drop. }
  destruct (ends_with_nl_inv _ Hsend) as [p Hp].
  assert (Hplen : length prefix = s).
  { subst prefix. rewrite length_take. lia. }
  assert (Hps : s = S (length p)).
  { rewrite <- Hplen, Hp, length_app. simpl. lia. }
  exists prefix, region, rest,
    {| path := path tf; content := prefix ++ [nl] ++ rest; cursor := Z.of_nat s |}.
  split; [|repeat split].
  - unfold remove_buggy_hunk. fold k. rewrite Hb, Ha.
    rewrite (refine_index_col0 _ _ _ Hs), (refine_index_col0 _ _ _ He).
    rewrite (form_index_col0 _ _ _ Hs), (form_index_col0 _ _ _ He).
    assert (Hedit : apply_edit tf
        {| edit_text := [nl];
           range_start := {| line := Z.of_nat a; character := 0 |};
           range_end := {| line := Z.of_nat (a + k); character := 0 |} |}
      = Ok {| path := path tf; content := prefix ++ [nl] ++ rest;
              cursor := cursor tf |}).
    { unfold apply_edit. cbn [range_start range_end line character edit_text].
      by rewrite (form_index_col0 _ _ _ Hs), (form_index_col0 _ _ _ He). }
    cbn [mbind result_bind rbind text.change]. rewrite Hedit.
    cbn [mbind result_bind rbind move_cursor content cursor path].
    unfold slice. rewrite Nat.sub_0_r, drop_0. fold prefix rest.
    rewrite Hsend. cbn [assert mbind result_bind rbind].
    assert (Hbefore : py_index (prefix ++ [nl] ++ rest) (Z.of_nat s - 1) = Ok nl).
    { unfold py_index.
      rewrite (bool_decide_eq_false_2 (Z.of_nat s - 1 < 0)%Z) by lia.
      rewrite bool_decide_eq_true_2 by lia. rewrite Hp.
      replace (Z.to_nat (Z.of_nat s - 1)) with (length p) by lia.
      rewrite <- app_assoc. by rewrite lookup_app_r, Nat.sub_diag by lia. }
    assert (Hat : py_index (prefix ++ [nl] ++ rest) (Z.of_nat s) = Ok nl).
    { unfold py_index.
      rewrite (bool_decide_eq_false_2 (Z.of_nat s < 0)%Z) by lia.
      rewrite bool_decide_eq_true_2 by lia. rewrite Nat2Z.id, <- Hplen.
      by rewrite lookup_app_r, Nat.sub_diag by lia. }
    rewrite Hbefore. cbn [mbind result_bind rbind].
    rewrite (bool_decide_eq_true_2 (nl = nl)) by done.
    cbn [assert mbind result_bind rbind]. rewrite Hat.
    cbn [assert mbind result_bind rbind].
    do 3 f_equal. subst rest.
    rewrite take_ge; [done|]. rewrite length_drop. lia.
  - exact Hsplit.
  - exact Hscount.
  - exact Hsend.
  - rewrite Htake_e, count_nl_app in Hecount. fold prefix in Hscount. lia.
  - destruct (ends_with_nl_inv _ Heend) as [q Hq].
    rewrite Htake_e in Hq.
    assert (region <> []) as Hne.
    { intros Hnil. assert (length region = 0%nat) by by rewrite Hnil.
      subst region. rewrite length_take, length_drop in H. lia. }
    destruct (region) as [|r0 rs] eqn:Hr using rev_ind; [done|].
    rewrite app_assoc in Hq. apply app_inj_tail in Hq as [_ ->].
    apply ends_with_nl_snoc.
  - simpl. rewrite Hplen. done.
  - simpl. rewrite Nat2Z.id, <- Hplen. by rewrite lookup_app_r, Nat.sub_diag by lia.
  - simpl. rewrite Hp.
    replace (Z.to_nat (Z.of_nat s - 1)) with (length p) by lia.
    rewrite <- app_assoc. by rewrite lookup_app_r, Nat.sub_diag by lia.
Qed.

End remove_buggy_hunk_facts.

Section remove_buggy_hunk_example.
Import d4j text repair.

Definition lines_text (ls : list string) : text :=
  concat ((fun s => list_ascii_of_string s ++ [nl]) <$> ls).

Definition four_lines : TextFile :=
  {| path := "src/Foo.java"; content := lines_text ["a"; "bb"; "ccc"; "d"];
     cursor := 0 |}.

Definition drop_two_lines : Change :=
  {| start := 2; removed_lines := ["bb"; "ccc"]; added_lines := ["x"] |}.

Example remove_buggy_hunk_four_lines :
  remove_buggy_hunk four_lines drop_two_lines =
  Ok (lines_text ["a"], nl :: lines_text ["d"],
      {| path := "src/Foo.java"; content := lines_text ["a"; ""; "d"];
         cursor := 2 |}).
Proof. vm_compute. reflexivity. Qed.

Lemma remove_buggy_hunk_inside_witness :
  exists prefix region rest tf',
    remove_buggy_hunk four_lines drop_two_lines = Ok (prefix, nl :: rest, tf') /\
    content four_lines = prefix ++ region ++ rest /\
    count_nl prefix = Z.to_nat (start drop_two_lines - 1) /\
    ends_with_nl prefix = true /\
    count_nl region = length (removed_lines drop_two_lines) /\
    ends_with_nl region = true /\
    content tf' = prefix ++ nl :: rest /\
    cursor tf' = Z.of_nat (length prefix) /\
    content tf' !! Z.to_nat (cursor tf') = Some nl /\
    content tf' !! Z.to_nat (cursor tf' - 1) = Some nl.
Proof.
  apply (remove_buggy_hunk_inside four_lines drop_two_lines).
  - vm_compute. discriminate.
  - discriminate.
  - vm_compute. reflexivity.
Defined.

End remove_buggy_hunk_example.

(** ** repair.py: the repair sweep *)

Section repair_facts.
Import d4j repair.
Context (ext : External) (self : Repairer) (config : RepairConfig).







End repair_facts.

Section repair_example.
Import d4j repair.

(** Only ids without a line break match ".*", and nothing else matches. *)
Definition dot_star_external : External :=
  {| subprocess_run := fun _ f => (f, Some {| returncode := 0; stdout := ""; stderr := "" |});
     java_parse := fun _ => Parsed;
     perf_counter := fun t => Z.of_nat (length t);
     dir_exists := fun _ => true;
     absolute := fun p => p;
     active_bugs := fun _ => [];
     patch_set := fun _ => [];
     fullmatch := fun pattern s =>
       bool_decide (pattern = ".*") && negb (str_contains (String nl "") s) |}.

Definition some_bug (p : string) : Bug := {| buggy_files := []; proj_path := p |}.

Definition three_bug_repairer : Repairer :=
  {| repair.d4j :=
       {| d4j_home := "/d4j"; d4j_checkout_root := "/co"; java8_home := "/jdk8";
          metadata := [];
          all_bugs := [("Lang-24", some_bug "/co/Lang-24");
                       ("Lang-25", some_bug "/co/Lang-25");
                       ("Chart-11", some_bug "/co/Chart-11")];
          single_hunk_bugs := [("Lang-25", some_bug "/co/Lang-25");
                               ("Chart-11", some_bug "/co/Chart-11")];
          single_line_bugs := [] |};
     dump_repair_config := fun _ f => (Ok tt, f);
     repair_bug_no_cleanup := fun _ _ _ _ f => (Ok tt, f);
     clean_up := fun f => (Ok tt, f) |}.

Definition dot_star_config : RepairConfig :=
  {| bug_pattern := ".*"; batch_size := 1; n_samples := 1 |}.

Example repair_dot_star_all_bugs :
  trace (repair.repair dot_star_external three_bug_repairer dot_star_config false
           empty_world).2
  = [ERepairBug "Lang-24"; ERepairBug "Chart-11"].
Proof. vm_compute. reflexivity. Qed.


End repair_example.

(** ** runner.py: validate_patch *)

Section validate_patch_facts.
Import text results runner.
Context (ext : External).
Context (compute_patch : AvgFilePatch -> option TextFile).
Context (RULE : string).

(** A syntax or lexer error of the parser: what [validate_patch] catches by
    name. *)
Definition recognized (o : ParseOutcome) : bool :=
  match o with
  | JavaSyntaxError _ | LexerError _ => true
  | Parsed | OtherException _ _ => false
  end.

Definition error_text (o : ParseOutcome) : string :=
  match o with
  | JavaSyntaxError e | LexerError e | OtherException _ e => e
  | Parsed => ""
  end.

Definition is_run (e : Event) : bool :=
  match e with ERun _ => true | _ => false end.

(** The [(path, content)] of the files written, in order. *)
Definition writes_of (evs : list Event) : list (string * text) :=
  omap (fun e => match e with EWrite p c => Some (p, c) | _ => None end) evs.

Definition goes_on (p : TextFile) : Prop :=
  recognized (java_parse ext (content p)) = false.

Lemma writes_of_app evs1 evs2 :
  writes_of (evs1 ++ evs2) = writes_of evs1 ++ writes_of evs2.
Proof. unfold writes_of. apply omap_app. Qed.

(** One turn of the loop on a file that the parser does not reject by a
    recognized error: the file is written and the loop goes on. *)
Lemma parse_and_write_goes_on start_time f rest w :
  goes_on f ->
  exists w1 evs,
    parse_and_write ext start_time (f :: rest) w
      = parse_and_write ext start_time rest w1 /\
    trace w1 = trace w ++ evs /\
    Forall (fun e => is_run e = false) evs /\
    writes_of evs = [(path f, content f)].
Proof.
  unfold goes_on. intros Hgo. cbn [parse_and_write].
  destruct (java_parse ext (content f)) as [|e|e|ty e] eqn:Hp; try done.
  - eexists _, [EParse (content f); EWrite (path f) (content f)].
    split; [reflexivity|]. simpl. rewrite <- app_assoc. split; [done|].
    split; [by repeat constructor|done].
  - eexists _, [EParse (content f); EAppend _ _; EWrite (path f) (content f)].
    split; [reflexivity|]. simpl. rewrite <- !app_assoc. split; [done|].
    split; [by repeat constructor|done].
Qed.

Lemma parse_and_write_stops start_time f rest w :
  recognized (java_parse ext (content f)) = true ->
  parse_and_write ext start_time (f :: rest) w
  = (Ok (Some {| outcome := ParseError;
                 time_cost := (perf_counter ext (trace w ++ [EParse (content f)])
                               - start_time)%Z;
                 pv_stdout := "";
                 pv_stderr := error_text (java_parse ext (content f)) |}),
     {| fs := fs w; trace := trace w ++ [EParse (content f)] |}).
Proof.
  intros Hrec. cbn [parse_and_write].
  destruct (java_parse ext (content f)) as [|e|e|ty e] eqn:Hp; try done.
Qed.

Lemma parse_and_write_all start_time files : forall w,
  Forall goes_on files ->
  exists w' evs,
    parse_and_write ext start_time files w = (Ok None, w') /\
    trace w' = trace w ++ evs /\
    Forall (fun e => is_run e = false) evs /\
    writes_of evs = (fun p => (path p, content p)) <$> files.
Proof.
  induction files as [|f rest IH]; intros w Hall.
  - exists w, []. rewrite app_nil_r. by repeat split.
  - apply Forall_cons in Hall as [Hf Hrest].
    destruct (parse_and_write_goes_on start_time f rest w Hf)
      as (w1 & evs1 & Heq & Htr1 & Hrun1 & Hw1).
    destruct (IH w1 Hrest) as (w' & evs & Hres & Htr & Hrun & Hw).
    exists w', (evs1 ++ evs). rewrite Heq. split; [done|]. split.
    { by rewrite Htr, Htr1, <- app_assoc. }
    split; [by apply Forall_app|]. rewrite writes_of_app, Hw1, Hw. done.
Qed.

Lemma parse_and_write_first_error start_time pre : forall f post w,
  Forall goes_on pre ->
  recognized (java_parse ext (content f)) = true ->
  exists w' c evs,
    parse_and_write ext start_time (pre ++ f :: post) w
    = (Ok (Some {| outcome := ParseError; time_cost := c; pv_stdout := "";
                   pv_stderr := error_text (java_parse ext (content f)) |}), w') /\
    trace w' = trace w ++ evs /\
    Forall (fun e => is_run e = false) evs /\
    writes_of evs = (fun p => (path p, content p)) <$> pre /\
    (pre = [] -> fs w' = fs w).
Proof.
  induction pre as [|p pre IH]; intros f post w Hall Hrec.
  - simpl app. rewrite parse_and_write_stops by done.
    eexists _, _, [EParse (content f)]. split; [reflexivity|].
    split; [done|]. split; [by repeat constructor|]. by split.
  - apply Forall_cons in Hall as [Hp Hpre]. simpl app.
    destruct (parse_and_write_goes_on start_time p (pre ++ f :: post) w Hp)
      as (w1 & evs1 & Heq & Htr1 & Hrun1 & Hw1).
    destruct (IH f post w1 Hpre Hrec) as (w' & c & evs & Hres & Htr & Hrun & Hw & _).
    exists w', c, (evs1 ++ evs). rewrite Heq. split; [done|]. split.
    { by rewrite Htr, Htr1, <- app_assoc. }
    split; [by apply Forall_app|]. split; [|done].
    rewrite writes_of_app, Hw1, Hw. done.
Qed.

(** The files split at the first one with a recognized error, if any. *)
Lemma first_error_split (files : list TextFile) :
  Forall goes_on files \/
  exists pre f post,
    files = pre ++ f :: post /\ Forall goes_on pre /\
    recognized (java_parse ext (content f)) = true.
Proof.
  induction files as [|p files IH]; [by left|].
  destruct (recognized (java_parse ext (content p))) eqn:Hp.
  - right. exists [], p, files. by repeat split.
  - destruct IH as [Hall|(pre & f & post & -> & Hpre & Hf)].
    + left. by constructor.
    + right. exists (p :: pre), f, post. repeat split; [|done]. by constructor.
Qed.

Lemma compile_and_test_outcome start_time d4j_ bug_id w pv w' :
  compile_and_test ext RULE start_time d4j_ bug_id w = (Ok pv, w') ->
  outcome pv <> ParseError.
Proof.
  unfold compile_and_test. unfold mbind at 1, M_bind at 1.
  destruct (d4j.compile ext d4j_ bug_id w) as [[[[ok out] err]|e] w1]; [|done].
  destruct ok; simpl.
  - unfold catch_timeout. unfold mbind at 1, M_bind at 1.
    destruct (d4j.test ext d4j_ bug_id 180 w1) as [[[[vok vout] verr]|e] w2].
    + intros [= <- <-]. simpl. by destruct vok.
    + destruct e; try done. intros [= <- <-]. done.
  - intros [= <- <-]. done.
Qed.

(** C1. After the preparation (materialized files, checkout of the fixed
    revision): (a) if some file raises a syntax or lexer error, and no earlier
    file does, the result is [ParseError] with empty stdout and the error's
    text as stderr, and no command (so neither compile nor test) is run; (b)
    if no file raises such an error and [compile] returns a failure, the
    result is [CompilationError] with the compile output; (c) if [compile]
    returns a success and [test] raises the timeout, the result is
    [TestingError] with, as stdout and as stderr, the compile output, the
    separator and "Timeout". *)
Theorem validate_patch_outcomes d4j_ bug_id patch w start_time files w1 :
  prepare ext compute_patch d4j_ bug_id patch w = (Ok (start_time, files), w1) ->
  (forall pre f post,
     files = pre ++ f :: post -> Forall goes_on pre ->
     recognized (java_parse ext (content f)) = true ->
     exists w2 c evs,
       validate_patch ext compute_patch RULE d4j_ bug_id patch w
       = (Ok {| outcome := ParseError; time_cost := c; pv_stdout := "";
                pv_stderr := error_text (java_parse ext (content f)) |}, w2) /\
       trace w2 = trace w1 ++ evs /\ Forall (fun e => is_run e = false) evs) /\
  (forall out err w3,
     Forall goes_on files ->
     d4j.compile ext d4j_ bug_id (parse_and_write ext start_time files w1).2
       = (Ok (false, out, err), w3) ->
     exists c,
       validate_patch ext compute_patch RULE d4j_ bug_id patch w
       = (Ok {| outcome := CompilationError; time_cost := c;
                pv_stdout := out; pv_stderr := err |}, w3)) /\
  (forall out err w3 w4,
     Forall goes_on files ->
     d4j.compile ext d4j_ bug_id (parse_and_write ext start_time files w1).2
       = (Ok (true, out, err), w3) ->
     d4j.test ext d4j_ bug_id 180 w3 = (Raise TimeoutExpired, w4) ->
     exists c,
       validate_patch ext compute_patch RULE d4j_ bug_id patch w
       = (Ok {| outcome := TestingError; time_cost := c;
                pv_stdout := out +:+ RULE +:+ "Timeout";
                pv_stderr := err +:+ RULE +:+ "Timeout" |}, w4)).
Proof.
  intros Hprep.
  assert (Hvp : validate_patch ext compute_patch RULE d4j_ bug_id patch w =
    match parse_and_write ext start_time files w1 with
    | (Ok (Some parse_error), w2) => (Ok parse_error, w2)
    | (Ok None, w2) => compile_and_test ext RULE start_time d4j_ bug_id w2
    | (Raise e, w2) => (Raise e, w2)
    end).
  { unfold validate_patch. unfold mbind at 1, M_bind at 1. rewrite Hprep.
    unfold mbind at 1, M_bind at 1.
    by destruct (parse_and_write ext start_time files w1) as [[[?|]|?] ?]. }
  rewrite Hvp. split; [|split].
  - intros pre f post -> Hpre Hf.
    destruct (parse_and_write_first_error start_time pre f post w1 Hpre Hf)
      as (w2 & c & evs & -> & Htr & Hrun & _).
    by exists w2, c, evs.
  - intros out err w3 Hall.
    destruct (parse_and_write_all start_time files w1 Hall)
      as (w2 & evs & -> & _). simpl.
    intros Hcomp. unfold compile_and_test. unfold mbind at 1, M_bind at 1.
    rewrite Hcomp. simpl. by eexists.
  - intros out err w3 w4 Hall.
    destruct (parse_and_write_all start_time files w1 Hall)
      as (w2 & evs & -> & _). simpl.
    intros Hcomp Htest. unfold compile_and_test. unfold mbind at 1, M_bind at 1.
    rewrite Hcomp. simpl. unfold catch_timeout. unfold mbind at 1, M_bind at 1.
    rewrite Htest. by eexists.
Qed.

(** C10 (as amended). When [validate_patch] returns [ParseError], the files
    written since the checkout are exactly those before the first file with a
    recognized error, in order; when that file is the first one, the files
    are as the checkout left them. *)
Theorem parse_error_written_files d4j_ bug_id patch w start_time files w1 pv w2 :
  prepare ext compute_patch d4j_ bug_id patch w = (Ok (start_time, files), w1) ->
  validate_patch ext compute_patch RULE d4j_ bug_id patch w = (Ok pv, w2) ->
  outcome pv = ParseError ->
  exists pre f post evs,
    files = pre ++ f :: post /\ Forall goes_on pre /\
    recognized (java_parse ext (content f)) = true /\
    trace w2 = trace w1 ++ evs /\
    writes_of evs = (fun p => (path p, content p)) <$> pre /\
    (pre = [] -> fs w2 = fs w1).
Proof.
  intros Hprep Hvp Hout.
  unfold validate_patch in Hvp. unfold mbind at 1, M_bind at 1 in Hvp.
  rewrite Hprep in Hvp. unfold mbind at 1, M_bind at 1 in Hvp.
  destruct (first_error_split files) as [Hall|(pre & f & post & -> & Hpre & Hf)].
  - destruct (parse_and_write_all start_time files w1 Hall)
      as (w' & evs & Hres & _).
    rewrite Hres in Hvp. by apply compile_and_test_outcome in Hvp.
  - destruct (parse_and_write_first_error start_time pre f post w1 Hpre Hf)
      as (w' & c & evs & Hres & Htr & _ & Hw & Hfs).
    rewrite Hres in Hvp. injection Hvp as <- <-.
    by exists pre, f, post, evs.
Qed.

End validate_patch_facts.

Section validate_patch_examples.
Import text results runner.

Definition foo_path : string := "/co/Lang-1/src/Foo.java".

Definition foo_file : TextFile := {| path := foo_path; content := []; cursor := 0 |}.

(** A file patch of one hunk with the given text. *)
Definition candidate (s : string) : AvgFilePatch :=
  {| hunks := [{| result := {| hunk := Some s; is_pruned_halfway := false;
                               is_unfinished := false |} |}];
     bug := foo_file; buggy_hunk_indices := [(O, O)] |}.

(** A materialization: the hunk texts in place of the whole file. *)
Definition materialize (fp : AvgFilePatch) : option TextFile :=
  if any_hunk_missing [fp] then None
  else Some {| path := path (bug fp);
               content := list_ascii_of_string (concat_hunk_str [fp]);
               cursor := 0 |}.

(** The parser rejects the text "bad"; the build fails on "nocompile"; the
    tests never end. *)
Definition picky_external : External :=
  {| subprocess_run := fun c f =>
       match argv c with
       | [_; "compile"] =>
           if bool_decide (f !! foo_path = Some (list_ascii_of_string "nocompile"))
           then (f, Some {| returncode := 1; stdout := "javac";
                            stderr := "BUILD FAILED" |})
           else (f, Some {| returncode := 0; stdout := "javac"; stderr := "" |})
       | _ :: "test" :: _ => (f, None)
       | _ => (f, Some {| returncode := 0; stdout := ""; stderr := "" |})
       end;
     java_parse := fun t =>
       if bool_decide (t = list_ascii_of_string "bad")
       then JavaSyntaxError "Expected ;" else Parsed;
     perf_counter := fun t => Z.of_nat (length t);
     dir_exists := fun _ => true;
     absolute := fun p => p;
     active_bugs := fun _ => [];
     patch_set := fun _ => [];
     fullmatch := fun _ _ => true |}.

Definition single (s : string) : AvgPatch :=
  {| file_patches := [candidate s]; is_duplicate := false |}.

Definition text_file (s : string) : TextFile :=
  {| path := foo_path; content := list_ascii_of_string s; cursor := 0 |}.

Definition run_validate (patch : AvgPatch) : res PatchValidationResult * World :=
  validate_patch picky_external materialize "----" one_bug_d4j "Lang-1" patch
    empty_world.

Definition prepared (patch : AvgPatch) : World :=
  (prepare picky_external materialize one_bug_d4j "Lang-1" patch empty_world).2.

Lemma prepare_single s :
  prepare picky_external materialize one_bug_d4j "Lang-1" (single s) empty_world
  = (Ok (0%Z, [text_file s]), prepared (single s)).
Proof. reflexivity. Qed.

Lemma validate_patch_outcomes_witness :
  (exists w c, run_validate (single "bad")
     = (Ok {| outcome := ParseError; time_cost := c; pv_stdout := "";
              pv_stderr := "Expected ;" |}, w)) /\
  (exists w c, run_validate (single "nocompile")
     = (Ok {| outcome := CompilationError; time_cost := c; pv_stdout := "javac";
              pv_stderr := "BUILD FAILED" |}, w)) /\
  (exists w c, run_validate (single "slow")
     = (Ok {| outcome := TestingError; time_cost := c;
              pv_stdout := "javac" +:+ "----" +:+ "Timeout";
              pv_stderr := "" +:+ "----" +:+ "Timeout" |}, w)).
Proof.
  split; [|split].
  - destruct (validate_patch_outcomes picky_external materialize "----"
                one_bug_d4j "Lang-1" _ _ _ _ _ (prepare_single "bad"))
      as (Hparse & _ & _).
    destruct (Hparse [] (text_file "bad") []) as (w2 & c & evs & Hrun & _).
    + reflexivity.
    + constructor.
    + vm_compute. reflexivity.
    + exists w2, c. exact Hrun.
  - destruct (validate_patch_outcomes picky_external materialize "----"
                one_bug_d4j "Lang-1" _ _ _ _ _ (prepare_single "nocompile"))
      as (_ & Hcompile & _).
    destruct (Hcompile "javac" "BUILD FAILED"
      (d4j.compile picky_external one_bug_d4j "Lang-1"
         (parse_and_write picky_external 0 [text_file "nocompile"]
            (prepared (single "nocompile"))).2).2) as (c & Hrun).
    + repeat constructor.
    + vm_compute. reflexivity.
    + eexists _, c. exact Hrun.
  - destruct (validate_patch_outcomes picky_external materialize "----"
                one_bug_d4j "Lang-1" _ _ _ _ _ (prepare_single "slow"))
      as (_ & _ & Htimeout).
    destruct (Htimeout "javac" ""
      (d4j.compile picky_external one_bug_d4j "Lang-1"
         (parse_and_write picky_external 0 [text_file "slow"]
            (prepared (single "slow"))).2).2
      (d4j.test picky_external one_bug_d4j "Lang-1" 180
         (d4j.compile picky_external one_bug_d4j "Lang-1"
            (parse_and_write picky_external 0 [text_file "slow"]
               (prepared (single "slow"))).2).2).2) as (c & Hrun).
    + repeat constructor.
    + vm_compute. reflexivity.
    + vm_compute. reflexivity.
    + eexists _, c. exact Hrun.
Defined.

(** Two file patches on the same file: the first parses, the second does
    not. *)
Definition good_then_bad : AvgPatch :=
  {| file_patches := [candidate "good"; candidate "bad"]; is_duplicate := false |}.

Lemma prepare_good_then_bad :
  prepare picky_external materialize one_bug_d4j "Lang-1" good_then_bad empty_world
  = (Ok (0%Z, [text_file "good"; text_file "bad"]), prepared good_then_bad).
Proof. reflexivity. Qed.

Lemma run_good_then_bad :
  exists c, run_validate good_then_bad
  = (Ok {| outcome := ParseError; time_cost := c; pv_stdout := "";
           pv_stderr := "Expected ;" |}, (run_validate good_then_bad).2).
Proof. eexists. vm_compute. reflexivity. Qed.

Lemma parse_error_written_files_witness :
  exists pre f post evs,
    [text_file "good"; text_file "bad"] = pre ++ f :: post /\
    Forall (goes_on picky_external) pre /\
    recognized (java_parse picky_external (content f)) = true /\
    trace (run_validate good_then_bad).2 = trace (prepared good_then_bad) ++ evs /\
    writes_of evs = (fun p => (path p, content p)) <$> pre /\
    (pre = [] -> fs (run_validate good_then_bad).2 = fs (prepared good_then_bad)).
Proof.
  destruct run_good_then_bad as [c Hrun].
  exact (parse_error_written_files picky_external materialize "----" one_bug_d4j
           "Lang-1" good_then_bad empty_world _ _ _ _ _
           prepare_good_then_bad Hrun eq_refl).
Defined.

(** C10 as the spec states it: a [ParseError] result means that nothing was
    written since the checkout. *)
Definition parse_error_writes_nothing (ext : External)
    (compute_patch : AvgFilePatch -> option TextFile) (RULE : string)
    (d4j_ : d4j.Defects4J) (bug_id : string) (patch : AvgPatch) (w : World) : Prop :=
  forall start_time files w1 pv w2,
    prepare ext compute_patch d4j_ bug_id patch w = (Ok (start_time, files), w1) ->
    validate_patch ext compute_patch RULE d4j_ bug_id patch w = (Ok pv, w2) ->
    outcome pv = ParseError ->
    fs w2 = fs w1 /\ writes_of (drop (length (trace w1)) (trace w2)) = [].

(** It fails on the two file patches: the first file has been written when
    the second is rejected. *)
Lemma parse_error_after_a_write :
  ~ parse_error_writes_nothing picky_external materialize "----" one_bug_d4j
      "Lang-1" good_then_bad empty_world.
Proof.
  intros Hclaim. destruct run_good_then_bad as [c Hrun].
  destruct (Hclaim _ _ _ _ _ prepare_good_then_bad Hrun eq_refl) as [Hfs _].
  apply (f_equal (fun m => m !! foo_path)) in Hfs.
  vm_compute in Hfs. discriminate Hfs.
Qed.

End validate_patch_examples.

(** ** runner.py: iter_files *)

Section iter_files_facts.
Import text results runner.
Context (to_average_results : SynthesisResultBatch -> list AvgSynthesisResult).

Lemma mapM_total {A B} (f : A -> res B) (l : list A) :
  Forall (fun x => exists y, f x = Ok y) l -> exists ys, mapM f l = Ok ys.
Proof.
  induction 1 as [|x l [y Hy] _ [ys Hys]]; [by eexists|].
  simpl. rewrite Hy. simpl. rewrite Hys. by eexists.
Qed.

(** A tuple of [zip] has one component per list, and there is a list. *)
Lemma zip_star_length {A} (xss : list (list A)) : forall t,
  t ∈ zip_star xss -> length t = length xss /\ (0 < length xss)%nat.
Proof.
  induction xss as [|xs rest IH]; intros t.
  - by intros ?%elem_of_nil.
  - destruct rest as [|ys rest].
    + simpl. intros (x & -> & _)%list_elem_of_fmap. simpl. lia.
    + change (zip_star (xs :: ys :: rest))
        with (zip_with cons xs (zip_star (ys :: rest))).
      intros (x & t' & -> & _ & Ht')%elem_of_zip_with.
      destruct (IH _ Ht') as [Hlen _]. simpl in *. lia.
Qed.

(** Each component comes from the list at its position. *)
Lemma zip_star_components {A} (xss : list (list A)) : forall t,
  t ∈ zip_star xss -> Forall2 (fun x xs => x ∈ xs) t xss.
Proof.
  induction xss as [|xs rest IH]; intros t.
  - by intros ?%elem_of_nil.
  - destruct rest as [|ys rest].
    + simpl. intros (x & -> & Hx)%list_elem_of_fmap. by repeat constructor.
    + change (zip_star (xs :: ys :: rest))
        with (zip_with cons xs (zip_star (ys :: rest))).
      intros (x & t' & -> & Hx & Ht')%elem_of_zip_with.
      constructor; [done|]. by apply IH.
Qed.

Lemma file_patch_of_total (file_group : list _AvgResult) :
  (0 < length file_group)%nat -> exists p, file_patch_of file_group = Ok p.
Proof.
  intros Hlen. unfold file_patch_of.
  assert (Hlt : (0 <? length file_group)%nat = true) by (apply Nat.ltb_lt; lia).
  rewrite Hlt. simpl.
  destruct (last file_group) as [[a h]|] eqn:Hlast; [by eexists|].
  apply last_None in Hlast. subst. simpl in Hlen. lia.
Qed.

Lemma patch_of_rank_total (groups : list (list (list _AvgResult))) file_groups :
  file_groups ∈ zip_star (zip_star <$> groups) ->
  exists patch, patch_of_rank file_groups = Ok patch.
Proof.
  intros Hin. unfold patch_of_rank.
  destruct (zip_star_length _ _ Hin) as [Hlen Hpos].
  assert (Hlt : (0 <? length file_groups)%nat = true).
  { apply Nat.ltb_lt. rewrite length_fmap in Hlen, Hpos. lia. }
  rewrite Hlt. simpl.
  apply mapM_total. apply zip_star_components in Hin.
  clear Hlen Hpos Hlt.
  assert (Hpos : Forall (fun z : list (list _AvgResult) =>
                           forall g, g ∈ z -> (0 < length g)%nat)
                        (zip_star <$> groups)).
  { apply Forall_fmap, Forall_forall. intros group _ g Hg. simpl in Hg.
    apply zip_star_length in Hg. lia. }
  induction Hin as [|g z t zs Hg _ IH]; [constructor|].
  apply Forall_cons in Hpos as [Hz Hzs].
  constructor; [apply file_patch_of_total; by apply Hz|by apply IH].
Qed.

(** The assertions made while the generator yields never fail: once the
    groups have passed their checks, the candidates are listed. *)
Lemma iter_files_yields (file_results : list (list HunkRepairResult)) :
  forallb group_ok (groups_of to_average_results file_results) = true ->
  exists cands, iter_files to_average_results file_results = Ok cands.
Proof.
  intros Hok. unfold iter_files. rewrite Hok. simpl.
  apply mapM_total. apply Forall_forall. intros file_groups Hin.
  by eapply patch_of_rank_total.
Qed.

Lemma iter_files_raises (file_results : list (list HunkRepairResult)) :
  forallb group_ok (groups_of to_average_results file_results) = false ->
  iter_files to_average_results file_results = Raise AssertionError.
Proof. intros Hko. unfold iter_files. by rewrite Hko. Qed.

End iter_files_facts.

(** ** runner.py: transform *)

Section transform_facts.
Import text results runner.
Context (to_average_results : SynthesisResultBatch -> list AvgSynthesisResult).

Local Abbreviation iter_files := (runner.iter_files to_average_results).
Local Abbreviation transform_bug := (runner.transform_bug to_average_results).
Local Abbreviation transform := (runner.transform to_average_results).

Implicit Types (cands : list (list AvgFilePatch)) (patches : list AvgPatch)
  (appeared : gset string) (tr : RepairTransformedResult) (st : RunnerState).

(** *** The loop over the candidates of one bug *)

(** [s] is the text of a candidate with all its hunks among the first [k]. *)
Definition text_seen cands (k : nat) (s : string) : Prop :=
  exists j q, (j < k)%nat /\ cands !! j = Some q /\
              any_hunk_missing q = false /\ concat_hunk_str q = s.

(** What the claim asks of the patches recorded for the candidates of a bug
    and of the texts seen. *)
Definition deduplicated cands patches appeared : Prop :=
  length patches = length cands /\
  (forall k p, cands !! k = Some p ->
     exists ap, patches !! k = Some ap /\ file_patches ap = p /\
       (is_duplicate ap = true <->
        any_hunk_missing p = false /\ text_seen cands k (concat_hunk_str p))) /\
  (forall s, s ∈ appeared <-> text_seen cands (length cands) s).

Lemma text_seen_app cands rest k s :
  (k <= length cands)%nat ->
  text_seen (cands ++ rest) k s <-> text_seen cands k s.
Proof.
  intros Hk. unfold text_seen. split; intros (j & q & Hj & Hq & Hrest).
  - exists j, q. split; [done|]. split; [|done].
    by rewrite lookup_app_l in Hq by lia.
  - exists j, q. split; [done|]. split; [|done].
    by rewrite lookup_app_l by lia.
Qed.

Lemma text_seen_snoc cands p s :
  text_seen (cands ++ [p]) (S (length cands)) s <->
  text_seen cands (length cands) s \/
  (any_hunk_missing p = false /\ concat_hunk_str p = s).
Proof.
  unfold text_seen. split.
  - intros (j & q & Hj & Hq & Hm & Hs).
    destruct (decide (j < length cands)%nat) as [Hlt|Hge].
    + left. exists j, q. rewrite lookup_app_l in Hq by done. done.
    + right. assert (j = length cands) as -> by lia.
      rewrite lookup_app_r, Nat.sub_diag in Hq by lia. by injection Hq as <-.
  - intros [(j & q & Hj & Hq & Hrest)|[Hm Hs]].
    + exists j, q. split; [lia|]. by rewrite lookup_app_l by lia.
    + exists (length cands), p. split; [lia|].
      by rewrite lookup_app_r, Nat.sub_diag by lia.
Qed.

Lemma deduplicated_nil : deduplicated [] [] ∅.
Proof.
  split; [done|]. split; [by intros k p Hk|].
  intros s. split; [by intros ?%not_elem_of_empty|].
  intros (j & q & Hj & _). simpl in Hj. lia.
Qed.

(** One more candidate. *)
Lemma deduplicated_step cands patches appeared p :
  deduplicated cands patches appeared ->
  deduplicated (cands ++ [p])
    (transform_step patches appeared (length cands) p).1
    (transform_step patches appeared (length cands) p).2.
Proof.
  intros (Hlen & Hflags & Hseen).
  assert (Hold : forall patches' k q,
    (cands ++ [p]) !! k = Some q -> (k < length cands)%nat ->
    exists ap, (patches ++ patches') !! k = Some ap /\ file_patches ap = q /\
      (is_duplicate ap = true <->
       any_hunk_missing q = false /\ text_seen (cands ++ [p]) k (concat_hunk_str q))).
  { intros patches' k q Hq Hk. rewrite lookup_app_l in Hq by done.
    destruct (Hflags k q Hq) as (ap & Hap & Hfp & Hdup).
    exists ap. rewrite lookup_app_l by lia. split; [done|]. split; [done|].
    rewrite text_seen_app by lia. done. }
  assert (Hnew : forall b k q,
    (cands ++ [p]) !! k = Some q -> ~ (k < length cands)%nat ->
    (b = true <->
     any_hunk_missing p = false /\ text_seen cands (length cands) (concat_hunk_str p)) ->
    exists ap, (patches ++ [{| file_patches := p; is_duplicate := b |}]) !! k = Some ap /\
      file_patches ap = q /\
      (is_duplicate ap = true <->
       any_hunk_missing q = false /\ text_seen (cands ++ [p]) k (concat_hunk_str q))).
  { intros b k q Hq Hk Hb.
    assert (k = length cands) as ->.
    { apply lookup_lt_Some in Hq. rewrite length_app in Hq. simpl in Hq. lia. }
    rewrite lookup_app_r, Nat.sub_diag in Hq by lia. injection Hq as <-.
    eexists. rewrite lookup_app_r by lia. rewrite Hlen, Nat.sub_diag.
    split; [done|]. split; [done|]. simpl. rewrite text_seen_app by lia. done. }
  unfold transform_step. rewrite Hlen, Nat.ltb_irrefl.
  destruct (any_hunk_missing p) eqn:Hmiss; simpl; [|case_bool_decide as Hin; simpl].
  - split; [rewrite !length_app; simpl; lia|]. split.
    + intros k q Hq. destruct (decide (k < length cands)%nat); [by apply Hold|].
      apply Hnew; [done|done|]. split; [done|]. by intros [? _].
    + intros s. rewrite length_app, Nat.add_1_r, text_seen_snoc, Hseen.
      split; [by left|]. intros [?|[? _]]; [done|congruence].
  - split; [rewrite !length_app; simpl; lia|]. split.
    + intros k q Hq. destruct (decide (k < length cands)%nat); [by apply Hold|].
      apply Hnew; [done|done|]. split; [|done]. intros _. split; [done|].
      by apply Hseen.
    + intros s. rewrite length_app, Nat.add_1_r, text_seen_snoc, Hseen.
      split; [by left|]. intros [?|[_ <-]]; [done|]. by apply Hseen.
  - split; [rewrite !length_app; simpl; lia|]. split.
    + intros k q Hq. destruct (decide (k < length cands)%nat); [by apply Hold|].
      apply Hnew; [done|done|]. split; [done|]. intros [_ Hs].
      by apply Hseen in Hs.
    + intros s. rewrite length_app, Nat.add_1_r, text_seen_snoc.
      rewrite elem_of_union, elem_of_singleton, Hseen.
      split; [intros [->|?]; [by right|by left]|].
      intros [?|[_ <-]]; [by right|by left].
Qed.

Lemma transform_loop_run rest : forall cands patches appeared,
  deduplicated cands patches appeared ->
  deduplicated (cands ++ rest)
    (transform_loop (length cands) rest patches appeared).1
    (transform_loop (length cands) rest patches appeared).2.
Proof.
  induction rest as [|p rest IH]; intros cands patches appeared Hd.
  - by rewrite app_nil_r.
  - cbn [transform_loop].
    pose proof (deduplicated_step cands patches appeared p Hd) as Hstep.
    destruct (transform_step patches appeared (length cands) p) as [patches' appeared'].
    replace (cands ++ p :: rest) with ((cands ++ [p]) ++ rest)
      by by rewrite <- app_assoc.
    replace (S (length cands)) with (length (cands ++ [p]))
      by (rewrite length_app; simpl; lia).
    by apply IH.
Qed.

(** Ranks that are already recorded are skipped. *)
Lemma transform_loop_skip cands : forall i patches appeared,
  (i + length cands <= length patches)%nat ->
  transform_loop i cands patches appeared = (patches, appeared).
Proof.
  induction cands as [|p cands IH]; intros i patches appeared Hlen; [done|].
  simpl in Hlen. cbn [transform_loop]. unfold transform_step.
  destruct (Nat.ltb_spec i (length patches)); [|lia].
  apply IH. lia.
Qed.

Lemma transform_loop_app a : forall b i patches appeared,
  transform_loop i (a ++ b) patches appeared =
  transform_loop (i + length a) b
    (transform_loop i a patches appeared).1
    (transform_loop i a patches appeared).2.
Proof.
  induction a as [|p a IH]; intros b i patches appeared.
  - simpl. by rewrite Nat.add_0_r.
  - simpl app. cbn [transform_loop].
    destruct (transform_step patches appeared i p) as [patches' appeared'].
    rewrite IH. simpl length. by rewrite Nat.add_succ_r.
Qed.

(** From what was recorded for the first [n] candidates to all of them. *)
Lemma transform_loop_resume cands patches appeared n :
  (n <= length cands)%nat ->
  deduplicated (take n cands) patches appeared ->
  deduplicated cands
    (transform_loop 0 cands patches appeared).1
    (transform_loop 0 cands patches appeared).2.
Proof.
  intros Hn Hd.
  assert (Hlen : length patches = n).
  { destruct Hd as (-> & _). rewrite length_take_le; lia. }
  assert (Heq : transform_loop 0 cands patches appeared
                = transform_loop n (drop n cands) patches appeared).
  { rewrite <- (take_drop n cands) at 1. rewrite transform_loop_app.
    rewrite (transform_loop_skip (take n cands) 0 patches appeared)
      by (rewrite length_take_le; lia).
    simpl. by rewrite length_take_le by lia. }
  rewrite Heq.
  pose proof (transform_loop_run (drop n cands) _ _ _ Hd) as Hrun.
  rewrite length_take_le in Hrun by lia.
  rewrite take_drop in Hrun. exact Hrun.
Qed.

Lemma transform_loop_length cands : forall i patches appeared,
  (i <= length patches)%nat ->
  (i + length cands <= length (transform_loop i cands patches appeared).1)%nat.
Proof.
  induction cands as [|p cands IH]; intros i patches appeared Hi.
  - simpl. lia.
  - cbn [transform_loop].
    assert ((S i <= length (transform_step patches appeared i p).1)%nat) as Hs.
    { unfold transform_step. destruct (Nat.ltb_spec i (length patches)); [simpl; lia|].
      repeat case_match; simpl; rewrite length_app; simpl; lia. }
    destruct (transform_step patches appeared i p) as [patches' appeared'].
    simpl in Hs. specialize (IH (S i) patches' appeared' Hs). simpl. lia.
Qed.

End transform_facts.

Section transform_state_facts.
Import text results runner.
Context (to_average_results : SynthesisResultBatch -> list AvgSynthesisResult).

Local Abbreviation iter_files := (runner.iter_files to_average_results).
Local Abbreviation transform_bug := (runner.transform_bug to_average_results).
Local Abbreviation transform := (runner.transform to_average_results).

Implicit Types (cands : list (list AvgFilePatch)) (patches : list AvgPatch)
  (appeared : gset string) (tr : RepairTransformedResult) (st : RunnerState)
  (raw : list (string * list (list HunkRepairResult))).

Lemma rm_bind_Ok {A B} (m : RM A) (k : A -> RM B) st b st' :
  (m ≫= k) st = (Ok b, st') ->
  exists a st1, m st = (Ok a, st1) /\ k a st1 = (Ok b, st').
Proof.
  unfold mbind, RM_bind. destruct (m st) as [[a|e] st1]; [eauto|done].
Qed.

(** *** The state after one bug, and after all of them *)

Definition with_transformed st tr : RunnerState :=
  {| report := {| config := config (report st);
                  repair_result := repair_result (report st);
                  transformed_result := Some tr;
                  validation_result := validation_result (report st) |};
     disk := disk st; outside := outside st; dispatched := dispatched st |}.

Definition saved st : RunnerState :=
  {| report := report st; disk := Some (report st); outside := outside st;
     dispatched := dispatched st |}.

Lemma with_transformed_id st tr :
  transformed_result (report st) = Some tr -> with_transformed st tr = st.
Proof. destruct st as [[? ? ? ?] ? ? ?]. simpl. by intros ->. Qed.

Definition no_transformed : RepairTransformedResult :=
  {| tr_result_dict := []; all_appeared := [] |}.

Definition bug_patches tr (bug_id : string) : list AvgPatch :=
  default [] (pydict.get bug_id (tr_result_dict tr)).
Definition bug_appeared tr (bug_id : string) : gset string :=
  default ∅ (pydict.get bug_id (all_appeared tr)).

Definition after_bug tr (bug_id : string) cands : RepairTransformedResult :=
  let r := transform_loop 0 cands (bug_patches tr bug_id) (bug_appeared tr bug_id) in
  {| tr_result_dict := pydict.set bug_id r.1 (tr_result_dict tr);
     all_appeared := pydict.set bug_id r.2 (all_appeared tr) |}.

Fixpoint after_bugs tr raw : res RepairTransformedResult :=
  match raw with
  | [] => Ok tr
  | (bug_id, files) :: rest =>
      cands ← iter_files files; after_bugs (after_bug tr bug_id cands) rest
  end.

Lemma set_set {V} (k : string) (v v' : V) (d : list (string * V)) :
  pydict.set k v' (pydict.set k v d) = pydict.set k v' d.
Proof.
  induction d as [|[k0 v0] d IH]; simpl.
  - by rewrite decide_True.
  - destruct (decide (k0 = k)) as [->|Hne]; simpl.
    + by rewrite decide_True.
    + rewrite decide_False by done. by rewrite IH.
Qed.

Lemma setdefault_1 {V} (k : string) (v : V) d :
  (pydict.setdefault k v d).1 = default v (pydict.get k d).
Proof. unfold pydict.setdefault. by destruct (pydict.get k d). Qed.

Lemma set_setdefault {V} (k : string) (v : V) d (v' : V) :
  pydict.set k v' (pydict.setdefault k v d).2 = pydict.set k v' d.
Proof.
  unfold pydict.setdefault. destruct (pydict.get k d); [done|]. apply set_set.
Qed.

Lemma set_transformed_run tr st :
  set_transformed tr st = (Ok tt, with_transformed st tr).
Proof. reflexivity. Qed.

Lemma get_transformed_run st tr :
  transformed_result (report st) = Some tr -> get_transformed st = (Ok tr, st).
Proof.
  intros Htr. unfold get_transformed, mbind, RM_bind, rm_get. by rewrite Htr.
Qed.

Lemma transform_bug_run st tr bug_id files cands :
  transformed_result (report st) = Some tr ->
  iter_files files = Ok cands ->
  transform_bug bug_id files st
  = (Ok tt, with_transformed st (after_bug tr bug_id cands)).
Proof.
  intros Htr Hit. unfold runner.transform_bug.
  unfold mbind at 1, RM_bind at 1. rewrite (get_transformed_run _ _ Htr).
  pose proof (setdefault_1 bug_id [] (tr_result_dict tr)) as H1.
  pose proof (set_setdefault bug_id [] (tr_result_dict tr)) as H2.
  destruct (pydict.setdefault bug_id [] (tr_result_dict tr)) as [patches rd].
  pose proof (setdefault_1 bug_id ∅ (all_appeared tr)) as H3.
  pose proof (set_setdefault bug_id ∅ (all_appeared tr)) as H4.
  destruct (pydict.setdefault bug_id ∅ (all_appeared tr)) as [appeared aa].
  simpl in H1, H2, H3, H4. subst patches appeared.
  unfold mbind, RM_bind, set_transformed, rm_get, set_report, rm_lift.
  simpl. rewrite Hit. unfold after_bug, bug_patches, bug_appeared.
  destruct (transform_loop 0 cands _ _) as [patches' appeared']. simpl.
  unfold with_transformed. simpl. by rewrite H2, H4.
Qed.

Lemma transform_bug_Ok st tr bug_id files st' :
  transformed_result (report st) = Some tr ->
  transform_bug bug_id files st = (Ok tt, st') ->
  exists cands, iter_files files = Ok cands.
Proof.
  intros Htr. destruct (iter_files files) as [cands|e] eqn:Hit; [by eexists|].
  unfold runner.transform_bug.
  unfold mbind at 1, RM_bind at 1. rewrite (get_transformed_run _ _ Htr).
  destruct (pydict.setdefault bug_id [] (tr_result_dict tr)) as [patches rd].
  destruct (pydict.setdefault bug_id ∅ (all_appeared tr)) as [appeared aa].
  unfold mbind, RM_bind, set_transformed, rm_get, set_report, rm_lift.
  simpl. rewrite Hit. done.
Qed.

Lemma sweep_transform raw : forall st tr st',
  transformed_result (report st) = Some tr ->
  rforM_ raw (fun '(bug_id, files) => transform_bug bug_id files) st = (Ok tt, st') ->
  exists tr', after_bugs tr raw = Ok tr' /\ st' = with_transformed st tr'.
Proof.
  induction raw as [|[bug_id files] raw IH]; intros st tr st' Htr.
  - simpl. intros [= <-]. exists tr. by rewrite with_transformed_id.
  - cbn [rforM_ after_bugs]. intros (u & st1 & Hbug & Hrest)%rm_bind_Ok.
    destruct u.
    destruct (transform_bug_Ok _ _ _ _ _ Htr Hbug) as [cands Hit].
    rewrite (transform_bug_run _ _ _ _ _ Htr Hit) in Hbug.
    injection Hbug as <-. rewrite Hit. simpl.
    destruct (IH (with_transformed st (after_bug tr bug_id cands))
                (after_bug tr bug_id cands) st' eq_refl Hrest) as (tr' & Hafter & ->).
    exists tr'. split; [done|]. done.
Qed.

Lemma sweep_transform_returns raw : forall st tr tr',
  transformed_result (report st) = Some tr ->
  after_bugs tr raw = Ok tr' ->
  rforM_ raw (fun '(bug_id, files) => transform_bug bug_id files) st
  = (Ok tt, with_transformed st tr').
Proof.
  induction raw as [|[bug_id files] raw IH]; intros st tr tr' Htr.
  - simpl. intros [= <-]. by rewrite with_transformed_id.
  - cbn [rforM_ after_bugs].
    destruct (iter_files files) as [cands|e] eqn:Hit; [|done]. simpl.
    intros Hafter. unfold mbind, RM_bind.
    rewrite (transform_bug_run _ _ _ _ _ Htr Hit).
    by rewrite (IH (with_transformed st (after_bug tr bug_id cands))
                  (after_bug tr bug_id cands) tr' eq_refl Hafter).
Qed.

(** What [transform] does when it returns, and that it returns when the
    candidates of every bug can be listed. *)
Lemma transform_Ok st st' :
  transform st = (Ok tt, st') ->
  exists tr',
    after_bugs (default no_transformed (transformed_result (report st)))
      (rr_result_dict (repair_result (report st))) = Ok tr' /\
    st' = saved (with_transformed st tr').
Proof.
  unfold runner.transform. unfold mbind at 1, RM_bind at 1, rm_get.
  intros (u & st1 & Hinit & (u' & st2 & Hsweep & Hsave)%rm_bind_Ok)%rm_bind_Ok.
  destruct u, u'. injection Hsave as <-.
  destruct (transformed_result (report st)) as [tr|] eqn:Htr.
  - injection Hinit as <-.
    destruct (sweep_transform _ _ _ _ Htr Hsweep) as (tr' & Hafter & ->).
    exists tr'. done.
  - injection Hinit as <-.
    destruct (sweep_transform _ (with_transformed st no_transformed) no_transformed
                st2 eq_refl Hsweep) as (tr' & Hafter & ->).
    exists tr'. done.
Qed.

Lemma transform_returns st tr' :
  after_bugs (default no_transformed (transformed_result (report st)))
    (rr_result_dict (repair_result (report st))) = Ok tr' ->
  transform st = (Ok tt, saved (with_transformed st tr')).
Proof.
  intros Hafter. unfold runner.transform. unfold mbind, RM_bind, rm_get.
  destruct (transformed_result (report st)) as [tr|] eqn:Htr; simpl in Hafter.
  - change ((mret tt : RM _) st) with (Ok tt, st). cbn iota.
    by rewrite (sweep_transform_returns _ _ _ _ Htr Hafter).
  - rewrite set_transformed_run. fold no_transformed.
    by rewrite (sweep_transform_returns _ (with_transformed st no_transformed)
                  no_transformed tr' eq_refl Hafter).
Qed.

Lemma after_bugs_total raw : forall tr,
  Forall (fun kv => exists cands, iter_files kv.2 = Ok cands) raw ->
  exists tr', after_bugs tr raw = Ok tr'.
Proof.
  induction raw as [|[bug_id files] raw IH]; intros tr Hall; [by eexists|].
  apply Forall_cons in Hall as [[cands Hit] Hall]. simpl in Hit.
  cbn [after_bugs]. rewrite Hit. simpl. by apply IH.
Qed.

(** [transform] returns when the candidates of every bug can be listed. *)
Lemma transform_total st :
  Forall (fun kv => exists cands, iter_files kv.2 = Ok cands)
    (rr_result_dict (repair_result (report st))) ->
  exists st', transform st = (Ok tt, st').
Proof.
  intros Hall.
  destruct (after_bugs_total _
              (default no_transformed (transformed_result (report st))) Hall)
    as [tr' Hafter].
  eexists. by apply transform_returns.
Qed.

(** *** Which entries a sweep over the bugs changes *)

Lemma after_bug_other tr bug_id cands other :
  bug_id <> other ->
  bug_patches (after_bug tr bug_id cands) other = bug_patches tr other /\
  bug_appeared (after_bug tr bug_id cands) other = bug_appeared tr other /\
  pydict.get other (tr_result_dict (after_bug tr bug_id cands))
    = pydict.get other (tr_result_dict tr) /\
  pydict.get other (all_appeared (after_bug tr bug_id cands))
    = pydict.get other (all_appeared tr).
Proof.
  intros Hne. unfold bug_patches, bug_appeared, after_bug. simpl.
  by rewrite !get_set_ne by done.
Qed.

Lemma after_bugs_other raw : forall tr tr' other,
  other ∉ pydict.keys raw ->
  after_bugs tr raw = Ok tr' ->
  pydict.get other (tr_result_dict tr') = pydict.get other (tr_result_dict tr) /\
  pydict.get other (all_appeared tr') = pydict.get other (all_appeared tr).
Proof.
  induction raw as [|[bug_id files] raw IH]; intros tr tr' other Hnotin.
  - by intros [= <-].
  - unfold pydict.keys in Hnotin. simpl in Hnotin.
    apply not_elem_of_cons in Hnotin as [Hne Hnotin].
    cbn [after_bugs]. destruct (iter_files files) as [cands|]; [|done]. simpl.
    intros Hafter. destruct (IH _ _ other Hnotin Hafter) as [-> ->].
    destruct (after_bug_other tr bug_id cands other) as (_ & _ & -> & ->); done.
Qed.

(** The entry of a bug after the sweep: the loop over its candidates, run
    on what was recorded for it before. *)
Lemma after_bugs_entry raw : forall tr tr' bug_id files,
  pydict.wf raw -> (bug_id, files) ∈ raw ->
  after_bugs tr raw = Ok tr' ->
  exists cands,
    iter_files files = Ok cands /\
    pydict.get bug_id (tr_result_dict tr')
      = Some (transform_loop 0 cands (bug_patches tr bug_id)
                (bug_appeared tr bug_id)).1 /\
    pydict.get bug_id (all_appeared tr')
      = Some (transform_loop 0 cands (bug_patches tr bug_id)
                (bug_appeared tr bug_id)).2.
Proof.
  induction raw as [|[b f] raw IH]; intros tr tr' bug_id files Hwf Hin.
  - by apply elem_of_nil in Hin.
  - unfold pydict.wf, pydict.keys in Hwf. simpl in Hwf.
    apply NoDup_cons in Hwf as [Hfresh Hwf].
    cbn [after_bugs]. destruct (iter_files f) as [cands|] eqn:Hit; [|done]. simpl.
    intros Hafter.
    destruct (decide (b = bug_id)) as [->|Hne].
    + assert (files = f) as ->.
      { apply elem_of_cons in Hin as [[= ->]|Hin]; [done|].
        exfalso. apply Hfresh. apply list_elem_of_fmap. by exists (bug_id, files). }
      exists cands. split; [done|].
      destruct (after_bugs_other raw _ _ bug_id Hfresh Hafter) as [-> ->].
      unfold after_bug. simpl. by rewrite !get_set_eq.
    + apply elem_of_cons in Hin as [[= ? ?]|Hin]; [congruence|].
      destruct (IH _ _ bug_id files Hwf Hin Hafter) as (cands' & Hit' & Hrd & Haa).
      exists cands'. split; [done|].
      destruct (after_bug_other tr b cands bug_id Hne) as (Hp & Ha & _).
      by rewrite Hrd, Haa, Hp, Ha.
Qed.

(** What is recorded in the report before [transform] runs. *)
Definition recorded st : RepairTransformedResult :=
  default no_transformed (transformed_result (report st)).

(** The report is one that [transform] can resume: for each bug, what is
    recorded (nothing, for a report never transformed) is what the claim asks
    of its first candidates. *)
Definition resumable st : Prop :=
  forall bug_id files cands,
    (bug_id, files) ∈ rr_result_dict (repair_result (report st)) ->
    iter_files files = Ok cands ->
    exists n, (n <= length cands)%nat /\
      deduplicated (take n cands) (bug_patches (recorded st) bug_id)
        (bug_appeared (recorded st) bug_id).

Lemma fresh_resumable st :
  transformed_result (report st) = None -> resumable st.
Proof.
  intros Hnone bug_id files cands _ _. exists O. split; [lia|].
  unfold recorded. rewrite Hnone. rewrite take_0. apply deduplicated_nil.
Qed.

(** C2. When [transform] returns on a report it can resume (in particular on
    one never transformed), then for every bug of the raw result, with its
    candidates in rank order: a candidate with all its hunk texts is marked
    duplicate exactly when its joined text is that of an earlier candidate
    with all its hunk texts (so the first one with a given text is not
    marked); a candidate that lacks a hunk text is not marked; and the texts
    seen for the bug are exactly the joined texts of the candidates with all
    their hunk texts. *)
Theorem transform_marks_duplicates st st' :
  pydict.wf (rr_result_dict (repair_result (report st))) ->
  resumable st ->
  transform st = (Ok tt, st') ->
  exists tr',
    transformed_result (report st') = Some tr' /\
    forall bug_id files,
      (bug_id, files) ∈ rr_result_dict (repair_result (report st)) ->
      exists cands patches appeared,
        iter_files files = Ok cands /\
        pydict.get bug_id (tr_result_dict tr') = Some patches /\
        pydict.get bug_id (all_appeared tr') = Some appeared /\
        deduplicated cands patches appeared.
Proof.
  intros Hwf Hres (tr' & Hafter & ->)%transform_Ok.
  exists tr'. split; [done|]. intros bug_id files Hin.
  destruct (after_bugs_entry _ _ _ _ _ Hwf Hin Hafter) as (cands & Hit & Hrd & Haa).
  destruct (Hres _ _ _ Hin Hit) as (n & Hn & Hd).
  eexists cands, _, _. split; [done|]. split; [done|]. split; [done|].
  by apply (transform_loop_resume _ _ _ n).
Qed.

(** *** Running [transform] again *)

(** Every rank of the bug is recorded. *)
Definition saturated tr (bug_id : string) (files : list (list HunkRepairResult))
    : Prop :=
  exists cands patches appeared,
    iter_files files = Ok cands /\
    pydict.get bug_id (tr_result_dict tr) = Some patches /\
    pydict.get bug_id (all_appeared tr) = Some appeared /\
    (length cands <= length patches)%nat.

Lemma transform_loop_grows cands : forall i patches appeared,
  (length patches <= length (transform_loop i cands patches appeared).1)%nat.
Proof.
  induction cands as [|p cands IH]; intros i patches appeared; [done|].
  cbn [transform_loop].
  assert ((length patches <= length (transform_step patches appeared i p).1)%nat) as Hs.
  { unfold transform_step. repeat case_match; simpl; rewrite ?length_app; lia. }
  destruct (transform_step patches appeared i p) as [patches' appeared'].
  simpl in Hs. specialize (IH (S i) patches' appeared'). lia.
Qed.

Lemma after_bug_saturated tr bug_id files cands :
  iter_files files = Ok cands ->
  saturated (after_bug tr bug_id cands) bug_id files.
Proof.
  intros Hit. exists cands. eexists _, _. split; [done|].
  unfold after_bug. simpl. rewrite !get_set_eq. split; [done|]. split; [done|].
  apply (transform_loop_length cands 0). lia.
Qed.

Lemma after_bug_keeps_saturated tr bug_id cands other files :
  saturated tr other files -> saturated (after_bug tr bug_id cands) other files.
Proof.
  intros (cands' & patches & appeared & Hit & Hrd & Haa & Hlen).
  destruct (decide (bug_id = other)) as [->|Hne].
  - exists cands'. eexists _, _. split; [done|].
    unfold after_bug. simpl. rewrite !get_set_eq. split; [done|]. split; [done|].
    unfold bug_patches. rewrite Hrd. simpl.
    pose proof (transform_loop_grows cands 0 patches (bug_appeared tr other)). lia.
  - exists cands', patches, appeared. split; [done|].
    destruct (after_bug_other tr bug_id cands other Hne) as (_ & _ & -> & ->).
    done.
Qed.

Lemma after_bugs_keeps_saturated raw : forall tr tr' other files,
  saturated tr other files -> after_bugs tr raw = Ok tr' ->
  saturated tr' other files.
Proof.
  induction raw as [|[b f] raw IH]; intros tr tr' other files Hsat.
  - by intros [= <-].
  - cbn [after_bugs]. destruct (iter_files f) as [cands|]; [|done]. simpl.
    apply IH. by apply after_bug_keeps_saturated.
Qed.

Lemma after_bugs_saturates raw : forall tr tr',
  after_bugs tr raw = Ok tr' ->
  forall bug_id files, (bug_id, files) ∈ raw -> saturated tr' bug_id files.
Proof.
  induction raw as [|[b f] raw IH]; intros tr tr' Hafter bug_id files Hin.
  - by apply elem_of_nil in Hin.
  - cbn [after_bugs] in Hafter.
    destruct (iter_files f) as [cands|] eqn:Hit; [|done]. simpl in Hafter.
    apply elem_of_cons in Hin as [[= -> ->]|Hin].
    + eapply after_bugs_keeps_saturated; [|exact Hafter].
      by apply after_bug_saturated.
    + by eapply IH.
Qed.

Lemma after_bug_fixed tr bug_id files cands :
  saturated tr bug_id files -> iter_files files = Ok cands ->
  after_bug tr bug_id cands = tr.
Proof.
  intros (cands' & patches & appeared & Hit & Hrd & Haa & Hlen) Hit'.
  assert (cands' = cands) as -> by congruence.
  unfold after_bug, bug_patches, bug_appeared. rewrite Hrd, Haa. simpl.
  rewrite transform_loop_skip by (simpl; lia). simpl.
  rewrite !set_get_id by done. by destruct tr.
Qed.

Lemma after_bugs_fixed raw : forall tr,
  (forall bug_id files, (bug_id, files) ∈ raw -> saturated tr bug_id files) ->
  after_bugs tr raw = Ok tr.
Proof.
  induction raw as [|[b f] raw IH]; intros tr Hsat; [done|].
  cbn [after_bugs].
  destruct (Hsat b f) as (cands & patches & appeared & Hit & Hrest);
    [apply list_elem_of_here|].
  rewrite Hit. simpl. rewrite (after_bug_fixed tr b f cands); [|by eexists _, _, _|done].
  apply IH. intros bug_id files Hin. apply Hsat. by apply list_elem_of_further.
Qed.

(** C9. When [transform] has returned, running it again on the state it left
    (same raw result) returns and leaves that state as it is: no patch is
    appended, no duplicate flag changes, the sets of seen texts are the
    same. *)
Theorem transform_twice st st1 :
  transform st = (Ok tt, st1) -> transform st1 = (Ok tt, st1).
Proof.
  intros (tr' & Hafter & ->)%transform_Ok.
  pose proof (after_bugs_saturates _ _ _ Hafter) as Hsat.
  rewrite (transform_returns (saved (with_transformed st tr')) tr').
  - destruct st as [[? ? ? ?] ? ? ?]. reflexivity.
  - simpl. by apply after_bugs_fixed.
Qed.

End transform_state_facts.

(** ** runner.py: the batches of validate *)

Section schedule_facts.
Import text results runner.

Implicit Types (item : WorkItem) (batch : list WorkItem)
  (items : list (string * list AvgPatch))
  (vrd : list (string * list (nat * (nat * PatchValidationResult)))).

Lemma chunked_fuel_spec {A} fuel (size : nat) : forall (l c : list A),
  c ∈ utils.chunked_fuel fuel size l ->
  c `sublist_of` l /\ (length c <= size)%nat /\ c <> [].
Proof.
  induction fuel as [|fuel IH]; intros l c; simpl.
  - by intros ?%elem_of_nil.
  - destruct (take size l) as [|x chunk] eqn:Htake; [by intros ?%elem_of_nil|].
    intros [->|Hin]%elem_of_cons.
    + rewrite <- Htake. split; [apply sublist_take|].
      split; [rewrite length_take; lia|]. by rewrite Htake.
    + destruct (IH _ _ Hin) as (Hsub & Hlen & Hne).
      split; [|done]. etrans; [exact Hsub|apply sublist_drop].
Qed.

(** Nothing is lost by the chunking when the size is positive. *)
Lemma chunked_fuel_concat {A} fuel (size : nat) : forall (l : list A),
  (0 < size)%nat -> (length l <= fuel)%nat ->
  concat (utils.chunked_fuel fuel size l) = l.
Proof.
  induction fuel as [|fuel IH]; intros l Hsize Hlen.
  - destruct l; [done|simpl in Hlen; lia].
  - simpl. destruct (take size l) as [|x chunk] eqn:Htake.
    + destruct l as [|y l]; [done|]. destruct size; [lia|done].
    + simpl. rewrite IH; [|done|].
      * rewrite app_comm_cons, <- Htake. apply take_drop.
      * rewrite length_drop. destruct l as [|y l]; [by rewrite take_nil in Htake|].
        destruct size; [lia|]. simpl in *. lia.
Qed.

Lemma chunked_concat {A} (size : nat) (l : list A) :
  (0 < size)%nat -> concat (utils.chunked size l) = l.
Proof. intros. by apply chunked_fuel_concat. Qed.

(** An item is eligible: it is a recorded patch of its bug at its rank,
    neither duplicate nor broken, and its rank has no validation result. *)
Definition eligible items vrd item : Prop :=
  exists patches,
    (item.1.1, patches) ∈ items /\
    patches !! item.1.2 = Some item.2 /\
    is_duplicate item.2 = false /\ is_broken item.2 = false /\
    pydict.get item.1.2 (default [] (pydict.get item.1.1 vrd)) = None.

Lemma unvalidated_of_spec bug_id patches validated item :
  item ∈ unvalidated_of bug_id patches validated ->
  item.1.1 = bug_id /\
  patches !! item.1.2 = Some item.2 /\
  is_duplicate item.2 = false /\ is_broken item.2 = false /\
  pydict.get item.1.2 validated = None.
Proof.
  unfold unvalidated_of.
  intros ([idx patch] & Hin & Hsel)%list_elem_of_omap.
  apply elem_of_lookup_imap in Hin as (i & p & [= -> ->] & Hlook).
  destruct (is_duplicate p) eqn:Hdup; simpl in Hsel; [done|].
  destruct (is_broken p) eqn:Hbroken; simpl in Hsel; [done|].
  case_bool_decide as Hval; simpl in Hsel; [|done].
  injection Hsel as <-. done.
Qed.

Lemma setdefault_keeps_default {V} (k k' : string) (d : list (string * list V)) :
  default [] (pydict.get k (pydict.setdefault k' [] d).2)
  = default [] (pydict.get k d).
Proof.
  unfold pydict.setdefault. destruct (pydict.get k' d) eqn:Hk'; [done|]. simpl.
  destruct (decide (k' = k)) as [->|Hne].
  - by rewrite get_set_eq, Hk'.
  - by rewrite get_set_ne.
Qed.

(** The lists collected for the bugs: one bug id per list, the ids in the
    order of the transformed results, every item eligible. *)
Lemma collect_spec ext pattern items : forall vrd unvalidated vrd',
  collect ext pattern items vrd = (unvalidated, vrd') ->
  (forall k, default [] (pydict.get k vrd') = default [] (pydict.get k vrd)) /\
  exists ids,
    ids `sublist_of` pydict.keys items /\
    Forall2 (fun id l => forall item, item ∈ l ->
               item.1.1 = id /\ eligible items vrd item) ids unvalidated.
Proof.
  induction items as [|[bug_id patches] items IH]; intros vrd unvalidated vrd'.
  - simpl. intros [= <- <-]. split; [done|]. exists []. split; [constructor|constructor].
  - cbn [collect]. destruct (fullmatch ext pattern bug_id).
    + pose proof (setdefault_1 bug_id [] vrd) as Hval.
      pose proof (fun k => setdefault_keeps_default k bug_id vrd) as Hkeep.
      destruct (pydict.setdefault bug_id [] vrd) as [validated vrd1].
      simpl in Hval, Hkeep.
      destruct (collect ext pattern items vrd1) as [ls vrd2] eqn:Hrest.
      intros [= <- <-].
      destruct (IH _ _ _ Hrest) as (Hdef & ids & Hsub & Hall).
      split; [intros k; by rewrite Hdef, Hkeep|].
      exists (bug_id :: ids). split; [by apply sublist_skip|].
      constructor.
      * intros item Hitem.
        apply unvalidated_of_spec in Hitem as (Hid & Hp & Hd & Hb & Hv).
        split; [done|]. exists patches. rewrite Hid.
        split; [apply list_elem_of_here|]. repeat split; try done.
        by rewrite <- Hval.
      * eapply Forall2_impl; [exact Hall|]. simpl.
        intros id l Hl item Hitem. destruct (Hl item Hitem) as [Hid (ps & Hin & Hrest')].
        split; [done|]. exists ps. split; [by apply list_elem_of_further|].
        destruct Hrest' as (? & ? & ? & Hv). repeat split; try done.
        by rewrite <- Hkeep.
    + intros Hrest. destruct (IH _ _ _ Hrest) as (Hdef & ids & Hsub & Hall).
      split; [done|]. exists ids. split; [by apply sublist_cons|].
      eapply Forall2_impl; [exact Hall|]. simpl.
      intros id l Hl item Hitem. destruct (Hl item Hitem) as [Hid (ps & Hin & Hrest')].
      split; [done|]. exists ps. split; [by apply list_elem_of_further|done].
Qed.

(** Every item put on a list is eligible. *)
Lemma collect_eligible ext pattern items vrd unvalidated vrd' l item :
  collect ext pattern items vrd = (unvalidated, vrd') ->
  l ∈ unvalidated -> item ∈ l -> eligible items vrd item.
Proof.
  intros (_ & ids & _ & Hall)%collect_spec Hl Hitem.
  apply list_elem_of_lookup in Hl as [i Hi].
  destruct (Forall2_lookup_r _ _ _ _ _ Hall Hi) as (id & _ & Hid).
  by apply Hid.
Qed.

(** One round takes at most one item of each list. *)
Lemma round_spec (Q : WorkItem -> Prop) (i : nat) ids (ls : list (list WorkItem)) :
  Forall2 (fun id l => forall item, item ∈ l -> item.1.1 = id /\ Q item) ids ls ->
  (fun r : WorkItem => r.1.1) <$> not_none ((fun l => l !! i) <$> ls)
    `sublist_of` ids /\
  forall item, item ∈ not_none ((fun l => l !! i) <$> ls) -> Q item.
Proof.
  unfold not_none. induction 1 as [|id l ids ls Hl Hrest [IHsub IHq]]; simpl.
  - split; [constructor|]. by intros item ?%elem_of_nil.
  - destruct (l !! i) as [item0|] eqn:Hlook; simpl.
    + destruct (Hl item0) as [<- Hq0]; [by eapply list_elem_of_lookup_2|].
      split; [by apply sublist_skip|].
      intros item [->|Hin]%elem_of_cons; [done|by apply IHq].
    + split; [by apply sublist_cons|done].
Qed.

(** Every batch of the schedule: at most [n_cores] items, no two of the same
    bug, every item eligible. *)
Lemma batches_spec ext pattern (n_cores : nat) items vrd unvalidated vrd' batch :
  pydict.wf items ->
  collect ext pattern items vrd = (unvalidated, vrd') ->
  batch ∈ batches n_cores unvalidated ->
  (length batch <= n_cores)%nat /\
  NoDup ((fun r : WorkItem => r.1.1) <$> batch) /\
  forall item, item ∈ batch -> eligible items vrd item.
Proof.
  intros Hwf Hcollect Hin.
  destruct (collect_spec _ _ _ _ _ _ Hcollect) as (_ & ids & Hsub & Hall).
  unfold batches in Hin.
  apply list_elem_of_bind in Hin as (zipped & Hchunk & Hzip).
  unfold zip_longest_star in Hzip.
  apply list_elem_of_fmap in Hzip as (i & -> & _).
  apply chunked_fuel_spec in Hchunk as (Hsubl & Hlen & _).
  destruct (round_spec (eligible items vrd) i ids unvalidated Hall) as [Hids Hq].
  split; [done|]. split.
  - eapply sublist_NoDup; [exact Hwf|].
    etrans; [|exact Hsub]. etrans; [|exact Hids].
    by apply fmap_sublist.
  - intros item Hitem. apply Hq. by eapply elem_of_sublist.
Qed.

End schedule_facts.

Section validate_facts.
Import text results runner.
Context (ext : External).
Context (to_average_results : SynthesisResultBatch -> list AvgSynthesisResult).
Context (compute_patch : AvgFilePatch -> option TextFile).
Context (RULE : string).
Context (parallel : nat -> list (M PatchValidationResult)
                    -> M (list PatchValidationResult)).

Local Abbreviation validate :=
  (runner.validate ext to_average_results compute_patch RULE parallel).
Local Abbreviation run_batch := (runner.run_batch ext compute_patch RULE parallel).

Implicit Types (st : RunnerState) (tr : RepairTransformedResult).

Lemma rm_bind_unfold {A B} (m : RM A) (k : A -> RM B) st :
  (m ≫= k) st = match m st with
                | (Ok a, st1) => k a st1
                | (Raise e, st1) => (Raise e, st1)
                end.
Proof. reflexivity. Qed.

(** *** Steps that dispatch nothing and leave the validation results *)

Definition quiet {A} (m : RM A) : Prop :=
  forall st, dispatched (m st).2 = dispatched st /\
             validation_result (report (m st).2) = validation_result (report st).

Lemma quiet_bind {A B} (m : RM A) (k : A -> RM B) :
  quiet m -> (forall a, quiet (k a)) -> quiet (m ≫= k).
Proof.
  intros Hm Hk st. rewrite rm_bind_unfold. specialize (Hm st).
  destruct (m st) as [[a|e] st1]; [|done].
  specialize (Hk a st1). simpl in Hm. destruct Hm as [<- <-]. done.
Qed.

Lemma quiet_ret {A} (a : A) : quiet (mret a : RM A).
Proof. by intros st. Qed.

Lemma quiet_lift {A} (r : res A) : quiet (rm_lift r).
Proof. by intros st. Qed.

Lemma quiet_get : quiet rm_get.
Proof. by intros st. Qed.

Lemma quiet_set_transformed tr : quiet (set_transformed tr).
Proof. by intros st. Qed.

Lemma quiet_get_transformed : quiet get_transformed.
Proof.
  apply quiet_bind; [apply quiet_get|]. intros st.
  destruct (transformed_result (report st)); [apply quiet_ret|apply quiet_lift].
Qed.

Lemma quiet_save : quiet save.
Proof. by intros st. Qed.

Lemma quiet_rforM {A} (f : A -> RM unit) l :
  (forall x, quiet (f x)) -> quiet (rforM_ l f).
Proof.
  intros Hf. induction l as [|x l IH]; [apply quiet_ret|].
  cbn [rforM_]. apply quiet_bind; [apply Hf|done].
Qed.

Lemma quiet_transform_bug bug_id files :
  quiet (transform_bug to_average_results bug_id files).
Proof.
  unfold transform_bug. apply quiet_bind; [apply quiet_get_transformed|].
  intros tr. destruct (pydict.setdefault bug_id [] (tr_result_dict tr)).
  destruct (pydict.setdefault bug_id ∅ (all_appeared tr)).
  apply quiet_bind; [apply quiet_set_transformed|]. intros _.
  apply quiet_bind; [apply quiet_lift|]. intros cands.
  destruct (transform_loop 0 cands _ _). apply quiet_set_transformed.
Qed.

Lemma quiet_transform : quiet (transform to_average_results).
Proof.
  unfold transform. apply quiet_bind; [apply quiet_get|]. intros st.
  apply quiet_bind.
  { destruct (transformed_result (report st));
      [apply quiet_ret|apply quiet_set_transformed]. }
  intros _. apply quiet_bind; [|intros _; apply quiet_save].
  apply quiet_rforM. intros [bug_id files]. apply quiet_transform_bug.
Qed.

Lemma quiet_transform_if_not_performed :
  quiet (transform_if_not_performed to_average_results).
Proof.
  unfold transform_if_not_performed. apply quiet_bind; [apply quiet_get|].
  intros st. destruct (transformed_result (report st));
    [apply quiet_ret|apply quiet_transform].
Qed.

(** *** Steps that leave the transformed results and dispatch batches in [P] *)

Definition steady (P : list WorkItem -> Prop) {A} (m : RM A) : Prop :=
  forall st,
    transformed_result (report (m st).2) = transformed_result (report st) /\
    exists new, dispatched (m st).2 = dispatched st ++ new /\ Forall P new.

Lemma steady_still P {A} (m : RM A) :
  (forall st, transformed_result (report (m st).2) = transformed_result (report st)
              /\ dispatched (m st).2 = dispatched st) ->
  steady P m.
Proof.
  intros H st. destruct (H st) as [-> ->]. split; [done|].
  exists []. by rewrite app_nil_r.
Qed.

Lemma steady_bind P {A B} (m : RM A) (k : A -> RM B) :
  steady P m -> (forall a, steady P (k a)) -> steady P (m ≫= k).
Proof.
  intros Hm Hk st. rewrite rm_bind_unfold. specialize (Hm st).
  destruct (m st) as [[a|e] st1]; [|done].
  specialize (Hk a st1). simpl in Hm.
  destruct Hm as (Ht1 & new1 & Hd1 & HP1). destruct Hk as (Ht2 & new2 & Hd2 & HP2).
  split; [by rewrite Ht2|]. exists (new1 ++ new2).
  split; [by rewrite Hd2, Hd1, app_assoc|by apply Forall_app].
Qed.

Lemma steady_ret P {A} (a : A) : steady P (mret a : RM A).
Proof. by apply steady_still. Qed.

Lemma steady_lift P {A} (r : res A) : steady P (rm_lift r).
Proof. by apply steady_still. Qed.

Lemma steady_set_validation P vr : steady P (set_validation vr).
Proof. by apply steady_still. Qed.

Lemma steady_get_validation P : steady P get_validation.
Proof.
  apply steady_bind; [by apply steady_still|]. intros st.
  destruct (validation_result (report st)); [apply steady_ret|apply steady_lift].
Qed.

Lemma steady_save P : steady P save.
Proof. by apply steady_still. Qed.

Lemma steady_outside P {A} (m : M A) : steady P (rm_outside m).
Proof.
  apply steady_still. intros st. unfold rm_outside.
  by destruct (m (outside st)).
Qed.

Lemma steady_rforM P {A} (f : A -> RM unit) l :
  (forall x, x ∈ l -> steady P (f x)) -> steady P (rforM_ l f).
Proof.
  induction l as [|x l IH]; intros Hf; [apply steady_ret|].
  cbn [rforM_]. apply steady_bind; [apply Hf, list_elem_of_here|].
  intros _. apply IH. intros y Hy. by apply Hf, list_elem_of_further.
Qed.

Lemma steady_record_result P val_config_idx item_result :
  steady P (record_result val_config_idx item_result).
Proof.
  destruct item_result as [[[bug_id val_idx] patch] val_result].
  unfold record_result. apply steady_bind; [apply steady_get_validation|].
  intros vr. destruct (pydict.get bug_id (vr_result_dict vr)); [|apply steady_lift].
  apply steady_bind; [apply steady_lift|]. intros _. apply steady_set_validation.
Qed.

Lemma steady_run_batch (P : list WorkItem -> Prop) d4j_ val_config_idx batch :
  P batch -> steady P (run_batch d4j_ val_config_idx batch).
Proof.
  intros HP. unfold runner.run_batch.
  apply steady_bind; [apply steady_lift|]. intros _.
  apply steady_bind.
  { intros st. split; [done|]. exists [batch]. split; [done|]. by constructor. }
  intros _. apply steady_bind; [apply steady_outside|]. intros val_results.
  apply steady_bind; [|intros _; apply steady_save].
  apply steady_rforM. intros x _. apply steady_record_result.
Qed.

(** *** The transformed results keep distinct bug ids *)

Lemma after_bugs_wf raw : forall tr tr',
  pydict.wf (tr_result_dict tr) ->
  after_bugs to_average_results tr raw = Ok tr' ->
  pydict.wf (tr_result_dict tr').
Proof.
  induction raw as [|[bug_id files] raw IH]; intros tr tr' Hwf.
  - by intros [= <-].
  - cbn [after_bugs]. destruct (iter_files to_average_results files); [|done].
    simpl. apply IH. unfold after_bug. simpl. by apply wf_set.
Qed.

Definition transformed_wf st : Prop :=
  forall tr, transformed_result (report st) = Some tr ->
             pydict.wf (tr_result_dict tr).

Lemma transform_if_not_performed_wf st st1 :
  transformed_wf st ->
  transform_if_not_performed to_average_results st = (Ok tt, st1) ->
  transformed_wf st1.
Proof.
  intros Hwf. unfold transform_if_not_performed. rewrite rm_bind_unfold.
  unfold rm_get. destruct (transformed_result (report st)) as [tr|] eqn:Htr.
  - by intros [= <-].
  - intros (tr' & Hafter & ->)%transform_Ok. rewrite Htr in Hafter.
    intros tr0 [= <-]. eapply after_bugs_wf; [|exact Hafter].
    apply NoDup_nil_2.
Qed.

(** The rank has a validation result, of any earlier configuration. *)
Definition validated_before st (bug_id : string) (rank : nat) : Prop :=
  exists vr validated x,
    validation_result (report st) = Some vr /\
    pydict.get bug_id (vr_result_dict vr) = Some validated /\
    pydict.get rank validated = Some x.

(** What the claim asks of a batch given to the worker pool. *)
Definition batch_ok (config : ValidationConfig) st st' (batch : list WorkItem)
    : Prop :=
  (length batch <= n_cores config)%nat /\
  NoDup ((fun r : WorkItem => r.1.1) <$> batch) /\
  forall bug_id rank patch, (bug_id, rank, patch) ∈ batch ->
    is_duplicate patch = false /\ is_broken patch = false /\
    ~ validated_before st bug_id rank /\
    exists tr patches,
      transformed_result (report st') = Some tr /\
      (bug_id, patches) ∈ tr_result_dict tr /\
      patches !! rank = Some patch.

Ltac nothing_dispatched :=
  exists []; simpl; rewrite app_nil_r;
  split; [congruence|intros ? ?%elem_of_nil; done].

Lemma validate_run (config : ValidationConfig) st r st' :
  transformed_wf st ->
  validate config st = (r, st') ->
  exists new,
    dispatched st' = dispatched st ++ new /\
    forall batch, batch ∈ new -> batch_ok config st st' batch.
Proof.
  intros Hwf Hrun. unfold runner.validate in Hrun. rewrite rm_bind_unfold in Hrun.
  destruct (quiet_transform_if_not_performed st) as [Hd1 Hv1].
  pose proof (transform_if_not_performed_wf st) as Hwf1.
  destruct (transform_if_not_performed to_average_results st) as [[[]|e] st1];
    simpl in Hd1, Hv1; [|injection Hrun as <- <-; by nothing_dispatched].
  specialize (Hwf1 st1 Hwf eq_refl).
  rewrite rm_bind_unfold in Hrun. unfold rm_get at 1 in Hrun.
  rewrite rm_bind_unfold in Hrun. unfold rm_outside at 1 in Hrun.
  destruct (get_d4j ext (report st1) (outside st1)) as [[d4j_|e] w2];
    [|injection Hrun as <- <-; by nothing_dispatched].
  set (st2 := {| report := report st1; disk := disk st1; outside := w2;
                 dispatched := dispatched st1 |}) in Hrun.
  rewrite rm_bind_unfold in Hrun.
  destruct (transformed_result (report st1)) as [tr|] eqn:Htr.
  2: { unfold get_transformed in Hrun. rewrite rm_bind_unfold in Hrun.
       unfold rm_get in Hrun. simpl in Hrun. rewrite Htr in Hrun.
       injection Hrun as <- <-. by nothing_dispatched. }
  rewrite (get_transformed_run st2 tr) in Hrun by done.
  destruct (collect ext (bug_pattern config) (tr_result_dict tr)
              (vr_result_dict
                 (default {| validation_configs := []; vr_result_dict := [] |}
                    (validation_result (report st1)))))
    as [unvalidated vrd'] eqn:Hcollect.
  rewrite rm_bind_unfold in Hrun.
  match type of Hrun with context [set_validation ?vr st2] =>
    change (set_validation vr st2) with
      (Ok tt, (set_validation vr st2).2) in Hrun;
    set (st3 := (set_validation vr st2).2) in Hrun end.
  cbn iota in Hrun.
  assert (Htr3 : transformed_result (report st3) = Some tr) by done.
  assert (Hd3 : dispatched st3 = dispatched st) by done.
  set (P := fun batch : list WorkItem => batch ∈ batches (n_cores config) unvalidated).
  match type of Hrun with context [rforM_ ?l ?f st3] =>
    assert (Hsteady : steady P (rforM_ l f));
      [|destruct (Hsteady st3) as (Htr' & new & Hnew & HP)] end.
  { apply steady_rforM. intros batch Hbatch. by apply steady_run_batch. }
  rewrite Hrun in Htr', Hnew. cbn [snd] in Htr', Hnew.
  exists new. split; [by rewrite Hnew, Hd3|].
  intros batch Hbatch. rewrite Forall_forall in HP. specialize (HP batch Hbatch).
  destruct (batches_spec _ _ _ _ _ _ _ _ (Hwf1 tr Htr) Hcollect HP)
    as (Hlen & Hnodup & Helig).
  split; [done|]. split; [done|].
  intros bug_id rank patch Hitem.
  destruct (Helig _ Hitem) as (patches & Hin & Hrank & Hdup & Hbroken & Hval).
  simpl in Hin, Hrank, Hdup, Hbroken, Hval.
  split; [done|]. split; [done|]. split.
  - intros (vr & validated & x & Hvr & Hget & Hx).
    rewrite Hv1, Hvr in Hval. simpl in Hval. rewrite Hget in Hval. simpl in Hval.
    congruence.
  - exists tr, patches. rewrite Htr', Htr3. done.
Qed.

(** C5. In every execution of [validate], returning or not, from a report
    whose transformed results (if any) have distinct bug ids: every batch
    given to the worker pool has at most [n_cores] items and no two items of
    the same bug, and each of its items is a recorded patch of its bug at its
    rank that is not a duplicate, not broken, and whose rank had no validation
    result when [validate] was called; and whatever the transformed and
    validation results, an item is put on the list of its bug only if it is
    such a patch. *)
Theorem validate_batches (config : ValidationConfig) st :
  transformed_wf st ->
  (exists new,
     dispatched (validate config st).2 = dispatched st ++ new /\
     forall batch, batch ∈ new ->
       batch_ok config st (validate config st).2 batch) /\
  (forall items vrd unvalidated vrd' l item,
     collect ext (bug_pattern config) items vrd = (unvalidated, vrd') ->
     l ∈ unvalidated -> item ∈ l -> eligible items vrd item).
Proof.
  intros Hwf. split.
  - destruct (validate config st) as [r st'] eqn:Hrun.
    by apply (validate_run config st r st').
  - intros items vrd unvalidated vrd' l item. apply collect_eligible.
Qed.

End validate_facts.

(** ** runner.py: examples for transform and validate *)

Section runner_examples.
Import text results runner.

(** One averaged result per sampled result. *)
Definition per_result (b : SynthesisResultBatch) : list AvgSynthesisResult :=
  (fun r => {| result := r |}) <$> batch_results b.

Definition synthesized (s : string) : SynthesisResult :=
  {| hunk := Some s; is_pruned_halfway := false; is_unfinished := false |}.
Definition pruned : SynthesisResult :=
  {| hunk := None; is_pruned_halfway := true; is_unfinished := false |}.

Definition hunk_rounds (rounds : list (list SynthesisResult)) : HunkRepairResult :=
  {| buggy_hunk := {| file := foo_file; start := 3; end_ := 7 |};
     results := (fun b => {| synthesis_result_batch := {| batch_results := b |} |})
                <$> rounds |}.

(** Lang-1: one file with two hunks, two rounds of two samples; Chart-1: one
    file with one hunk, one round of three samples. *)
Definition two_bugs : RepairResult :=
  {| rr_result_dict :=
       [("Lang-1",
         [[hunk_rounds [[synthesized "a"; synthesized "b"];
                        [synthesized "a"; pruned]];
           hunk_rounds [[synthesized "x"; synthesized "y"];
                        [synthesized "x"; synthesized ""]]]]);
        ("Chart-1",
         [[hunk_rounds [[pruned; synthesized "q"; synthesized "q"]]]])] |}.

Definition fresh_report : Report :=
  {| config := {| results.d4j_home := "/d4j"; results.d4j_checkout_root := "/co";
                  results.java8_home := "/jdk8" |};
     repair_result := two_bugs;
     transformed_result := None;
     validation_result := None |}.

Definition fresh_state : RunnerState :=
  {| report := fresh_report; disk := None; outside := empty_world;
     dispatched := [] |}.

Definition transformed_state : RunnerState :=
  (transform per_result fresh_state).2.

(** The joined text and the flag of each recorded patch. *)
Definition flags_of (st : RunnerState) : list (string * list (string * bool)) :=
  match transformed_result (report st) with
  | Some tr =>
      (fun kv : string * list AvgPatch =>
         (kv.1, (fun p => (concat_hunk_str (file_patches p), is_duplicate p))
                <$> kv.2)) <$> tr_result_dict tr
  | None => []
  end.

Definition seen_of (st : RunnerState) : list (string * list string) :=
  match transformed_result (report st) with
  | Some tr =>
      (fun kv : string * gset string => (kv.1, elements kv.2)) <$> all_appeared tr
  | None => []
  end.

Lemma transform_fresh_state :
  transform per_result fresh_state = (Ok tt, transformed_state).
Proof. vm_compute. reflexivity. Qed.

Example transform_fresh_flags :
  flags_of transformed_state
  = [("Lang-1", [("ax", false); ("by", false); ("ax", true); ("", false)]);
     ("Chart-1", [("", false); ("q", false); ("q", true)])]
  /\ seen_of transformed_state = [("Lang-1", ["ax"; "by"]); ("Chart-1", ["q"])].
Proof. split; vm_compute; reflexivity. Qed.

Lemma two_bugs_wf : pydict.wf (rr_result_dict two_bugs).
Proof. apply (bool_decide_unpack _). vm_compute. exact I. Qed.

Lemma transform_marks_duplicates_witness :
  exists tr',
    transformed_result (report transformed_state) = Some tr' /\
    forall bug_id files,
      (bug_id, files) ∈ rr_result_dict two_bugs ->
      exists cands patches appeared,
        iter_files per_result files = Ok cands /\
        pydict.get bug_id (tr_result_dict tr') = Some patches /\
        pydict.get bug_id (all_appeared tr') = Some appeared /\
        deduplicated cands patches appeared.
Proof.
  apply (transform_marks_duplicates per_result fresh_state transformed_state).
  - exact two_bugs_wf.
  - apply fresh_resumable. reflexivity.
  - exact transform_fresh_state.
Defined.

Lemma transform_twice_witness :
  transform per_result transformed_state = (Ok tt, transformed_state).
Proof.
  apply (transform_twice per_result fresh_state transformed_state).
  exact transform_fresh_state.
Defined.

(** Bug A with three patches to validate, bug B with one; two cores. *)
Definition plain_patch (s : string) : AvgPatch :=
  {| file_patches := [candidate s]; is_duplicate := false |}.

Definition a_and_b : Report :=
  {| config := {| results.d4j_home := "/d4j"; results.d4j_checkout_root := "/co";
                  results.java8_home := "/jdk8" |};
     repair_result := {| rr_result_dict := [] |};
     transformed_result :=
       Some {| tr_result_dict :=
                 [("A-1", [plain_patch "a0"; plain_patch "a1"; plain_patch "a2"]);
                  ("B-1", [plain_patch "b0"])];
               all_appeared := [("A-1", {["a0"; "a1"; "a2"]}); ("B-1", {["b0"]})] |};
     validation_result := None |}.

Definition a_and_b_state : RunnerState :=
  {| report := a_and_b; disk := None; outside := empty_world; dispatched := [] |}.

Definition two_cores : ValidationConfig := {| bug_pattern := ".*"; n_cores := 2 |}.

(** A pool that answers every job with a success, without running it. *)
Definition idle_pool (n_jobs : nat) (jobs : list (M PatchValidationResult))
    : M (list PatchValidationResult) :=
  mret ((fun _ => {| outcome := Success; time_cost := 0; pv_stdout := "";
                     pv_stderr := "" |}) <$> jobs).

Definition validate_a_and_b : res unit * RunnerState :=
  validate quiet_external per_result materialize "----" idle_pool two_cores
    a_and_b_state.

Example validate_a_and_b_batches :
  validate_a_and_b.1 = Ok tt /\
  (fun batch : list WorkItem => (fun item : WorkItem => item.1) <$> batch)
    <$> dispatched validate_a_and_b.2
  = [[("A-1", 0%nat); ("B-1", 0%nat)]; [("A-1", 1%nat)]; [("A-1", 2%nat)]].
Proof. split; vm_compute; reflexivity. Qed.

Lemma a_and_b_wf : transformed_wf a_and_b_state.
Proof.
  intros tr [= <-]. apply (bool_decide_unpack _). vm_compute. exact I.
Qed.

Lemma validate_batches_witness :
  (exists new,
     dispatched validate_a_and_b.2 = dispatched a_and_b_state ++ new /\
     forall batch, batch ∈ new ->
       batch_ok two_cores a_and_b_state validate_a_and_b.2 batch) /\
  (forall items vrd unvalidated vrd' l item,
     collect quiet_external (bug_pattern two_cores) items vrd = (unvalidated, vrd') ->
     l ∈ unvalidated -> item ∈ l -> eligible items vrd item).
Proof.
  exact (validate_batches quiet_external per_result materialize "----" idle_pool
           two_cores a_and_b_state a_and_b_wf).
Defined.

End runner_examples.

(** * Further properties of the code *)

(** ** d4j.py: bug ids *)

Section bug_id_facts.
Import d4j.

(** How many times a character occurs in a string. *)
Fixpoint count_char (c : ascii) (s : string) : nat :=
  match s with
  | EmptyString => 0
  | String a s' => (if decide (a = c) then 1 else 0) + count_char c s'
  end.

Lemma split_on_cons sep s : exists w ws, split_on sep s = w :: ws.
Proof.
  induction s as [|c s (w & ws & IH)]; simpl; [by eexists _, _|].
  destruct (decide (c = sep)); [by eexists _, _|]. rewrite IH. by eexists _, _.
Qed.

(** A string splits at its first separator, if it has one. *)
Lemma split_on_first sep s :
  (count_char sep s = 0%nat /\ split_on sep s = [s]) \/
  (exists p r, s = p +:+ String sep r /\ count_char sep p = 0%nat /\
               count_char sep s = S (count_char sep r) /\
               split_on sep s = p :: split_on sep r).
Proof.
  induction s as [|c s IH]; [by left|]. simpl.
  destruct (decide (c = sep)) as [->|Hne].
  - right. exists "", s. by repeat split.
  - destruct IH as [[Hc Hs]|(p & r & -> & Hp & Hc & Hs)].
    + left. by rewrite Hs, Hc.
    + right. exists (String c p), r. rewrite Hs. simpl.
      rewrite decide_False by done. by repeat split.
Qed.

Lemma split_on_length sep s : length (split_on sep s) = S (count_char sep s).
Proof.
  induction s as [|c s IH]; [done|]. simpl.
  destruct (decide (c = sep)); simpl; [by rewrite IH|].
  destruct (split_on_cons sep s) as (w & ws & Hs). rewrite Hs in IH |- *.
  simpl in *. lia.
Qed.

Lemma count_char_app c s t :
  count_char c (s +:+ t) = (count_char c s + count_char c t)%nat.
Proof.
  induction s as [|a s IH]; [done|].
  change (String a s +:+ t) with (String a (s +:+ t)). simpl. rewrite IH. lia.
Qed.

Lemma form_bug_id_eq proj id_str :
  form_bug_id proj id_str = proj +:+ String "-" id_str.
Proof. reflexivity. Qed.

(** X1. An id formed from a project name and an id string that contain no
    dash splits back into the two. *)
Theorem split_bug_id_form_bug_id (proj id_str : string) :
  count_char "-" proj = 0%nat -> count_char "-" id_str = 0%nat ->
  split_bug_id (form_bug_id proj id_str) = Ok (proj, id_str).
Proof.
  intros Hp Hi. unfold split_bug_id. rewrite form_bug_id_eq.
  destruct (split_on_first "-" (proj +:+ String "-" id_str))
    as [[Hc _]|(p & r & Heq & Hpc & _ & ->)].
  { rewrite count_char_app in Hc. simpl in Hc. lia. }
  assert (p = proj /\ r = id_str) as [-> ->].
  { clear Hi. revert p Heq Hpc.
    induction proj as [|a proj IH]; intros [|b p] Heq Hpc.
    - by injection Heq as ->.
    - injection Heq as <- _. simpl in Hpc. done.
    - injection Heq as -> _. simpl in Hp. done.
    - injection Heq as -> Heq. simpl in Hp, Hpc.
      destruct (decide (b = "-"%char)); [done|].
      destruct (IH Hp p Heq Hpc) as [-> ->]. done. }
  destruct (split_on_first "-" id_str) as [[_ ->]|(p & r & _ & _ & Hc & _)]; [done|].
  lia.
Qed.

Lemma split_bug_id_form_bug_id_witness :
  split_bug_id (form_bug_id "Closure" "103") = Ok ("Closure", "103").
Proof.
  apply (split_bug_id_form_bug_id "Closure" "103"); reflexivity.
Defined.

(** X2. [split_bug_id] returns exactly on the ids with one dash; the parts it
    returns have no dash and form the id again. On any other id it raises
    [ValueError]. *)
Theorem split_bug_id_one_dash (bug_id : string) :
  (count_char "-" bug_id = 1%nat /\
   exists proj id_str,
     split_bug_id bug_id = Ok (proj, id_str) /\
     form_bug_id proj id_str = bug_id /\
     count_char "-" proj = 0%nat /\ count_char "-" id_str = 0%nat) \/
  (count_char "-" bug_id <> 1%nat /\ split_bug_id bug_id = Raise ValueError).
Proof.
  unfold split_bug_id.
  destruct (split_on_first "-" bug_id) as [[Hc ->]|(p & r & -> & Hp & Hc & ->)].
  { right. split; [lia|done]. }
  destruct (split_on_first "-" r) as [[Hr ->]|(p' & r' & -> & Hp' & Hr & ->)].
  - left. split; [lia|]. by exists p, r.
  - right. split; [lia|].
    destruct (split_on_cons "-" r') as (w & ws & ->). done.
Qed.

(** ** d4j.py: the hunks of a bug *)

Lemma length_list_bind {A B} (f : A -> list B) (l : list A) :
  length (l ≫= f) = sum_list ((fun x => length (f x)) <$> l).
Proof.
  induction l as [|x l IH]; [done|].
  rewrite bind_cons, length_app, IH. done.
Qed.

Lemma fmap_list_bind {A B C} (g : B -> C) (f : A -> list B) (l : list A) :
  g <$> (l ≫= f) = l ≫= (fun x => g <$> f x).
Proof.
  induction l as [|x l IH]; [done|].
  by rewrite !bind_cons, fmap_app, IH.
Qed.

Lemma fmap_imap_pair {A B} (h : A -> B) (l : list A) :
  (fun '(_, x) => h x) <$> imap pair l = h <$> l.
Proof.
  rewrite fmap_imap. rewrite <- (imap_const h). by apply imap_ext.
Qed.

(** X3. [iter_hunks] yields a hunk under the id [(i, j)] exactly when it is
    change [j] of buggy file [i]; no id is yielded twice, and there are as
    many hunks as the files have changes. *)
Theorem iter_hunks_ids (bug : Bug) :
  (forall i j f c,
     ((i, j), f, c) ∈ iter_hunks bug <->
     buggy_files bug !! i = Some f /\ changes f !! j = Some c) /\
  NoDup ((fun h => h.1.1) <$> iter_hunks bug) /\
  length (iter_hunks bug)
  = sum_list ((fun f => length (changes f)) <$> buggy_files bug).
Proof.
  unfold iter_hunks. split; [|split].
  - intros i j f c. rewrite list_elem_of_bind. split.
    + intros ([i' f'] & Hin & Hf).
      apply list_elem_of_bind in Hin as ([j' c'] & Hin & Hc).
      apply list_elem_of_singleton in Hin. injection Hin as -> -> -> ->.
      apply elem_of_lookup_imap in Hf as (? & ? & [= <- <-] & Hf).
      apply elem_of_lookup_imap in Hc as (? & ? & [= <- <-] & Hc). done.
    + intros [Hf Hc]. exists (i, f). split.
      * apply list_elem_of_bind. exists (j, c). split; [apply list_elem_of_here|].
        apply elem_of_lookup_imap. by exists j, c.
      * apply elem_of_lookup_imap. by exists i, f.
  - rewrite fmap_list_bind. apply NoDup_bind.
    + intros [i1 f1] [i2 f2] [i j] H1 H2 Hy1 Hy2.
      apply elem_of_lookup_imap in H1 as (? & ? & [= <- <-] & H1).
      apply elem_of_lookup_imap in H2 as (? & ? & [= <- <-] & H2).
      apply list_elem_of_fmap in Hy1 as ([[? ?] ?] & Heq1 & Hy1).
      apply list_elem_of_bind in Hy1 as ([? ?] & Hy1 & _).
      apply list_elem_of_singleton in Hy1. simplify_eq/=.
      apply list_elem_of_fmap in Hy2 as ([[? ?] ?] & Heq2 & Hy2).
      apply list_elem_of_bind in Hy2 as ([? ?] & Hy2 & _).
      apply list_elem_of_singleton in Hy2. simplify_eq/=. done.
    + intros [i f] _. rewrite fmap_list_bind.
      apply NoDup_bind.
      * intros [j1 c1] [j2 c2] y H1 H2 Hy1 Hy2. simpl in Hy1, Hy2.
        apply list_elem_of_singleton in Hy1, Hy2. subst y. injection Hy2 as <-.
        apply elem_of_lookup_imap in H1 as (? & ? & [= <- <-] & H1).
        apply elem_of_lookup_imap in H2 as (? & ? & [= <- <-] & H2). congruence.
      * intros [j c] _. simpl. apply NoDup_singleton.
      * apply NoDup_alt. intros j1 j2 [j c] H1 H2.
        apply list_lookup_imap_Some in H1 as (? & _ & [= -> _]).
        apply list_lookup_imap_Some in H2 as (? & _ & [= -> _]). done.
    + apply NoDup_alt. intros i1 i2 [i f] H1 H2.
      apply list_lookup_imap_Some in H1 as (? & _ & [= -> _]).
      apply list_lookup_imap_Some in H2 as (? & _ & [= -> _]). done.
  - rewrite length_list_bind.
    rewrite <- (fmap_imap_pair (fun f => length (changes f))).
    f_equal. apply list_fmap_ext. intros _ [i f] _.
    rewrite length_list_bind.
    rewrite (list_fmap_ext _ (fun _ => 1%nat) (imap pair (changes f)))
      by (by intros ? [? ?] _).
    rewrite sum_list_fmap_const, length_imap. lia.
Qed.

End bug_id_facts.

(** ** d4j.py: more on the extraction of changes *)

Section from_patch_file_more.
Import unidiff utils d4j.

Lemma last_cons_default {A} (x : A) (l : list A) :
  last (x :: l) = Some (default x (last l)).
Proof.
  revert x. induction l as [|y l IH]; intros x; [done|].
  change (last (x :: y :: l)) with (last (y :: l)). by rewrite IH.
Qed.

(** Context lines are passed over, the last of them is remembered. *)
Lemma loop_context_prefix_last pre : forall lc n reversed rest ch,
  Forall (fun l => is_context l = true) pre ->
  from_patch_loop (length pre + n) reversed lc (pre ++ rest) ch =
  from_patch_loop n reversed (default lc (last pre)) rest ch.
Proof.
  induction pre as [|x pre IH]; intros lc n reversed rest ch Hall; [done|].
  apply Forall_cons in Hall as [Hx Hall].
  simpl length. simpl app. rewrite Nat.add_succ_l.
  rewrite loop_plain_step by by apply context_is_plain.
  rewrite Hx, IH by done. by rewrite last_cons_default.
Qed.

(** Lines that are neither context, added nor removed leave the remembered
    line as it is. *)
Lemma loop_other_prefix pre : forall lc n reversed rest ch,
  Forall (fun l => plain_line l /\ is_context l = false) pre ->
  from_patch_loop (length pre + n) reversed lc (pre ++ rest) ch =
  from_patch_loop n reversed lc rest ch.
Proof.
  induction pre as [|x pre IH]; intros lc n reversed rest ch Hall; [done|].
  apply Forall_cons in Hall as [[Hx Hc] Hall].
  simpl length. simpl app. rewrite Nat.add_succ_l.
  rewrite loop_plain_step by done. rewrite Hc. by apply IH.
Qed.

(** X4. A patch in which no line after the first one is added or removed
    (in particular an empty patch, or context lines only) has no change,
    whatever its first line is: the first line is only ever taken as the
    remembered context line. *)
Theorem from_patch_file_no_change (reversed : bool) (patch_file : PatchedFile) :
  Forall plain_line (tail (concat (hunks patch_file))) ->
  from_patch_file reversed patch_file
  = Ok {| path := remove_prefix (source_file patch_file); changes := [] |}.
Proof.
  intros Hplain. unfold from_patch_file.
  destruct (concat (hunks patch_file)) as [|first rest]; [done|].
  simpl in Hplain. rewrite loop_plain_rest by (done || lia). done.
Qed.

Definition lone_added_line : PatchedFile :=
  {| source_file := "b/src/Foo.java"; is_modified_file := true;
     hunks := [[ {| source_line_no := None; target_line_no := Some 1%Z;
                    line_type := "+"; value := "import x;" |};
                 {| source_line_no := Some 1%Z; target_line_no := Some 2%Z;
                    line_type := " "; value := "class Foo {" |} ]] |}.

Lemma from_patch_file_no_change_witness :
  from_patch_file true lone_added_line
  = Ok {| path := "src/Foo.java"; changes := [] |}.
Proof.
  apply (from_patch_file_no_change true lone_added_line).
  repeat constructor.
Defined.

(** X5. An added or removed line that no context line precedes (the lines
    before it are neither context, added nor removed, the first line apart,
    which is no context line either) stops the extraction on its
    assertion. *)
Theorem from_patch_file_needs_context (reversed : bool) (first x : Line)
    (pre rest : list Line) (src : string) (modified : bool) :
  is_context first = false ->
  Forall (fun l => plain_line l /\ is_context l = false) pre ->
  is_added x = true \/ is_removed x = true ->
  from_patch_file reversed
    {| source_file := src; is_modified_file := modified;
       hunks := [first :: pre ++ x :: rest] |}
  = Raise AssertionError.
Proof.
  intros Hfirst Hpre Hx. unfold from_patch_file. cbn [hunks concat].
  rewrite app_nil_r.
  replace (S (length (pre ++ x :: rest)))
    with (length pre + S (S (length rest)))%nat
    by (rewrite length_app; simpl; lia).
  rewrite loop_other_prefix by done.
  cbn [from_patch_loop]. destruct Hx as [Hx|Hx].
  - rewrite Hx, Hfirst. done.
  - destruct (is_added x); rewrite ?Hx, Hfirst; done.
Qed.

Lemma from_patch_file_needs_context_witness :
  from_patch_file true
    {| source_file := "a/src/Foo.java"; is_modified_file := true;
       hunks := [[ {| source_line_no := Some 1%Z; target_line_no := None;
                      line_type := "-"; value := "old" |};
                   {| source_line_no := None; target_line_no := Some 1%Z;
                      line_type := "+"; value := "new" |} ]] |}
  = Raise AssertionError.
Proof.
  apply (from_patch_file_needs_context true _ _ [] []).
  - reflexivity.
  - constructor.
  - left. reflexivity.
Defined.

(** One turn of the loop at an added line. *)
Lemma loop_added_step n reversed lc x l ch :
  is_added x = true -> is_context lc = true ->
  from_patch_loop (S n) reversed lc (x :: l) ch =
  let '(added, _, l1) :=
    take_while_two (fun _ => true) line_consecutive [x] l in
  c ← make_change reversed lc [] added;
  from_patch_loop n reversed lc l1 (ch ++ [c]).
Proof. intros Ha Hc. simpl. by rewrite Ha, Hc. Qed.

(** What is collected from one added or removed line that plain lines
    follow. *)
Lemma take_one_then_plain (x : Line) (post : list Line) :
  Forall plain_line post ->
  is_added x = true \/ is_removed x = true ->
  exists front under,
    take_while_two (fun _ => true) line_consecutive [x] post = ([x], front, under) /\
    Forall plain_line front /\ Forall plain_line under /\
    (length under <= length post)%nat.
Proof.
  intros Hpost Hx. destruct post as [|p post].
  - exists [], []. by repeat split.
  - apply Forall_cons in Hpost as [[Hpa Hpr] Hpost].
    exists [p], post. split; [|repeat split; try done; [by repeat constructor|simpl; lia]].
    unfold take_while_two. cbn [take_front take_under]. unfold admits.
    cbn [andb]. unfold line_consecutive. rewrite Hpa, Hpr.
    by rewrite !andb_false_r.
Qed.

Lemma take_added_of_plain (front under : list Line) :
  Forall plain_line front -> Forall plain_line under ->
  exists front' under',
    take_while_two is_added line_consecutive front under = ([], front', under') /\
    Forall plain_line under' /\ (length under' <= length under)%nat.
Proof.
  intros Hfront Hunder. unfold take_while_two.
  destruct front as [|p front].
  - cbn [take_front]. destruct under as [|q under].
    + by exists [], [].
    + apply Forall_cons in Hunder as [[Hqa _] Hunder].
      exists [q], under. cbn [take_under]. unfold admits. rewrite Hqa.
      split; [done|]. split; [done|simpl; lia].
  - apply Forall_cons in Hfront as [[Hpa _] _].
    exists (p :: front), under. cbn [take_front]. unfold admits. rewrite Hpa.
    by split.
Qed.

(** X6. One added line after context lines, followed by lines that are
    neither added nor removed: without reversal it is an insertion of that
    line at the line after the last context line (source numbering); with
    reversal it is the removal of that line at its own target number. *)
Theorem from_patch_file_added_line (c0 : Line) (pre post : list Line)
    (v : string) (t n : Z) (src : string) (modified : bool) :
  Forall (fun l => is_context l = true) (c0 :: pre) ->
  Forall plain_line post ->
  source_line_no (default c0 (last pre)) = Some n ->
  let a := {| source_line_no := None; target_line_no := Some t;
              line_type := "+"; value := v |} in
  let patch_file := {| source_file := src; is_modified_file := modified;
                       hunks := [c0 :: pre ++ a :: post] |} in
  from_patch_file false patch_file =
    Ok {| path := remove_prefix src;
          changes := [{| start := (1 + n)%Z; removed_lines := [];
                         added_lines := [v] |}] |}
  /\ from_patch_file true patch_file =
    Ok {| path := remove_prefix src;
          changes := [{| start := t; removed_lines := [v];
                         added_lines := [] |}] |}.
Proof.
  intros Hpre Hpost Hn a patch_file.
  apply Forall_cons in Hpre as [Hc0 Hpre].
  assert (Hlc : is_context (default c0 (last pre)) = true).
  { destruct (last pre) as [l|] eqn:Hl; [|done]. simpl.
    apply last_Some_elem_of in Hl. rewrite Forall_forall in Hpre. by apply Hpre. }
  destruct (take_one_then_plain a post Hpost (or_introl eq_refl))
    as (front & under & Htake & _ & Hunder & Hlen).
  assert (Hrun : forall reversed c,
    make_change reversed (default c0 (last pre)) [] [a] = Ok c ->
    from_patch_file reversed patch_file
    = Ok {| path := remove_prefix src; changes := [c] |}).
  { intros reversed c Hc. unfold from_patch_file. cbn [hunks concat patch_file].
    rewrite app_nil_r.
    replace (S (length (pre ++ a :: post)))
      with (length pre + S (S (length post)))%nat
      by (rewrite length_app; simpl; lia).
    rewrite loop_context_prefix_last by done.
    rewrite loop_added_step by done.
    rewrite Htake. lazy beta match zeta. rewrite Hc.
    cbn [mbind result_bind rbind app].
    rewrite loop_plain_rest by (done || lia). done. }
  split; apply Hrun; unfold make_change; simpl.
  - unfold line_no. by rewrite Hn.
  - done.
Qed.

Lemma from_patch_file_added_line_witness :
  let patch_file :=
    {| source_file := "a/src/Foo.java"; is_modified_file := true;
       hunks := [ {| source_line_no := Some 9%Z; target_line_no := Some 9%Z;
                     line_type := " "; value := "int x;" |}
                  :: [] ++
                  {| source_line_no := None; target_line_no := Some 10%Z;
                     line_type := "+"; value := "x = 1;" |}
                  :: [ {| source_line_no := Some 10%Z; target_line_no := Some 11%Z;
                          line_type := " "; value := "}" |} ] ] |} in
  from_patch_file false patch_file =
    Ok {| path := remove_prefix "a/src/Foo.java";
          changes := [{| start := (1 + 9)%Z; removed_lines := [];
                         added_lines := ["x = 1;"] |}] |}
  /\ from_patch_file true patch_file =
    Ok {| path := remove_prefix "a/src/Foo.java";
          changes := [{| start := 10%Z; removed_lines := ["x = 1;"];
                         added_lines := [] |}] |}.
Proof.
  apply (from_patch_file_added_line _ [] _ "x = 1;" 10 9 "a/src/Foo.java" true).
  - repeat constructor.
  - repeat constructor.
  - reflexivity.
Defined.

(** X7. One removed line after context lines, followed by lines that are
    neither added nor removed: without reversal it is the removal of that
    line at its own source number; with reversal (how the stored patches of
    the benchmark are read) it is an insertion of that line at the line after
    the last context line (target numbering). *)
Theorem from_patch_file_removed_line (c0 : Line) (pre post : list Line)
    (v : string) (s m : Z) (src : string) (modified : bool) :
  Forall (fun l => is_context l = true) (c0 :: pre) ->
  Forall plain_line post ->
  target_line_no (default c0 (last pre)) = Some m ->
  let r := {| source_line_no := Some s; target_line_no := None;
              line_type := "-"; value := v |} in
  let patch_file := {| source_file := src; is_modified_file := modified;
                       hunks := [c0 :: pre ++ r :: post] |} in
  from_patch_file false patch_file =
    Ok {| path := remove_prefix src;
          changes := [{| start := s; removed_lines := [v];
                         added_lines := [] |}] |}
  /\ from_patch_file true patch_file =
    Ok {| path := remove_prefix src;
          changes := [{| start := (1 + m)%Z; removed_lines := [];
                         added_lines := [v] |}] |}.
Proof.
  intros Hpre Hpost Hm r patch_file.
  apply Forall_cons in Hpre as [Hc0 Hpre].
  assert (Hlc : is_context (default c0 (last pre)) = true).
  { destruct (last pre) as [l|] eqn:Hl; [|done]. simpl.
    apply last_Some_elem_of in Hl. rewrite Forall_forall in Hpre. by apply Hpre. }
  destruct (take_one_then_plain r post Hpost (or_intror eq_refl))
    as (front & under & Htake & Hfront & Hunder & Hlen).
  destruct (take_added_of_plain front under Hfront Hunder)
    as (front' & under' & Htake' & Hunder' & Hlen').
  assert (Hrun : forall reversed c,
    make_change reversed (default c0 (last pre)) [r] [] = Ok c ->
    from_patch_file reversed patch_file
    = Ok {| path := remove_prefix src; changes := [c] |}).
  { intros reversed c Hc. unfold from_patch_file. cbn [hunks concat patch_file].
    rewrite app_nil_r.
    replace (S (length (pre ++ r :: post)))
      with (length pre + S (S (length post)))%nat
      by (rewrite length_app; simpl; lia).
    rewrite loop_context_prefix_last by done.
    rewrite loop_removed_step by done.
    rewrite Htake. lazy beta match zeta. rewrite Htake'. lazy beta match zeta.
    rewrite Hc. cbn [mbind result_bind rbind app].
    rewrite loop_plain_rest by (done || lia). done. }
  split; apply Hrun; unfold make_change; simpl.
  - done.
  - unfold line_no. by rewrite Hm.
Qed.

Lemma from_patch_file_removed_line_witness :
  let patch_file :=
    {| source_file := "a/src/Foo.java"; is_modified_file := true;
       hunks := [ {| source_line_no := Some 9%Z; target_line_no := Some 9%Z;
                     line_type := " "; value := "int x;" |}
                  :: [] ++
                  {| source_line_no := Some 10%Z; target_line_no := None;
                     line_type := "-"; value := "x = 1;" |}
                  :: [ {| source_line_no := Some 11%Z; target_line_no := Some 10%Z;
                          line_type := " "; value := "}" |} ] ] |} in
  from_patch_file false patch_file =
    Ok {| path := remove_prefix "a/src/Foo.java";
          changes := [{| start := 10%Z; removed_lines := ["x = 1;"];
                         added_lines := [] |}] |}
  /\ from_patch_file true patch_file =
    Ok {| path := remove_prefix "a/src/Foo.java";
          changes := [{| start := (1 + 9)%Z; removed_lines := [];
                         added_lines := ["x = 1;"] |}] |}.
Proof.
  apply (from_patch_file_removed_line _ [] _ "x = 1;" 10 9 "a/src/Foo.java" true).
  - repeat constructor.
  - repeat constructor.
  - reflexivity.
Defined.

End from_patch_file_more.

(** ** d4j.py: compile, test and checkout *)

Section command_facts.
Import d4j.
Context (ext : External).

Definition compile_cmd (self : Defects4J) (bug : Bug) : Cmd :=
  {| argv := [d4j_executable self; "compile"]; cwd := Some (proj_path bug);
     java_home := Some (java8_home self); timeout := None |}.

Definition test_cmd (self : Defects4J) (bug : Bug) (timeout : Z)
    (entire_test_suite : bool) : Cmd :=
  {| argv := [d4j_executable self; "test"]
             ++ (if entire_test_suite then [] else ["-r"]);
     cwd := Some (proj_path bug); java_home := Some (java8_home self);
     timeout := Some timeout |}.

Lemma key_Ok {V} (k : string) (d : list (string * V)) v :
  key k d = Ok v <-> pydict.get k d = Some v.
Proof. unfold key. destruct (pydict.get k d); split; congruence. Qed.

Lemma key_None {V} (k : string) (d : list (string * V)) :
  pydict.get k d = None -> key k d = Raise KeyError.
Proof. unfold key. by intros ->. Qed.

(** X8. When [compile] returns, it has run one command, the benchmark's
    compile in the project directory under the Java 8 home; it reports the
    output of that command, success exactly when the exit status is 0, and
    then exactly when the error output does not contain "FAIL". *)
Theorem compile_verdict (self : Defects4J) bug_id w success out err w' :
  compile ext self bug_id w = (Ok (success, out, err), w') ->
  exists bug r,
    pydict.get bug_id (all_bugs self) = Some bug /\
    trace w' = trace w ++ [ERun (compile_cmd self bug)] /\
    subprocess_run ext (compile_cmd self bug) (fs w) = (fs w', Some r) /\
    out = stdout r /\ err = stderr r /\
    (success = true <-> returncode r = 0%Z) /\
    (success = true <-> str_contains "FAIL" err = false).
Proof.
  unfold compile. intros (bug & w1 & Hbug & H)%bind_Ok.
  apply lift_Ok in Hbug as [Hbug%key_Ok ->].
  apply bind_Ok in H as (r & w2 & Hrun & H). apply run_Ok in Hrun as [Ht Hsub].
  apply bind_Ok in H as (u & w3 & Hassert & H).
  apply massert_Ok in Hassert as [Hassert ->].
  apply ret_Ok in H as [[= -> -> ->] ->].
  exists bug, r. split; [done|]. split; [done|]. split; [done|].
  split; [done|]. split; [done|]. split; [apply bool_decide_eq_true|].
  destruct (bool_decide (returncode r = 0%Z)).
  - by rewrite negb_true_iff in Hassert.
  - rewrite Hassert. done.
Qed.

(** The one command of a test run that returns. *)
Lemma test_with_option_trace (self : Defects4J) bug_id timeout entire w r w' :
  test_with_option ext self bug_id timeout entire w = (Ok r, w') ->
  exists bug,
    pydict.get bug_id (all_bugs self) = Some bug /\
    trace w' = trace w ++ [ERun (test_cmd self bug timeout entire)].
Proof.
  unfold test_with_option. intros (bug & w1 & Hbug & H)%bind_Ok.
  apply lift_Ok in Hbug as [Hbug%key_Ok ->].
  apply bind_Ok in H as (c & w2 & Hrun & H). apply run_Ok in Hrun as [Ht _].
  apply bind_Ok in H as (e & w3 & He & H). apply path_exists_Ok in He as ->.
  apply bind_Ok in H as (u & w3 & Hassert & H).
  apply massert_Ok in Hassert as [_ ->].
  apply bind_Ok in H as (w0 & w3 & Hget & H). injection Hget as <- <-.
  apply bind_Ok in H as (content & w3 & Hcontent & H).
  destruct (fs w2 !! pjoin (proj_path bug) "failing_tests"); [|done].
  apply ret_Ok in Hcontent as [_ ->].
  apply bind_Ok in H as (u' & w3 & Hassert & H).
  apply massert_Ok in Hassert as [_ ->].
  apply ret_Ok in H as [_ ->]. by exists bug.
Qed.

(** X9. When a test run returns, it has run one command, the benchmark's
    test (with [-r] unless the entire suite is asked for) under the given
    timeout; its verdict is read from the file [failing_tests] of the
    project: success exactly when that file holds only white space, and then
    exactly when the output starts with "Failing tests: 0". *)
Theorem test_with_option_verdict (self : Defects4J) bug_id timeout entire w
    success out err w' :
  test_with_option ext self bug_id timeout entire w = (Ok (success, out, err), w') ->
  exists bug r content,
    pydict.get bug_id (all_bugs self) = Some bug /\
    trace w' = trace w ++ [ERun (test_cmd self bug timeout entire)] /\
    subprocess_run ext (test_cmd self bug timeout entire) (fs w) = (fs w', Some r) /\
    out = stdout r /\ err = stderr r /\
    fs w' !! pjoin (proj_path bug) "failing_tests" = Some content /\
    success = forallb is_space content /\
    (success = true <-> startswith out "Failing tests: 0" = true).
Proof.
  unfold test_with_option. intros (bug & w1 & Hbug & H)%bind_Ok.
  apply lift_Ok in Hbug as [Hbug%key_Ok ->].
  apply bind_Ok in H as (r & w2 & Hrun & H). apply run_Ok in Hrun as [Ht Hsub].
  apply bind_Ok in H as (e & w3 & He & H). apply path_exists_Ok in He as ->.
  apply bind_Ok in H as (u & w3 & Hassert & H).
  apply massert_Ok in Hassert as [_ ->].
  apply bind_Ok in H as (w0 & w3 & Hget & H). injection Hget as <- <-.
  apply bind_Ok in H as (content & w3 & Hcontent & H).
  destruct (fs w2 !! pjoin (proj_path bug) "failing_tests") as [c|] eqn:Hfile;
    [|done].
  apply ret_Ok in Hcontent as [-> ->].
  apply bind_Ok in H as (u' & w3 & Hassert & H).
  apply massert_Ok in Hassert as [Hassert ->].
  apply ret_Ok in H as [[= -> -> ->] ->].
  exists bug, r, c. repeat split; try done.
  - intros Hs. by rewrite Hs in Hassert.
  - intros Hs. destruct (forallb is_space c); [done|].
    rewrite Hs in Hassert. done.
Qed.

(** X10. [test] runs the relevant tests first and the entire suite only
    when they pass: when it returns, either it reports a failure after the
    one run with [-r], or it has made the two runs, [-r] first, and reports
    the verdict and the output of the second. It reports success only after
    both runs. *)
Theorem test_relevant_first (self : Defects4J) bug_id timeout w
    success out err w' :
  test ext self bug_id timeout w = (Ok (success, out, err), w') ->
  exists bug,
    pydict.get bug_id (all_bugs self) = Some bug /\
    ((success = false /\
      trace w' = trace w ++ [ERun (test_cmd self bug timeout false)]) \/
     (exists w1 out1 err1,
        test_with_option ext self bug_id timeout false w = (Ok (true, out1, err1), w1) /\
        test_with_option ext self bug_id timeout true w1 = (Ok (success, out, err), w') /\
        trace w' = trace w ++ [ERun (test_cmd self bug timeout false);
                               ERun (test_cmd self bug timeout true)])).
Proof.
  unfold test. intros ([[s1 o1] e1] & w1 & H1 & H)%bind_Ok.
  pose proof H1 as H1'.
  apply test_with_option_trace in H1 as (bug & Hbug & Ht1).
  exists bug. split; [done|]. destruct s1; simpl in H.
  - right. exists w1, o1, e1. split; [done|]. split; [done|].
    apply test_with_option_trace in H as (bug' & Hbug' & Ht2).
    assert (bug' = bug) as -> by congruence.
    rewrite Ht2, Ht1. by rewrite <- app_assoc.
  - left. apply ret_Ok in H as [[= -> -> ->] ->]. done.
Qed.

(** X11. For a bug id that the benchmark does not have, [compile],
    [test_with_option], [test] and [checkout] raise [KeyError] before they
    run any command. *)
Theorem unknown_bug_id_raises (self : Defects4J) bug_id timeout entire buggy w :
  pydict.get bug_id (all_bugs self) = None ->
  compile ext self bug_id w = (Raise KeyError, w) /\
  test_with_option ext self bug_id timeout entire w = (Raise KeyError, w) /\
  test ext self bug_id timeout w = (Raise KeyError, w) /\
  checkout ext self bug_id buggy w = (Raise KeyError, w).
Proof.
  intros Hnone%key_None.
  unfold compile, test, test_with_option, checkout, mbind, M_bind, lift.
  by rewrite Hnone.
Qed.

Lemma split_bug_id_one_dash_Ok bug_id :
  count_char "-" bug_id = 1%nat ->
  exists proj id_str, split_bug_id bug_id = Ok (proj, id_str).
Proof.
  intros Hc. unfold split_bug_id.
  destruct (split_on_first "-" bug_id) as [[? _]|(p & r & _ & _ & Hc' & ->)];
    [lia|].
  destruct (split_on_first "-" r) as [[_ ->]|(p' & r' & _ & _ & Hr & _)]; [|lia].
  by eexists _, _.
Qed.

Lemma split_bug_id_not_one_dash bug_id :
  count_char "-" bug_id <> 1%nat -> split_bug_id bug_id = Raise ValueError.
Proof.
  intros Hc. unfold split_bug_id.
  destruct (split_on_first "-" bug_id) as [[_ ->]|(p & r & -> & Hp & Hc' & ->)];
    [done|].
  destruct (split_on_first "-" r) as [[Hr ->]|(p' & r' & -> & Hp' & Hr & ->)];
    [lia|].
  destruct (split_on_cons "-" r') as (w & ws & ->). done.
Qed.

(** X12. For a bug whose id does not have exactly one dash, [checkout]
    raises [ValueError] before it runs any command. *)
Theorem checkout_malformed_id (self : Defects4J) bug_id bug buggy w :
  pydict.get bug_id (all_bugs self) = Some bug ->
  count_char "-" bug_id <> 1%nat ->
  checkout ext self bug_id buggy w = (Raise ValueError, w).
Proof.
  intros Hbug%key_Ok Hsplit%split_bug_id_not_one_dash.
  unfold checkout, mbind, M_bind, lift. by rewrite Hbug, Hsplit.
Qed.


End command_facts.

(** ** d4j.py: construction of the benchmark interface *)

Section init_more.
Import unidiff d4j.
Context (ext : External).

(** [p.exists()] in the world [w]. *)
Definition exists_in (w : World) (p : string) : bool :=
  bool_decide (is_Some (fs w !! p)) || dir_exists ext p.

Lemma mapM_Forall2 {A B} (f : A -> res B) (l : list A) : forall ys,
  mapM f l = Ok ys -> Forall2 (fun x y => f x = Ok y) l ys.
Proof.
  induction l as [|x l IH]; intros ys; simpl.
  - intros [= <-]. constructor.
  - destruct (f x) as [y|] eqn:Hy; [|done]. simpl.
    destruct (mapM f l) as [ys'|]; [|done]. simpl.
    intros [= <-]. constructor; [done|by apply IH].
Qed.

(** The single-line test indexes a bug that has a first file with a first
    change: it cannot fail on the single-hunk bugs. *)
Lemma single_line_filter_total (all : list (string * Bug)) :
  exists r,
    filterM (fun '(_, bug) => is_single_line bug)
      (filter (fun '(_, bug) => is_single_hunk bug = true) all) = Ok r.
Proof.
  induction all as [|[id bug] all [r IH]]; [by eexists|].
  rewrite filter_cons. case_decide as Hsh; [|by eexists].
  destruct (is_single_hunk_true bug Hsh) as (f & c & Hf & Hc).
  cbn [filterM]. rewrite IH. unfold is_single_line. rewrite Hf, Hc.
  by eexists.
Qed.

(** X14. The construction returns whenever the four paths exist, the
    metadata can be built and every stored patch can be read: the indexing
    done to select the single-line bugs cannot go out of range. It keeps the
    metadata and the bugs it has read, and leaves the world as it is. *)
Theorem init_returns home checkout_root java8 w meta all :
  exists_in w home = true ->
  exists_in w (executable_of home) = true ->
  exists_in w java8 = true ->
  exists_in w checkout_root = true ->
  _get_metadata ext home checkout_root = Ok meta ->
  _all_bugs ext home meta [] = Ok all ->
  exists d,
    __init__ ext home checkout_root java8 w = (Ok d, w) /\
    metadata d = meta /\ all_bugs d = all.
Proof.
  unfold exists_in. intros H1 H2 H3 H4 Hmeta Hall.
  destruct (single_line_filter_total all) as [r Hr].
  unfold __init__, mbind, M_bind, path_exists, massert, lift.
  rewrite H1, H2, H3, H4. simpl. rewrite Hmeta, Hall, Hr.
  by eexists.
Qed.

(** X15. The construction runs no command and writes no file, and it stops
    on an assertion when one of the four paths does not exist. *)
Theorem init_checks_paths home checkout_root java8 w :
  (__init__ ext home checkout_root java8 w).2 = w /\
  (exists_in w home && exists_in w (executable_of home)
   && exists_in w java8 && exists_in w checkout_root = false ->
   (__init__ ext home checkout_root java8 w).1 = Raise AssertionError).
Proof.
  unfold exists_in, __init__, mbind, M_bind, path_exists, massert, lift, assert.
  split.
  - repeat (case_match; simplify_eq/=; try done).
  - intros Hmiss. repeat (case_match; simplify_eq/=; try done).
Qed.

(** What the metadata of a row holds. *)
Lemma get_checkout_meta_Ok checkout_root proj row home m :
  _get_checkout_meta ext checkout_root proj row home = Ok m ->
  cm_proj m = proj /\
  pydict.get "bug.id" row = Some (cm_bug_id m) /\
  cm_path m = absolute ext (pjoin checkout_root (form_bug_id proj (cm_bug_id m))).
Proof.
  unfold _get_checkout_meta, key.
  destruct (pydict.get "bug.id" row) as [i|]; [|done]. simpl.
  destruct (pydict.get "revision.id.buggy" row); [|done]. simpl.
  destruct (pydict.get "report.url" row); [|done]. simpl.
  destruct (pydict.get "revision.id.fixed" row); [|done]. simpl.
  by intros [= <-].
Qed.

(** A bug read from the stored patches of a metadata entry. *)
Definition bug_of (home : string) (meta : list CheckoutMeta)
    (id : string) (bug : Bug) : Prop :=
  exists m, m ∈ meta /\ id = bug_id_of m /\ proj_path bug = cm_path m /\
            get_buggy_files ext home m = Ok (buggy_files bug).

Lemma all_bugs_spec home meta : forall acc all,
  _all_bugs ext home meta acc = Ok all ->
  (pydict.wf acc -> pydict.wf all) /\
  (forall id, is_Some (pydict.get id acc) -> is_Some (pydict.get id all)) /\
  (forall m, m ∈ meta -> is_Some (pydict.get (bug_id_of m) all)) /\
  (forall id bug, pydict.get id all = Some bug ->
     pydict.get id acc = Some bug \/ bug_of home meta id bug).
Proof.
  induction meta as [|m meta IH]; intros acc all.
  - simpl. intros [= <-]. split; [done|]. split; [done|].
    split; [by intros m ?%elem_of_nil|]. by left.
  - cbn [_all_bugs]. destruct (get_buggy_files ext home m) as [files|] eqn:Hf;
      [|done]. simpl. intros Hall.
    destruct (IH _ _ Hall) as (Hwf & Hkeep & Hmeta & Hfrom).
    split; [intros Hacc; by apply Hwf, wf_set|]. split; [|split].
    + intros id Hid. apply Hkeep.
      destruct (decide (bug_id_of m = id)) as [<-|Hne].
      * rewrite get_set_eq. by eexists.
      * by rewrite get_set_ne.
    + intros m' [->|Hm']%elem_of_cons; [|by apply Hmeta].
      apply Hkeep. rewrite get_set_eq. by eexists.
    + intros id bug Hget. destruct (Hfrom id bug Hget) as [Hacc|(m' & Hm' & Hrest)].
      * destruct (decide (bug_id_of m = id)) as [<-|Hne].
        -- rewrite get_set_eq in Hacc. injection Hacc as <-. right.
           exists m. split; [apply list_elem_of_here|]. done.
        -- rewrite get_set_ne in Hacc by done. by left.
      * right. exists m'. split; [by apply list_elem_of_further|done].
Qed.

(** X16. After the construction, the bugs have distinct ids; every row of
    the benchmark's tables that has a bug id has its bug, under the id
    [<project>-<bug.id>], whose directory is that id under the checkout root,
    made absolute; and every bug comes from a metadata entry, with the buggy
    files read from that entry's stored patch. *)
Theorem init_all_bugs home checkout_root java8 w d w' :
  __init__ ext home checkout_root java8 w = (Ok d, w') ->
  pydict.wf (all_bugs d) /\
  (forall proj rows row id_str,
     (proj, rows) ∈ _get_all_bugs ext home -> row ∈ rows ->
     pydict.get "bug.id" row = Some id_str ->
     exists bug,
       pydict.get (form_bug_id proj id_str) (all_bugs d) = Some bug /\
       proj_path bug
       = absolute ext (pjoin checkout_root (form_bug_id proj id_str))) /\
  (forall id bug, (id, bug) ∈ all_bugs d -> bug_of home (metadata d) id bug).
Proof.
  unfold __init__.
  intros (e1 & w1 & _ & H)%bind_Ok. apply bind_Ok in H as (? & ? & _ & H).
  apply bind_Ok in H as (? & ? & _ & H). apply bind_Ok in H as (? & ? & _ & H).
  apply bind_Ok in H as (? & ? & _ & H). apply bind_Ok in H as (? & ? & _ & H).
  apply bind_Ok in H as (? & ? & _ & H). apply bind_Ok in H as (? & ? & _ & H).
  apply bind_Ok in H as (meta & ? & Hmeta & H).
  apply lift_Ok in Hmeta as [Hmeta ->].
  apply bind_Ok in H as (all & ? & Hall & H).
  apply lift_Ok in Hall as [Hall ->].
  apply bind_Ok in H as (single_line & w2 & _ & H).
  apply ret_Ok in H as [-> _]. simpl.
  destruct (all_bugs_spec _ _ _ _ Hall) as (Hwf & _ & Hin & Hfrom).
  assert (Hnil : pydict.wf (@nil (string * Bug))) by apply NoDup_nil_2.
  specialize (Hwf Hnil).
  assert (Hpath : forall m, m ∈ meta ->
    cm_path m = absolute ext (pjoin checkout_root (bug_id_of m))).
  { intros m Hm. unfold _get_metadata in Hmeta. apply mapM_Forall2 in Hmeta.
    apply list_elem_of_lookup in Hm as [i Hi].
    destruct (Forall2_lookup_r _ _ _ _ _ Hmeta Hi) as ([proj row] & _ & Hrow).
    apply get_checkout_meta_Ok in Hrow as (Hproj & _ & Hp).
    rewrite Hp, <- Hproj. done. }
  split; [done|]. split.
  - intros proj rows row id_str Hrows Hrow Hid.
    unfold _get_metadata in Hmeta. apply mapM_Forall2 in Hmeta.
    assert (Hitem : (proj, row) ∈
      ('(proj, proj_bugs) ← _get_all_bugs ext home;
       bug ← proj_bugs; [(proj, bug)])).
    { apply list_elem_of_bind. exists (proj, rows). split; [|done].
      apply list_elem_of_bind. exists row. split; [apply list_elem_of_here|done]. }
    apply list_elem_of_lookup in Hitem as [i Hi].
    destruct (Forall2_lookup_l _ _ _ _ _ Hmeta Hi) as (m & Hm & Hrow').
    simpl in Hrow'. apply get_checkout_meta_Ok in Hrow' as (Hproj & Hbid & _).
    assert (cm_bug_id m = id_str) as Hbid' by congruence.
    apply list_elem_of_lookup_2 in Hm.
    assert (Hform : bug_id_of m = form_bug_id proj id_str).
    { unfold bug_id_of. by rewrite Hproj, Hbid'. }
    destruct (Hin m Hm) as [bug Hbug]. rewrite Hform in Hbug.
    exists bug. split; [done|].
    destruct (Hfrom _ _ Hbug) as [?|(m' & Hm' & Hid' & -> & _)]; [done|].
    rewrite (Hpath m' Hm'). by rewrite <- Hid'.
  - intros id bug Hbug. apply elem_get_Some in Hbug; [|done].
    by destruct (Hfrom _ _ Hbug).
Qed.

End init_more.

Section command_examples.
Import d4j.

(** An outside in which every command succeeds and reports no failing
    test. *)
Definition green_external : External :=
  {| subprocess_run := fun _ f =>
       (f, Some {| returncode := 0; stdout := "Failing tests: 0"; stderr := "" |});
     java_parse := fun _ => Parsed;
     perf_counter := fun t => Z.of_nat (length t);
     dir_exists := fun _ => true;
     absolute := fun p => p;
     active_bugs := fun _ => [];
     patch_set := fun _ => [];
     fullmatch := fun _ _ => true |}.

(** The checkout of Lang-1 with an empty list of failing tests. *)
Definition green_world : World :=
  {| fs := {["/co/Lang-1/failing_tests" := []]}; trace := [] |}.

Lemma compile_verdict_witness :
  exists bug r,
    pydict.get "Lang-1" (all_bugs one_bug_d4j) = Some bug /\
    trace (compile green_external one_bug_d4j "Lang-1" green_world).2
    = trace green_world ++ [ERun (compile_cmd one_bug_d4j bug)] /\
    subprocess_run green_external (compile_cmd one_bug_d4j bug) (fs green_world)
    = (fs (compile green_external one_bug_d4j "Lang-1" green_world).2, Some r) /\
    "Failing tests: 0" = stdout r /\ "" = stderr r /\
    (true = true <-> returncode r = 0%Z) /\
    (true = true <-> str_contains "FAIL" "" = false).
Proof.
  apply (compile_verdict green_external one_bug_d4j "Lang-1" green_world
           true "Failing tests: 0" "").
  vm_compute. reflexivity.
Defined.

Lemma test_with_option_verdict_witness :
  exists bug r content,
    pydict.get "Lang-1" (all_bugs one_bug_d4j) = Some bug /\
    trace (test_with_option green_external one_bug_d4j "Lang-1" 180 false
             green_world).2
    = trace green_world ++ [ERun (test_cmd one_bug_d4j bug 180 false)] /\
    subprocess_run green_external (test_cmd one_bug_d4j bug 180 false)
      (fs green_world)
    = (fs (test_with_option green_external one_bug_d4j "Lang-1" 180 false
             green_world).2, Some r) /\
    "Failing tests: 0" = stdout r /\ "" = stderr r /\
    fs (test_with_option green_external one_bug_d4j "Lang-1" 180 false
          green_world).2 !! pjoin (proj_path bug) "failing_tests" = Some content /\
    true = forallb is_space content /\
    (true = true <-> startswith "Failing tests: 0" "Failing tests: 0" = true).
Proof.
  apply (test_with_option_verdict green_external one_bug_d4j "Lang-1" 180 false
           green_world true "Failing tests: 0" "").
  vm_compute. reflexivity.
Defined.

Lemma test_relevant_first_witness :
  exists bug,
    pydict.get "Lang-1" (all_bugs one_bug_d4j) = Some bug /\
    ((true = false /\
      trace (test green_external one_bug_d4j "Lang-1" 180 green_world).2
      = trace green_world ++ [ERun (test_cmd one_bug_d4j bug 180 false)]) \/
     (exists w1 out1 err1,
        test_with_option green_external one_bug_d4j "Lang-1" 180 false green_world
        = (Ok (true, out1, err1), w1) /\
        test_with_option green_external one_bug_d4j "Lang-1" 180 true w1
        = (Ok (true, "Failing tests: 0", ""),
           (test green_external one_bug_d4j "Lang-1" 180 green_world).2) /\
        trace (test green_external one_bug_d4j "Lang-1" 180 green_world).2
        = trace green_world ++ [ERun (test_cmd one_bug_d4j bug 180 false);
                                ERun (test_cmd one_bug_d4j bug 180 true)])).
Proof.
  apply (test_relevant_first green_external one_bug_d4j "Lang-1" 180 green_world
           true "Failing tests: 0" "").
  vm_compute. reflexivity.
Defined.

Lemma unknown_bug_id_raises_witness :
  compile green_external one_bug_d4j "Math-2" green_world
  = (Raise KeyError, green_world) /\
  test_with_option green_external one_bug_d4j "Math-2" 180 true green_world
  = (Raise KeyError, green_world) /\
  test green_external one_bug_d4j "Math-2" 180 green_world
  = (Raise KeyError, green_world) /\
  checkout green_external one_bug_d4j "Math-2" false green_world
  = (Raise KeyError, green_world).
Proof.
  apply (unknown_bug_id_raises green_external one_bug_d4j "Math-2" 180 true false
           green_world).
  reflexivity.
Defined.

(** A benchmark whose one bug has an id with two dashes. *)
Definition two_dash_d4j : Defects4J :=
  {| d4j_home := "/d4j"; d4j_checkout_root := "/co"; java8_home := "/jdk8";
     metadata := []; all_bugs := [("commons-lang-1", lang_1)];
     single_hunk_bugs := []; single_line_bugs := [] |}.

Lemma checkout_malformed_id_witness :
  checkout green_external two_dash_d4j "commons-lang-1" true green_world
  = (Raise ValueError, green_world).
Proof.
  apply (checkout_malformed_id green_external two_dash_d4j "commons-lang-1"
           lang_1 true green_world).
  - reflexivity.
  - vm_compute. discriminate.
Defined.



(** The benchmark read from [lang_only_external]. *)
Definition lang_only_d4j : Defects4J :=
  Eval vm_compute in
    match (__init__ lang_only_external "/d4j" "/co" "/jdk8" empty_world).1 with
    | Ok d => d
    | Raise _ => one_bug_d4j
    end.

Lemma lang_only_run :
  __init__ lang_only_external "/d4j" "/co" "/jdk8" empty_world
  = (Ok lang_only_d4j, empty_world).
Proof. vm_compute. reflexivity. Qed.

Lemma init_returns_witness :
  exists d,
    __init__ lang_only_external "/d4j" "/co" "/jdk8" empty_world
    = (Ok d, empty_world) /\
    metadata d = metadata lang_only_d4j /\ all_bugs d = all_bugs lang_only_d4j.
Proof.
  apply (init_returns lang_only_external "/d4j" "/co" "/jdk8" empty_world);
    vm_compute; reflexivity.
Defined.

Lemma init_all_bugs_witness :
  pydict.wf (all_bugs lang_only_d4j) /\
  (forall proj rows row id_str,
     (proj, rows) ∈ _get_all_bugs lang_only_external "/d4j" -> row ∈ rows ->
     pydict.get "bug.id" row = Some id_str ->
     exists bug,
       pydict.get (form_bug_id proj id_str) (all_bugs lang_only_d4j) = Some bug /\
       proj_path bug
       = absolute lang_only_external (pjoin "/co" (form_bug_id proj id_str))) /\
  (forall id bug, (id, bug) ∈ all_bugs lang_only_d4j ->
     bug_of lang_only_external "/d4j" (metadata lang_only_d4j) id bug).
Proof.
  exact (init_all_bugs lang_only_external "/d4j" "/co" "/jdk8" empty_world
           lang_only_d4j empty_world lang_only_run).
Defined.

End command_examples.

(** ** d4j.py: group_by_project *)

Section group_by_project_facts.
Import d4j.

#[local] Instance exn_eq_dec : EqDecision exn.
Proof. solve_decision. Defined.
#[local] Instance res_eq_dec {A} `{EqDecision A} : EqDecision (res A).
Proof. solve_decision. Defined.

(** *** The order of strings *)

Definition str_le (a b : string) : Prop := String.leb a b = true.
Definition str_lt (a b : string) : Prop := String.ltb a b = true.

Lemma str_lt_irrefl a : ~ str_lt a a.
Proof.
  unfold str_lt, String.ltb.
  assert ((a ?= a)%string = Eq) as ->; [|done].
  induction a as [|c a IH]; simpl; [done|].
  unfold Ascii.compare. by rewrite N.compare_refl.
Qed.

Lemma str_le_trans a b c : str_le a b -> str_le b c -> str_le a c.
Proof.
  unfold str_le. intros Hab%Is_true_true Hbc%Is_true_true. apply Is_true_true.
  exact (transitivity (R := String.le) Hab Hbc).
Qed.

Lemma str_le_antisym a b : str_le a b -> str_le b a -> a = b.
Proof. apply String.leb_antisym. Qed.

Lemma str_lt_le a b : str_lt a b -> str_le a b.
Proof.
  unfold str_lt, str_le, String.ltb, String.leb. by destruct (a ?= b)%string.
Qed.

Lemma str_not_lt_le a b : String.ltb a b = false -> str_le b a.
Proof.
  unfold str_le, String.ltb, String.leb. rewrite (String.compare_antisym a b).
  by destruct (b ?= a)%string.
Qed.

Lemma str_lt_iff a b : str_lt a b <-> str_le a b /\ a <> b.
Proof.
  split.
  - intros Hlt. split; [by apply str_lt_le|]. intros ->. by apply str_lt_irrefl in Hlt.
  - unfold str_lt, str_le, String.ltb, String.leb. intros [Hle Hne].
    destruct (a ?= b)%string eqn:Hc; [|done..].
    by apply String.compare_eq_iff in Hc.
Qed.

Lemma str_le_lt_trans a b c : str_le a b -> str_lt b c -> str_lt a c.
Proof.
  rewrite !str_lt_iff. intros Hab [Hbc Hne]. split; [by eapply str_le_trans|].
  intros ->. apply Hne. by apply str_le_antisym.
Qed.

(** *** Sorting by key *)

Section sorting.
Context {A : Type}.
Implicit Types (x y : string * A) (l : list (string * A)).

Definition le_key x y : Prop := str_le x.1 y.1.

Lemma insert_by_key_elem x l y :
  y ∈ insert_by_key x l <-> y = x \/ y ∈ l.
Proof.
  induction l as [|z l IH]; simpl;
    [rewrite list_elem_of_singleton, elem_of_nil; tauto|].
  destruct (String.ltb z.1 x.1); rewrite !elem_of_cons; [rewrite IH|]; tauto.
Qed.

Lemma insert_by_key_sorted x l :
  StronglySorted le_key l -> StronglySorted le_key (insert_by_key x l).
Proof.
  induction 1 as [|z l Hl IH Hz]; simpl; [by repeat constructor|].
  destruct (String.ltb z.1 x.1) eqn:Hlt.
  - constructor; [done|]. apply Forall_forall. intros y [->|Hy]%insert_by_key_elem.
    + by apply str_lt_le.
    + rewrite Forall_forall in Hz. by apply Hz.
  - apply str_not_lt_le in Hlt. constructor; [by constructor|].
    constructor; [done|]. eapply Forall_impl; [exact Hz|].
    intros y Hy. by eapply str_le_trans.
Qed.

Lemma sort_by_key_sorted l : StronglySorted le_key (sort_by_key l).
Proof.
  induction l as [|x l IH]; [constructor|]. by apply insert_by_key_sorted.
Qed.

(** The items of one key keep their order. *)
Lemma insert_by_key_filter (k : string) x l :
  filter (fun y => y.1 = k) (insert_by_key x l)
  = filter (fun y => y.1 = k) (x :: l).
Proof.
  induction l as [|z l IH]; [done|]. simpl.
  destruct (String.ltb z.1 x.1) eqn:Hlt; [|done].
  rewrite filter_cons, IH, !filter_cons.
  destruct (decide (z.1 = k)) as [Hz|]; [|done].
  destruct (decide (x.1 = k)) as [Hx|]; [|done].
  exfalso. apply (str_lt_irrefl k). unfold str_lt. by rewrite <- Hz at 1; rewrite <- Hx.
Qed.

Lemma sort_by_key_filter (k : string) l :
  filter (fun y => y.1 = k) (sort_by_key l) = filter (fun y => y.1 = k) l.
Proof.
  induction l as [|x l IH]; [done|].
  change (sort_by_key (x :: l)) with (insert_by_key x (sort_by_key l)).
  by rewrite insert_by_key_filter, !filter_cons, IH.
Qed.

(** *** The groups of a sorted list *)

Lemma groupby_spec l :
  StronglySorted le_key l ->
  StronglySorted str_lt (groupby l).*1 /\
  (forall x, x ∈ l -> x.1 ∈ (groupby l).*1) /\
  (forall k g, (k, g) ∈ groupby l ->
     g <> [] /\ g = (filter (fun y => y.1 = k) l).*2).
Proof.
  induction 1 as [|[k x] l Hl (Hsorted & Hkeys & Hgroups) Hk].
  { split; [constructor|]. split; [by intros x ?%elem_of_nil|].
    by intros k g ?%elem_of_nil. }
  cbn [groupby]. destruct (groupby l) as [|[k' g'] gs] eqn:Hgs.
  { assert (l = []) as ->.
    { destruct l as [|y l]; [done|].
      specialize (Hkeys y (list_elem_of_here _ _)). by apply elem_of_nil in Hkeys. }
    split; [by repeat constructor|]. split.
    - intros y ->%list_elem_of_singleton. apply list_elem_of_here.
    - intros k0 g ?%list_elem_of_singleton. simplify_eq.
      rewrite filter_cons, decide_True by done. done. }
  assert (Hle : forall k2, k2 ∈ (((k', g') :: gs).*1) -> str_le k k2).
  { intros k2 Hk2. rewrite Forall_forall in Hk.
    assert (exists y, y ∈ l /\ y.1 = k2) as (y & Hy & <-).
    { apply list_elem_of_fmap in Hk2 as ([k3 g3] & -> & Hin).
      destruct (Hgroups _ _ Hin) as [Hne Hg]. simpl.
      destruct (filter (fun y => y.1 = k3) l) as [|y f] eqn:Hf; [by subst|].
      assert (Hy : y ∈ filter (fun y => y.1 = k3) l)
        by (rewrite Hf; apply list_elem_of_here).
      apply list_elem_of_filter in Hy as [Hy1 Hy2]. by exists y. }
    by apply (Hk y). }
  simpl in Hsorted. apply StronglySorted_inv in Hsorted as [Hsorted Hfirst].
  destruct (decide (k = k')) as [<-|Hne].
  - split; [by constructor|]. split.
    + intros y [->|Hy]%elem_of_cons; [apply list_elem_of_here|by apply Hkeys].
    + intros k0 g [[= -> ->]|Hin]%elem_of_cons.
      * split; [done|]. rewrite filter_cons, decide_True by done. simpl.
        f_equal. by apply (Hgroups k g'), list_elem_of_here.
      * destruct (Hgroups k0 g (list_elem_of_further _ _ _ Hin)) as [Hne Hg].
        split; [done|]. rewrite filter_cons, decide_False; [done|].
        simpl. intros <-. rewrite Forall_forall in Hfirst.
        apply (str_lt_irrefl k), Hfirst, list_elem_of_fmap.
        by exists (k, g).
  - assert (Hlt : forall k2, k2 ∈ (((k', g') :: gs).*1) -> str_lt k k2).
    { intros k2 [->|Hk2]%elem_of_cons.
      - apply str_lt_iff. split; [|done]. apply Hle, list_elem_of_here.
      - eapply str_le_lt_trans; [apply Hle, list_elem_of_here|].
        rewrite Forall_forall in Hfirst. by apply Hfirst. }
    split; [|split].
    + simpl. constructor; [by constructor|]. by apply Forall_forall.
    + intros y [->|Hy]%elem_of_cons; [apply list_elem_of_here|].
      apply list_elem_of_further. by apply Hkeys.
    + intros k0 g [[= -> ->]|Hin]%elem_of_cons.
      * split; [done|]. rewrite filter_cons, decide_True by done. simpl.
        f_equal. symmetry.
        destruct (filter (fun y => y.1 = k) l) as [|y f] eqn:Hf; [done|].
        assert (Hy : y ∈ filter (fun y => y.1 = k) l)
          by (rewrite Hf; apply list_elem_of_here).
        apply list_elem_of_filter in Hy as [Hy1 Hy2].
        exfalso. apply (str_lt_irrefl k), Hlt. rewrite <- Hy1 at 1. by apply Hkeys.
      * destruct (Hgroups k0 g Hin) as [Hne' Hg].
        split; [done|]. rewrite filter_cons, decide_False; [done|].
        simpl. intros <-. apply (str_lt_irrefl k), Hlt, list_elem_of_fmap.
        by exists (k, g).
Qed.

End sorting.

(** *** The dictionary of a group *)

Lemma set_absent {V} (k : string) (v : V) (d : list (string * V)) :
  k ∉ d.*1 -> pydict.set k v d = d ++ [(k, v)].
Proof.
  induction d as [|[k0 v0] d IH]; simpl; [done|].
  intros [Hne Hnotin]%not_elem_of_cons.
  rewrite decide_False by done. by rewrite IH.
Qed.

Lemma foldl_set_distinct {V} (group : list (string * V)) : forall acc,
  NoDup (acc ++ group).*1 ->
  foldl (fun d '(bug_id, data) => pydict.set bug_id data d) acc group
  = acc ++ group.
Proof.
  induction group as [|[k v] group IH]; intros acc Hnd; simpl.
  - by rewrite app_nil_r.
  - rewrite set_absent.
    + rewrite IH; by rewrite <- app_assoc.
    + rewrite fmap_app in Hnd. apply NoDup_app in Hnd as (_ & Hdisj & _).
      intros Hin. apply (Hdisj k Hin). apply list_elem_of_here.
Qed.

Lemma dict_of_distinct {V} (group : list (string * V)) :
  NoDup group.*1 -> dict_of group = group.
Proof. intros Hnd. by apply (foldl_set_distinct group []). Qed.

(** *** The projects of a dictionary *)

Lemma key_fn_Ok {T} (item : string * T) project :
  key_fn item = Ok project <->
  exists id_str, split_bug_id item.1 = Ok (project, id_str).
Proof.
  unfold key_fn. destruct (split_bug_id item.1) as [[p i]|e]; simpl.
  - split; [intros [= ->]; by eexists|intros [? [= -> _]]; done].
  - split; [done|by intros [? ?]].
Qed.

Lemma keyed_items {T} (data_dict : list (string * T)) : forall data_items,
  mapM (fun item => k ← key_fn item; Ok (k, item)) data_dict = Ok data_items ->
  data_items.*2 = data_dict /\
  forall project,
    (filter (fun y => y.1 = project) data_items).*2
    = filter (fun item => key_fn item = Ok project) data_dict.
Proof.
  induction data_dict as [|item data_dict IH]; intros data_items; simpl.
  - intros [= <-]. done.
  - destruct (key_fn item) as [k|] eqn:Hk; [|done]. simpl.
    destruct (mapM _ data_dict) as [rest|]; [|done]. simpl.
    intros [= <-]. destruct (IH rest eq_refl) as [Hsnd Hfilter].
    split; [by rewrite fmap_cons, Hsnd|].
    intros project. rewrite !filter_cons. simpl. rewrite Hk.
    destruct (decide (k = project)) as [->|Hne].
    + rewrite decide_True by done. simpl. by rewrite Hfilter.
    + rewrite decide_False by congruence. apply Hfilter.
Qed.

Lemma keyed_items_total {T} (data_dict : list (string * T)) :
  Forall (fun item => count_char "-" item.1 = 1%nat) data_dict ->
  exists data_items,
    mapM (fun item => k ← key_fn item; Ok (k, item)) data_dict = Ok data_items.
Proof.
  induction 1 as [|item data_dict Hitem _ [rest IH]]; [by eexists|].
  cbn [mapM].
  destruct (split_bug_id_one_dash_Ok _ Hitem) as (p & i & Hs).
  assert (key_fn item = Ok p) as -> by (apply key_fn_Ok; by exists i).
  simpl. rewrite IH. by eexists.
Qed.

(** X17. [group_by_project] on a dictionary whose ids all have one dash
    returns one entry per project that has an item: the projects come in
    strictly increasing order, and the dictionary of a project holds exactly
    the items of that project, in the order they have in the given
    dictionary. *)
Theorem group_by_project_groups {T} (data_dict : list (string * T)) :
  pydict.wf data_dict ->
  Forall (fun item => count_char "-" item.1 = 1%nat) data_dict ->
  exists groups,
    group_by_project data_dict = Ok groups /\
    StronglySorted (fun p q => String.ltb p q = true) groups.*1 /\
    (forall project d, (project, d) ∈ groups ->
       d <> [] /\
       d = filter (fun item => key_fn item = Ok project) data_dict) /\
    (forall item, item ∈ data_dict ->
       exists project d, key_fn item = Ok project /\ (project, d) ∈ groups).
Proof.
  intros Hwf Hall. destruct (keyed_items_total data_dict Hall) as [data_items Hitems].
  destruct (keyed_items data_dict data_items Hitems) as [Hsnd Hfilter].
  unfold group_by_project. rewrite Hitems. simpl. eexists. split; [done|].
  destruct (groupby_spec (sort_by_key data_items) (sort_by_key_sorted data_items))
    as (Hsorted & Hkeys & Hgroups).
  assert (Hgroup : forall project g, (project, g) ∈ groupby (sort_by_key data_items) ->
    g <> [] /\ g = filter (fun item => key_fn item = Ok project) data_dict).
  { intros project g Hin. destruct (Hgroups _ _ Hin) as [Hne ->].
    split; [done|]. by rewrite sort_by_key_filter, Hfilter. }
  split; [|split].
  - rewrite <- list_fmap_compose.
    rewrite (list_fmap_ext _ fst (groupby (sort_by_key data_items)))
      by (by intros ? [? ?] _).
    exact Hsorted.
  - intros project d ([p g] & [= -> ->] & Hin)%list_elem_of_fmap.
    destruct (Hgroup _ _ Hin) as [Hne Hg].
    rewrite dict_of_distinct; [done|].
    rewrite Hg. eapply sublist_NoDup; [exact Hwf|].
    apply fmap_sublist, sublist_filter.
  - intros item Hitem.
    assert (exists k, (k, item) ∈ data_items /\ key_fn item = Ok k) as (k & Hk & Hkey).
    { clear -Hitems Hitem. revert data_items Hitems.
      induction data_dict as [|x data_dict IH]; intros data_items;
        [by apply elem_of_nil in Hitem|].
      simpl. destruct (key_fn x) as [k|] eqn:Hk; [|done]. simpl.
      destruct (mapM _ data_dict) as [rest|]; [|done]. simpl. intros [= <-].
      apply elem_of_cons in Hitem as [->|Hitem].
      - exists k. split; [apply list_elem_of_here|done].
      - destruct (IH Hitem rest eq_refl) as (k' & Hin & Hk').
        exists k'. split; [by apply list_elem_of_further|done]. }
    assert (Hsorted_in : (k, item) ∈ sort_by_key data_items).
    { assert (Hf : (k, item) ∈ filter (fun y => y.1 = k) (sort_by_key data_items)).
      { rewrite sort_by_key_filter. by apply list_elem_of_filter. }
      by apply list_elem_of_filter in Hf as [_ ?]. }
    apply Hkeys in Hsorted_in. simpl in Hsorted_in.
    apply list_elem_of_fmap in Hsorted_in as ([k' g] & Heq & Hin).
    simpl in Heq. subst k'. exists k, (dict_of g). split; [done|].
    apply list_elem_of_fmap. by exists (k, g).
Qed.

Lemma group_by_project_groups_witness :
  exists groups,
    group_by_project [("Lang-2", 2%nat); ("Chart-1", 1%nat); ("Lang-1", 3%nat)]
    = Ok groups /\
    StronglySorted (fun p q => String.ltb p q = true) groups.*1 /\
    (forall project d, (project, d) ∈ groups ->
       d <> [] /\
       d = filter (fun item => key_fn item = Ok project)
             [("Lang-2", 2%nat); ("Chart-1", 1%nat); ("Lang-1", 3%nat)]) /\
    (forall item, item ∈ [("Lang-2", 2%nat); ("Chart-1", 1%nat); ("Lang-1", 3%nat)] ->
       exists project d, key_fn item = Ok project /\ (project, d) ∈ groups).
Proof.
  apply (group_by_project_groups
           [("Lang-2", 2%nat); ("Chart-1", 1%nat); ("Lang-1", 3%nat)]).
  - apply (bool_decide_unpack _). vm_compute. exact I.
  - repeat constructor.
Defined.

Example group_by_project_three :
  group_by_project [("Lang-2", 2%nat); ("Chart-1", 1%nat); ("Lang-1", 3%nat)]
  = Ok [("Chart", [("Chart-1", 1%nat)]);
        ("Lang", [("Lang-2", 2%nat); ("Lang-1", 3%nat)])].
Proof. reflexivity. Qed.

(** X18. [group_by_project] raises [ValueError] when the id of some item
    does not have exactly one dash. *)
Theorem group_by_project_malformed {T} (data_dict : list (string * T)) :
  Exists (fun item => count_char "-" item.1 <> 1%nat) data_dict ->
  group_by_project data_dict = Raise ValueError.
Proof.
  intros Hex. unfold group_by_project.
  assert (mapM (fun item : string * T => k ← key_fn item; Ok (k, item)) data_dict
          = Raise ValueError) as ->; [|done].
  induction data_dict as [|item data_dict IH]; [by apply Exists_nil in Hex|].
  cbn [mapM].
  destruct (decide (count_char "-" item.1 = 1%nat)) as [Hone|Hnot].
  - apply Exists_cons in Hex as [?|Hex]; [done|]. rewrite (IH Hex).
    destruct (split_bug_id_one_dash_Ok _ Hone) as (p & i & Hs).
    assert (key_fn item = Ok p) as -> by (apply key_fn_Ok; by exists i). done.
  - assert (key_fn item = Raise ValueError) as ->; [|done].
    unfold key_fn. by rewrite split_bug_id_not_one_dash.
Qed.

Lemma group_by_project_malformed_witness :
  group_by_project [("Lang-1", 1%nat); ("Lang", 2%nat)] = Raise ValueError.
Proof.
  apply (group_by_project_malformed [("Lang-1", 1%nat); ("Lang", 2%nat)]).
  apply Exists_cons_tl, Exists_cons_hd. vm_compute. discriminate.
Defined.

End group_by_project_facts.

(** ** repair.py: more on the sweep and on hunk removal *)

Section repair_more.
Import d4j text repair.


(** A repairer of three bugs whose repair of Lang-24 fails. *)
Definition failing_repairer : Repairer :=
  {| repair.d4j := repair.d4j three_bug_repairer;
     dump_repair_config := fun _ f => (Ok tt, f);
     repair_bug_no_cleanup := fun _ _ bug_id _ f =>
       if bool_decide (bug_id = "Lang-24") then (Raise (ExternalError "CUDA"), f)
       else (Ok tt, f);
     clean_up := fun f => (Ok tt, f) |}.


Example repair_stops_at_failure :
  trace (repair.repair dot_star_external failing_repairer dot_star_config false
           empty_world).2 = [ERepairBug "Lang-24"].
Proof. vm_compute. reflexivity. Qed.

(** X20. [remove_buggy_hunk] never returns for a change that starts at
    the first line of the file: the text before the removed lines is empty
    and does not end with a newline, so (when the positions are in the file)
    the first assertion stops it, after the file has been edited. *)
Theorem remove_buggy_hunk_first_line (tf : TextFile) (c : Change) :
  start c = 1%Z ->
  remove_buggy_hunk tf c = Raise IndexError \/
  remove_buggy_hunk tf c = Raise AssertionError.
Proof.
  intros Hstart. unfold remove_buggy_hunk. rewrite Hstart.
  change (1 - 1)%Z with 0%Z.
  assert (form_index tf 0 0 = Ok O) as ->.
  { unfold form_index. simpl. by destruct (content tf). }
  cbn [mbind result_bind rbind].
  destruct (form_index tf _ 0) as [end_index|e] eqn:Hend.
  2: { assert (e = IndexError) as ->
         by (unfold form_index in Hend; repeat case_match; congruence).
       by left. }
  cbn [mbind result_bind rbind]. cbn [text.change].
  match goal with |- context [apply_edit tf ?e] =>
    destruct (apply_edit tf e) as [tf'|e'] eqn:Hedit end.
  2: { assert (e' = IndexError) as ->.
       { unfold apply_edit, form_index in Hedit.
         repeat (case_match; simplify_eq/=; try done). }
       by left. }
  right. done.
Qed.

Definition drop_first_line : Change :=
  {| start := 1; removed_lines := ["a"]; added_lines := ["x"] |}.

Lemma remove_buggy_hunk_first_line_witness :
  remove_buggy_hunk four_lines drop_first_line = Raise IndexError \/
  remove_buggy_hunk four_lines drop_first_line = Raise AssertionError.
Proof.
  apply (remove_buggy_hunk_first_line four_lines drop_first_line). reflexivity.
Defined.

End repair_more.

(** ** runner.py: more on validate_patch *)

Section validate_patch_more.
Import text results runner.
Context (ext : External).
Context (compute_patch : AvgFilePatch -> option TextFile).
Context (RULE : string).

Local Abbreviation validate_patch :=
  (runner.validate_patch ext compute_patch RULE).
Local Abbreviation prepare := (runner.prepare ext compute_patch).

Lemma m_bind_unfold {A B} (m : M A) (k : A -> M B) w :
  (m ≫= k) w = match m w with
               | (Ok a, w1) => k a w1
               | (Raise e, w1) => (Raise e, w1)
               end.
Proof. reflexivity. Qed.

(** The materialization of the file patches changes nothing, and can only
    stop on an assertion. *)
Lemma patch_files_of_run (fps : list AvgFilePatch) w : forall r w',
  patch_files_of ext compute_patch fps w = (r, w') ->
  w' = w /\
  match r with
  | Ok files =>
      Forall2 (fun fp t => compute_patch fp = Some t) fps files /\
      Forall (fun t => exists_in ext w (path t) = true) files
  | Raise e =>
      e = AssertionError /\
      forall files, Forall2 (fun fp t => compute_patch fp = Some t) fps files ->
                    Exists (fun t => exists_in ext w (path t) = false) files
  end.
Proof.
  induction fps as [|fp fps IH]; intros r w'.
  { intros [= <- <-]. split; [done|]. split; constructor. }
  cbn [patch_files_of]. rewrite m_bind_unfold.
  destruct (compute_patch fp) as [t|] eqn:Hfp.
  2: { intros [= <- <-]. split; [done|]. split; [done|]. intros files Hall.
       apply Forall2_cons_inv_l in Hall as (t & ? & ? & _). congruence. }
  change ((mret t : M TextFile) w) with (Ok t, w). cbn iota.
  rewrite m_bind_unfold. unfold path_exists at 1.
  fold (exists_in ext w (path t)).
  destruct (exists_in ext w (path t)) eqn:Hex.
  2: { intros [= <- <-]. split; [done|]. split; [done|]. intros files Hall.
       apply Forall2_cons_inv_l in Hall as (t' & files' & Ht' & _ & ->).
       assert (t' = t) as -> by congruence. by apply Exists_cons_hd. }
  rewrite m_bind_unfold. change (massert true w) with (Ok tt, w). cbn iota.
  rewrite m_bind_unfold.
  destruct (patch_files_of ext compute_patch fps w) as [[files|e] w0] eqn:Hrest;
    destruct (IH _ _ eq_refl) as [-> Hres].
  - intros [= <- <-]. split; [done|]. destruct Hres as [Hall Hex'].
    split; by constructor.
  - intros [= <- <-]. split; [done|]. destruct Hres as [-> Hres]. split; [done|].
    intros files Hall.
    apply Forall2_cons_inv_l in Hall as (t' & files' & _ & Hall & ->).
    apply Exists_cons_tl. by apply Hres.
Qed.

(** The patch cannot be validated: it is a duplicate, one of its files
    cannot be materialized or does not exist, or its files do not have one
    and the same path (in particular, it has no file). *)
Definition unfit (w : World) (patch : AvgPatch) : Prop :=
  is_duplicate patch = true \/
  Exists (fun fp => compute_patch fp = None) (file_patches patch) \/
  exists files,
    Forall2 (fun fp t => compute_patch fp = Some t) (file_patches patch) files /\
    (Exists (fun t => exists_in ext w (path t) = false) files \/
     length (remove_dups (path <$> files)) <> 1%nat).

(** X21. [validate_patch] stops on an assertion, before the checkout and
    so with no command run and no file written, on a patch that is a
    duplicate, that has a file it cannot materialize or that does not exist,
    or whose files do not all have one same path; a patch with no file is
    such a patch. *)
Theorem validate_patch_unfit d4j_ bug_id patch w :
  unfit w patch ->
  validate_patch d4j_ bug_id patch w = (Raise AssertionError, w).
Proof.
  intros Hunfit. unfold runner.validate_patch, runner.prepare.
  unfold mbind, M_bind, get_world, massert, lift, assert.
  destruct (is_duplicate patch) eqn:Hdup; [done|]. cbn [negb].
  destruct (patch_files_of ext compute_patch (file_patches patch) w)
    as [[files|e] w0] eqn:Hfiles;
    destruct (patch_files_of_run _ _ _ _ Hfiles) as [-> Hres].
  2: { by destruct Hres as [-> _]. }
  destruct Hres as [Hall Hex].
  destruct Hunfit as [?|[Hnone|(files' & Hall' & Hbad)]]; [congruence|..].
  - exfalso.
    assert (Hno : forall fps ts,
      Forall2 (fun fp t => compute_patch fp = Some t) fps ts ->
      ~ Exists (fun fp => compute_patch fp = None) fps).
    { induction 1 as [|fp t fps ts Hfp _ IH]; intros Hex0.
      - by apply Exists_nil in Hex0.
      - apply Exists_cons in Hex0 as [?|?]; [congruence|by apply IH]. }
    by apply (Hno _ _ Hall).
  - assert (Hsame : forall fps ts,
      Forall2 (fun fp t => compute_patch fp = Some t) fps ts ->
      forall ts', Forall2 (fun fp t => compute_patch fp = Some t) fps ts' ->
                  ts' = ts).
    { induction 1 as [|fp t fps ts Hfp _ IH]; intros ts' Hall0.
      - by apply Forall2_nil_inv_l in Hall0.
      - apply Forall2_cons_inv_l in Hall0 as (t' & ts0 & Ht' & Hall0 & ->).
        f_equal; [congruence|by apply IH]. }
    rewrite (Hsame _ _ Hall _ Hall') in Hbad. clear Hsame Hall'.
    destruct Hbad as [Hmiss|Hpaths].
    + exfalso. apply Exists_exists in Hmiss as (t & Ht & Hmiss).
      rewrite Forall_forall in Hex. specialize (Hex t Ht). congruence.
    + apply Nat.eqb_neq in Hpaths. by rewrite Hpaths.
Qed.

(** What [parse_and_write] has done when it lets the validation go on. *)
Lemma parse_and_write_None start_time files : forall w w',
  parse_and_write ext start_time files w = (Ok None, w') ->
  Forall (goes_on ext) files /\
  exists evs,
    trace w' = trace w ++ evs /\
    Forall (fun e => is_run e = false) evs /\
    writes_of evs = (fun p => (path p, content p)) <$> files.
Proof.
  intros w w' Hrun.
  destruct (first_error_split ext files) as [Hall|(pre & f & post & -> & Hpre & Hf)].
  - split; [done|].
    destruct (parse_and_write_all ext start_time files w Hall)
      as (w2 & evs & Hrun' & Htr & Hnorun & Hw).
    rewrite Hrun in Hrun'. injection Hrun' as <-. by exists evs.
  - destruct (parse_and_write_first_error ext start_time pre f post w Hpre Hf)
      as (w2 & c & evs & Hrun' & _).
    rewrite Hrun in Hrun'. discriminate Hrun'.
Qed.

Lemma cost_run start_time w :
  cost ext start_time w = (Ok (perf_counter ext (trace w) - start_time)%Z, w).
Proof. reflexivity. Qed.

(** X22. When [validate_patch] reports [Success]: no file of the patch
    raised a syntax or lexer error and every file has been written, in
    order, before any command other than the checkout; then the build was run
    and succeeded, then [test] was run and succeeded. The output reported is
    that of the build and of the tests, joined by the separator, and the time
    is the clock at the return less the clock at the call. *)
Theorem validate_patch_success d4j_ bug_id patch w start_time files w1 pv w' :
  prepare d4j_ bug_id patch w = (Ok (start_time, files), w1) ->
  validate_patch d4j_ bug_id patch w = (Ok pv, w') ->
  outcome pv = Success ->
  Forall (goes_on ext) files /\
  exists w2 w3 evs comp_stdout comp_stderr val_stdout val_stderr,
    trace w2 = trace w1 ++ evs /\
    Forall (fun e => is_run e = false) evs /\
    writes_of evs = (fun p => (path p, content p)) <$> files /\
    d4j.compile ext d4j_ bug_id w2 = (Ok (true, comp_stdout, comp_stderr), w3) /\
    d4j.test ext d4j_ bug_id 180 w3 = (Ok (true, val_stdout, val_stderr), w') /\
    pv_stdout pv = comp_stdout +:+ RULE +:+ val_stdout /\
    pv_stderr pv = comp_stderr +:+ RULE +:+ val_stderr /\
    time_cost pv = (perf_counter ext (trace w') - start_time)%Z /\
    start_time = perf_counter ext (trace w).
Proof.
  intros Hprep Hrun Hout.
  assert (Hstart : start_time = perf_counter ext (trace w)).
  { clear Hrun. unfold runner.prepare in Hprep.
    apply bind_Ok in Hprep as (w0 & w0' & Hget & H). injection Hget as <- <-.
    apply bind_Ok in H as (? & ? & _ & H). apply bind_Ok in H as (? & ? & _ & H).
    apply bind_Ok in H as (? & ? & _ & H). apply bind_Ok in H as (? & ? & _ & H).
    by apply ret_Ok in H as [[= <- _] _]. }
  unfold runner.validate_patch in Hrun.
  apply bind_Ok in Hrun as ([s fs'] & w1' & Hprep' & Hrun).
  rewrite Hprep in Hprep'. injection Hprep' as <- <- <-.
  apply bind_Ok in Hrun as (early & w2 & Hparse & Hrun).
  destruct early as [parse_error|].
  { exfalso. apply ret_Ok in Hrun as [-> _].
    destruct (first_error_split ext files) as [Hall|(pre & f & post & -> & Hpre & Hf)].
    - destruct (parse_and_write_all ext start_time files w1 Hall)
        as (? & ? & Hrun' & _). congruence.
    - destruct (parse_and_write_first_error ext start_time pre f post w1 Hpre Hf)
        as (? & c & ? & Hrun' & _).
      rewrite Hparse in Hrun'. injection Hrun' as -> _. discriminate Hout. }
  destruct (parse_and_write_None _ _ _ _ Hparse) as (Hall & evs & Htr & Hnorun & Hw).
  split; [done|]. unfold compile_and_test in Hrun.
  apply bind_Ok in Hrun as ([[ok out] err] & w3 & Hcomp & Hrun).
  destruct ok; simpl in Hrun.
  2: { apply bind_Ok in Hrun as (c & ? & _ & Hrun).
       apply ret_Ok in Hrun as [-> _]. discriminate Hout. }
  unfold catch_timeout in Hrun. rewrite m_bind_unfold in Hrun.
  destruct (d4j.test ext d4j_ bug_id 180 w3) as [[[[vok vout] verr]|e] w4] eqn:Htest.
  2: { destruct e; try done. rewrite m_bind_unfold, cost_run in Hrun.
       cbv [mret M_ret] in Hrun. injection Hrun as <- _. discriminate Hout. }
  rewrite m_bind_unfold, cost_run in Hrun.
  cbv [mret M_ret] in Hrun. injection Hrun as <- <-. simpl in Hout.
  destruct vok; [|done].
  exists w2, w3, evs, out, err, vout, verr. by repeat split.
Qed.

(** X23. A file whose parsing raises an exception other than a syntax or
    lexer error does not stop the validation: its type and its message, with a
    line break between them, are appended to the file [unexpected_exception],
    then the file is written like one that parses, and the loop goes on with
    the next file. *)
Theorem parse_and_write_unexpected start_time f rest w type_name msg :
  java_parse ext (content f) = OtherException type_name msg ->
  exists w1,
    parse_and_write ext start_time (f :: rest) w
    = parse_and_write ext start_time rest w1 /\
    trace w1 = trace w ++
      [EParse (content f);
       EAppend "unexpected_exception"
         (list_ascii_of_string type_name ++ [nl] ++ list_ascii_of_string msg);
       EWrite (path f) (content f)] /\
    fs w1 = <[path f := content f]>
              (<["unexpected_exception" :=
                   default [] (fs w !! "unexpected_exception")
                   ++ list_ascii_of_string type_name ++ [nl]
                   ++ list_ascii_of_string msg]> (fs w)).
Proof.
  intros Hparse. cbn [parse_and_write]. rewrite Hparse.
  eexists. split; [reflexivity|]. simpl. rewrite <- !app_assoc. done.
Qed.

End validate_patch_more.

Section validate_patch_more_examples.
Import text results runner.

(** A file patch on another file of the project. *)
Definition bar_candidate (s : string) : AvgFilePatch :=
  {| hunks := [{| result := {| hunk := Some s; is_pruned_halfway := false;
                               is_unfinished := false |} |}];
     bug := {| path := "/co/Lang-1/src/Bar.java"; content := []; cursor := 0 |};
     buggy_hunk_indices := [(O, O)] |}.

Definition foo_and_bar : AvgPatch :=
  {| file_patches := [candidate "good"; bar_candidate "fine"];
     is_duplicate := false |}.

Lemma validate_patch_unfit_witness :
  validate_patch picky_external materialize "----" one_bug_d4j "Lang-1"
    foo_and_bar empty_world
  = (Raise AssertionError, empty_world).
Proof.
  apply (validate_patch_unfit picky_external materialize "----" one_bug_d4j
           "Lang-1" foo_and_bar empty_world).
  right. right.
  exists [text_file "good";
          {| path := "/co/Lang-1/src/Bar.java";
             content := list_ascii_of_string "fine"; cursor := 0 |}].
  split; [by repeat constructor|]. right. vm_compute. discriminate.
Defined.

Definition green_validation : res PatchValidationResult * World :=
  validate_patch green_external materialize "----" one_bug_d4j "Lang-1"
    (single "good") green_world.

Definition green_result : PatchValidationResult :=
  {| outcome := Success; time_cost := 9;
     pv_stdout := "Failing tests: 0" +:+ "----" +:+ "Failing tests: 0";
     pv_stderr := "" +:+ "----" +:+ "" |}.

Lemma green_run : green_validation = (Ok green_result, green_validation.2).
Proof. vm_compute. reflexivity. Qed.

Lemma green_prepare :
  prepare green_external materialize one_bug_d4j "Lang-1" (single "good")
    green_world
  = (Ok (0%Z, [text_file "good"]),
     (prepare green_external materialize one_bug_d4j "Lang-1" (single "good")
        green_world).2).
Proof. vm_compute. reflexivity. Qed.

Lemma validate_patch_success_witness :
  Forall (goes_on green_external) [text_file "good"] /\
  exists w2 w3 evs comp_stdout comp_stderr val_stdout val_stderr,
    trace w2
    = trace (prepare green_external materialize one_bug_d4j "Lang-1"
               (single "good") green_world).2 ++ evs /\
    Forall (fun e => is_run e = false) evs /\
    writes_of evs = (fun p => (path p, content p)) <$> [text_file "good"] /\
    d4j.compile green_external one_bug_d4j "Lang-1" w2
    = (Ok (true, comp_stdout, comp_stderr), w3) /\
    d4j.test green_external one_bug_d4j "Lang-1" 180 w3
    = (Ok (true, val_stdout, val_stderr), green_validation.2) /\
    pv_stdout green_result = comp_stdout +:+ "----" +:+ val_stdout /\
    pv_stderr green_result = comp_stderr +:+ "----" +:+ val_stderr /\
    time_cost green_result
    = (perf_counter green_external (trace green_validation.2) - 0)%Z /\
    0%Z = perf_counter green_external (trace green_world).
Proof.
  exact (validate_patch_success green_external materialize "----" one_bug_d4j
           "Lang-1" (single "good") green_world _ _ _ _ _
           green_prepare green_run eq_refl).
Defined.

(** A parser that breaks down on the text "odd". *)
Definition odd_external : External :=
  {| subprocess_run := fun _ f =>
       (f, Some {| returncode := 0; stdout := "Failing tests: 0"; stderr := "" |});
     java_parse := fun t =>
       if bool_decide (t = list_ascii_of_string "odd")
       then OtherException "<class 'RecursionError'>" "maximum recursion depth"
       else Parsed;
     perf_counter := fun t => Z.of_nat (length t);
     dir_exists := fun _ => true;
     absolute := fun p => p;
     active_bugs := fun _ => [];
     patch_set := fun _ => [];
     fullmatch := fun _ _ => true |}.

Lemma parse_and_write_unexpected_witness :
  exists w1,
    parse_and_write odd_external 0 (text_file "odd" :: []) green_world
    = parse_and_write odd_external 0 [] w1 /\
    trace w1 = trace green_world ++
      [EParse (content (text_file "odd"));
       EAppend "unexpected_exception"
         (list_ascii_of_string "<class 'RecursionError'>" ++ [nl]
          ++ list_ascii_of_string "maximum recursion depth");
       EWrite (path (text_file "odd")) (content (text_file "odd"))] /\
    fs w1 = <[path (text_file "odd") := content (text_file "odd")]>
              (<["unexpected_exception" :=
                   default [] (fs green_world !! "unexpected_exception")
                   ++ list_ascii_of_string "<class 'RecursionError'>" ++ [nl]
                   ++ list_ascii_of_string "maximum recursion depth"]>
                 (fs green_world)).
Proof.
  apply (parse_and_write_unexpected odd_external 0 (text_file "odd") []
           green_world "<class 'RecursionError'>" "maximum recursion depth").
  reflexivity.
Defined.

End validate_patch_more_examples.

(** ** runner.py: more on iter_files *)

Section iter_files_more.
Import text results runner.
Context (to_average_results : SynthesisResultBatch -> list AvgSynthesisResult).

Local Abbreviation avg_results := (runner.avg_results to_average_results).
Local Abbreviation iter_files := (runner.iter_files to_average_results).
Local Abbreviation groups_of := (runner.groups_of to_average_results).

(** Tuple [k] of a [zip]: the elements at position [k] of the lists. *)
Lemma zip_star_lookup {A} (xss : list (list A)) : forall k t,
  zip_star xss !! k = Some t <->
  xss <> [] /\ Forall2 (fun x xs => xs !! k = Some x) t xss.
Proof.
  induction xss as [|xs rest IH]; intros k t.
  - simpl. split; [done|]. by intros [? _].
  - destruct rest as [|ys rest].
    + simpl. rewrite list_lookup_fmap. split.
      * destruct (xs !! k) as [x|] eqn:Hx; [|done]. simpl. intros [= <-].
        split; [done|]. by repeat constructor.
      * intros [_ Hall].
        apply Forall2_cons_inv_r in Hall as (x & t' & Hx & Hnil & ->).
        apply Forall2_nil_inv_r in Hnil as ->. by rewrite Hx.
    + change (zip_star (xs :: ys :: rest))
        with (zip_with cons xs (zip_star (ys :: rest))).
      rewrite lookup_zip_with_Some. split.
      * intros (x & t' & -> & Hx & Ht'). apply IH in Ht' as [_ Hall].
        split; [done|]. by constructor.
      * intros [_ Hall].
        apply Forall2_cons_inv_r in Hall as (x & t' & Hx & Hall & ->).
        exists x, t'. split; [done|]. split; [done|]. apply IH. by split.
Qed.

Lemma mapM_lookup {A B} (f : A -> res B) l ys k y :
  mapM f l = Ok ys ->
  ys !! k = Some y <-> exists x, l !! k = Some x /\ f x = Ok y.
Proof.
  intros Hall%mapM_Forall2. split.
  - intros Hy. destruct (Forall2_lookup_r _ _ _ _ _ Hall Hy) as (x & ? & ?). eauto.
  - intros (x & Hx & Hf).
    destruct (Forall2_lookup_l _ _ _ _ _ Hall Hx) as (y' & Hy' & Hf'). congruence.
Qed.

Lemma Forall2_last {A B} (P : A -> B -> Prop) l k x :
  Forall2 P l k -> last l = Some x -> exists y, last k = Some y /\ P x y.
Proof.
  induction 1 as [|a b l k Hab Hall IH]; [done|].
  destruct Hall as [|a' b' l k Hab' Hall].
  - simpl. intros [= <-]. by exists b.
  - intros Hl. apply IH. exact Hl.
Qed.

Lemma Forall2_functional {A B} (P : A -> B -> Prop) l l' k :
  (forall x x' y, P x y -> P x' y -> x = x') ->
  Forall2 P l k -> Forall2 P l' k -> l = l'.
Proof.
  intros Hfun Hall. revert l'. induction Hall as [|a b l k Hab _ IH]; intros l' Hall'.
  - by apply Forall2_nil_inv_r in Hall'.
  - apply Forall2_cons_inv_r in Hall' as (a' & l0 & Hab' & Hall' & ->).
    f_equal; [by eapply Hfun|by apply IH].
Qed.

Lemma Forall2_choice {A B C} (P : A -> B -> Prop) (Q : C -> B -> Prop) l k :
  Forall2 P l k -> (forall x y, P x y -> exists z, Q z y) ->
  exists zs, Forall2 Q zs k.
Proof.
  intros Hall HPQ. induction Hall as [|a b l k Hab _ [zs IH]]; [by exists []|].
  destruct (HPQ _ _ Hab) as [z Hz]. exists (z :: zs). by constructor.
Qed.

(** Every averaged result of a hunk carries the buggy hunk of that hunk. *)
Lemma avg_results_snd (h : HunkRepairResult) (t : _AvgResult) :
  t ∈ avg_results h -> t.2 = buggy_hunk h.
Proof.
  unfold runner.avg_results.
  intros (tagged & Hin & _)%list_elem_of_bind.
  apply list_elem_of_bind in Hin as (a & Hin & _).
  by apply list_elem_of_singleton in Hin as ->.
Qed.

Lemma file_patch_of_Ok (g : list _AvgResult) fp :
  file_patch_of g = Ok fp ->
  exists t, last g = Some t /\
    fp = {| hunks := g.*1; bug := file t.2;
            buggy_hunk_indices :=
              (fun t : _AvgResult => (start t.2, end_ t.2)) <$> g |}.
Proof.
  unfold file_patch_of. destruct (0 <? length g)%nat; [|done]. simpl.
  destruct (last g) as [[a bh]|]; [|done]. intros [= <-]. by eexists.
Qed.

(** File patch [fp] is what rank [k] gives for a file with these hunks: the
    [k]-th averaged result of each hunk, in the order of the hunks, with the
    offsets of each hunk; its buggy file is that of the last hunk. *)
Definition file_patch_at (k : nat) (fp : AvgFilePatch)
    (hunk_results : list HunkRepairResult) : Prop :=
  Forall2 (fun a h => avg_results h !! k = Some (a, buggy_hunk h))
          (hunks fp) hunk_results /\
  buggy_hunk_indices fp
  = (fun h => (start (buggy_hunk h), end_ (buggy_hunk h))) <$> hunk_results /\
  exists h, last hunk_results = Some h /\ bug fp = file (buggy_hunk h).

(** Column [k] of the averaged results of the hunks of a file. *)
Definition column (k : nat) (g : list _AvgResult)
    (hunk_results : list HunkRepairResult) : Prop :=
  hunk_results <> [] /\
  Forall2 (fun t h => avg_results h !! k = Some t) g hunk_results.

Lemma column_patch k hunk_results g fp :
  column k g hunk_results -> file_patch_of g = Ok fp ->
  file_patch_at k fp hunk_results.
Proof.
  intros [Hne Hcol] (t & Hlast & ->)%file_patch_of_Ok.
  assert (Hsnd : Forall2 (fun (t : _AvgResult) h =>
                   avg_results h !! k = Some t /\ t.2 = buggy_hunk h)
                   g hunk_results).
  { eapply Forall2_impl; [exact Hcol|]. intros t0 h Ht0. simpl in Ht0.
    split; [done|]. apply avg_results_snd. by eapply list_elem_of_lookup_2. }
  split; [|split]; simpl.
  - apply Forall2_fmap_l. eapply Forall2_impl; [exact Hsnd|].
    intros [a bh] h [Ha Hbh]. simpl in *. by subst.
  - clear -Hsnd. induction Hsnd as [|t h g hrs [_ Ht] _ IH]; [done|].
    rewrite !fmap_cons, IH, Ht. done.
  - destruct (Forall2_last _ _ _ _ Hsnd Hlast) as (h & Hh & _ & Ht).
    exists h. by rewrite Ht.
Qed.

Lemma file_patch_at_column k hunk_results fp :
  file_patch_at k fp hunk_results -> exists g, column k g hunk_results.
Proof.
  intros (Hall & _ & h & Hlast & _).
  destruct (Forall2_choice _ (fun (t : _AvgResult) h => avg_results h !! k = Some t)
              _ _ Hall) as [g Hg]; [by eauto|].
  exists g. split; [|done]. by intros ->.
Qed.

Lemma file_patch_at_unique k hunk_results fp fp' :
  file_patch_at k fp hunk_results -> file_patch_at k fp' hunk_results ->
  fp = fp'.
Proof.
  intros (Hall & Hidx & h & Hlast & Hbug) (Hall' & Hidx' & h' & Hlast' & Hbug').
  assert (hunks fp = hunks fp') as Hh.
  { eapply Forall2_functional; [|exact Hall|exact Hall']. simpl.
    intros a a' h0 Ha Ha'. congruence. }
  destruct fp, fp'. simpl in *. f_equal; congruence.
Qed.

(** The groups at rank [k], file by file. *)
Lemma rank_lookup (files : list (list HunkRepairResult)) k fg :
  zip_star (zip_star <$> groups_of files) !! k = Some fg <->
  files <> [] /\ Forall2 (column k) fg files.
Proof.
  rewrite zip_star_lookup. unfold runner.groups_of.
  rewrite <- list_fmap_compose, Forall2_fmap_r. split.
  - intros [Hne Hall]. split; [by destruct files|].
    eapply Forall2_impl; [exact Hall|]. intros g hrs Hg. simpl in Hg.
    apply zip_star_lookup in Hg as [Hne' Hg]. apply Forall2_fmap_r in Hg.
    split; [by destruct hrs|done].
  - intros [Hne Hall]. split; [by destruct files|].
    eapply Forall2_impl; [exact Hall|]. intros g hrs [Hne' Hg]. simpl.
    apply zip_star_lookup. split; [by destruct hrs|]. by apply Forall2_fmap_r.
Qed.

Lemma patch_of_rank_Ok (fg : list (list _AvgResult)) patch :
  patch_of_rank fg = Ok patch ->
  Forall2 (fun g fp => file_patch_of g = Ok fp) fg patch.
Proof.
  unfold patch_of_rank. destruct (0 <? length fg)%nat; [|done]. simpl.
  apply mapM_Forall2.
Qed.

Lemma iter_files_Ok files cands :
  iter_files files = Ok cands ->
  mapM patch_of_rank (zip_star (zip_star <$> groups_of files)) = Ok cands.
Proof.
  unfold runner.iter_files.
  by destruct (forallb group_ok (runner.groups_of to_average_results files)).
Qed.

Lemma iter_files_rank files cands k patch :
  iter_files files = Ok cands -> cands !! k = Some patch ->
  files <> [] /\ Forall2 (file_patch_at k) patch files.
Proof.
  intros Hit%iter_files_Ok Hk.
  apply (mapM_lookup _ _ _ k patch Hit) in Hk as (fg & Hfg & Hpatch).
  apply rank_lookup in Hfg as [Hne Hcols]. split; [done|].
  apply patch_of_rank_Ok in Hpatch.
  apply Forall2_same_length_lookup_2.
  - apply Forall2_length in Hcols, Hpatch. congruence.
  - intros i fp hrs Hfp Hhrs.
    destruct (Forall2_lookup_r _ _ _ _ _ Hpatch Hfp) as (g & Hg & Hof).
    eapply column_patch; [|exact Hof].
    by eapply Forall2_lookup_lr.
Qed.

(** X24. The candidates listed by [iter_files]: the candidate of rank [k]
    exists exactly when every hunk of every file has a [k]-th averaged
    result (and there is a file), and it is made, file by file in the order
    of the files, of the [k]-th averaged results of the hunks of the file in
    the order of the hunks, with the offsets of the hunks and the buggy file
    of the last hunk. *)
Theorem iter_files_ranks files cands :
  iter_files files = Ok cands ->
  forall k patch,
    cands !! k = Some patch <->
    files <> [] /\ Forall2 (file_patch_at k) patch files.
Proof.
  intros Hit k patch. split; [by apply iter_files_rank|].
  intros [Hne Hall].
  destruct (Forall2_choice _ (column k) _ _ Hall) as [fg Hfg].
  { intros fp hrs Hfp. by eapply file_patch_at_column. }
  assert (Hrank : zip_star (zip_star <$> groups_of files) !! k = Some fg)
    by by apply rank_lookup.
  destruct (patch_of_rank_total (groups_of files) fg)
    as [patch' Hpatch']; [by eapply list_elem_of_lookup_2|].
  assert (Hk : cands !! k = Some patch').
  { apply (mapM_lookup _ _ _ k patch' (iter_files_Ok _ _ Hit)). by exists fg. }
  destruct (iter_files_rank _ _ _ _ Hit Hk) as [_ Hall'].
  rewrite Hk. f_equal. symmetry.
  eapply Forall2_functional; [|exact Hall|exact Hall'].
  intros fp fp' hrs. apply file_patch_at_unique.
Qed.

End iter_files_more.

Section iter_files_asserts.
Import text results runner.
Context (to_average_results : SynthesisResultBatch -> list AvgSynthesisResult).

Local Abbreviation avg_results := (runner.avg_results to_average_results).
Local Abbreviation iter_files := (runner.iter_files to_average_results).
Local Abbreviation groups_of := (runner.groups_of to_average_results).

Lemma remove_dups_one {A} `{EqDecision A} (l : list A) :
  length (remove_dups l) = 1%nat <->
  exists x, x ∈ l /\ forall y, y ∈ l -> y = x.
Proof.
  split.
  - intros Hlen. destruct (remove_dups l) as [|x [|? ?]] eqn:Hr; try done.
    exists x. split.
    + apply elem_of_remove_dups. rewrite Hr. apply list_elem_of_here.
    + intros y Hy. apply (proj2 (elem_of_remove_dups _ _)) in Hy.
      rewrite Hr in Hy. by apply list_elem_of_singleton in Hy.
  - intros (x & Hx & Hall). pose proof (NoDup_remove_dups l) as Hnd.
    assert (Hall' : forall y, y ∈ remove_dups l -> y = x).
    { intros y Hy. apply Hall. by apply (proj1 (elem_of_remove_dups _ _)). }
    apply (proj2 (elem_of_remove_dups _ _)) in Hx.
    destruct (remove_dups l) as [|a [|b r]]; [by apply elem_of_nil in Hx|done|].
    exfalso. apply NoDup_cons in Hnd as [Hnotin _]. apply Hnotin.
    assert (a = b) as ->.
    { rewrite (Hall' a) by apply list_elem_of_here.
      rewrite (Hall' b); [done|]. apply list_elem_of_further, list_elem_of_here. }
    apply list_elem_of_here.
Qed.

Lemma elem_of_concat {A} (x : A) (ls : list (list A)) :
  x ∈ concat ls <-> exists l, x ∈ l /\ l ∈ ls.
Proof.
  induction ls as [|l ls IH]; simpl.
  - split; [by intros ?%elem_of_nil|]. by intros (l & _ & ?%elem_of_nil).
  - rewrite elem_of_app, IH. split.
    + intros [Hx|(l' & Hx & Hl')].
      * exists l. split; [done|apply list_elem_of_here].
      * exists l'. split; [done|by apply list_elem_of_further].
    + intros (l' & Hx & [->|Hl']%elem_of_cons); [by left|].
      right. by exists l'.
Qed.

(** The hunks of a file can be put side by side: there is a hunk, every hunk
    has the same number of averaged results, which is not zero, and the buggy
    hunks are all of files with one same path. *)
Definition good_file (hunk_results : list HunkRepairResult) : Prop :=
  exists n p,
    (0 < n)%nat /\ hunk_results <> [] /\
    forall h, h ∈ hunk_results ->
      length (avg_results h) = n /\ path (file (buggy_hunk h)) = p.

Lemma group_ok_good hunk_results :
  group_ok (avg_results <$> hunk_results) = true <-> good_file hunk_results.
Proof.
  unfold group_ok. rewrite !andb_true_iff, Nat.ltb_lt, !Nat.eqb_eq.
  rewrite !remove_dups_one, length_fmap. split.
  - intros [[Hpos (n & Hn & Hlens)] (p & Hp & Hpaths)].
    assert (Hlen : forall h, h ∈ hunk_results -> length (avg_results h) = n).
    { intros h Hh. apply Hlens. rewrite <- list_fmap_compose.
      apply list_elem_of_fmap. by exists h. }
    assert (Hpath : forall h (t : _AvgResult), h ∈ hunk_results -> t ∈ avg_results h ->
                    path (file (buggy_hunk h)) = p).
    { intros h t Hh Ht. rewrite <- (avg_results_snd _ _ _ Ht). apply Hpaths.
      apply list_elem_of_fmap. exists t. split; [done|].
      apply elem_of_concat. exists (avg_results h). split; [done|].
      apply list_elem_of_fmap. by exists h. }
    apply list_elem_of_fmap in Hp as (t0 & _ & Ht0).
    apply elem_of_concat in Ht0 as (l0 & Ht0 & Hl0).
    apply list_elem_of_fmap in Hl0 as (h0 & -> & Hh0).
    exists n, p. split.
    { rewrite <- (Hlen h0 Hh0). destruct (avg_results h0); [|simpl; lia].
      by apply elem_of_nil in Ht0. }
    split; [intros ->; by apply elem_of_nil in Hh0|].
    intros h Hh. split; [by apply Hlen|].
    destruct (avg_results h) as [|t r] eqn:Hr.
    { exfalso. pose proof (Hlen h Hh) as Hh_len. rewrite Hr in Hh_len.
      pose proof (Hlen h0 Hh0) as Hh0_len.
      destruct (avg_results h0); [by apply elem_of_nil in Ht0|].
      simpl in Hh_len, Hh0_len. lia. }
    apply (Hpath h t Hh). rewrite Hr. apply list_elem_of_here.
  - intros (n & p & Hn & Hne & Hall).
    destruct hunk_results as [|h0 hrs]; [done|].
    destruct (Hall h0 (list_elem_of_here _ _)) as [Hlen0 Hpath0].
    destruct (avg_results h0) as [|t0 r0] eqn:Hr0; [simpl in Hlen0; lia|].
    split; [split|].
    + simpl. lia.
    + exists n. split.
      * rewrite <- list_fmap_compose. apply list_elem_of_fmap. exists h0.
        split; [simpl; by rewrite Hr0|apply list_elem_of_here].
      * intros y Hy. rewrite <- list_fmap_compose in Hy.
        apply list_elem_of_fmap in Hy as (h & -> & Hh). simpl. by apply Hall.
    + exists p. split.
      * apply list_elem_of_fmap. exists t0. split.
        { rewrite (avg_results_snd to_average_results h0 t0); [done|].
          rewrite Hr0. apply list_elem_of_here. }
        apply elem_of_concat. exists (avg_results h0).
        split; [rewrite Hr0; apply list_elem_of_here|].
        apply list_elem_of_fmap. exists h0. split; [done|apply list_elem_of_here].
      * intros y Hy. apply list_elem_of_fmap in Hy as (t & -> & Ht).
        apply elem_of_concat in Ht as (l & Ht & Hl).
        apply list_elem_of_fmap in Hl as (h & -> & Hh).
        rewrite (avg_results_snd to_average_results h t Ht). by apply Hall.
Qed.

(** X25. [iter_files] lists the candidates exactly when every file has a
    hunk, all the hunks of a file have the same number of averaged results,
    not zero, and their buggy hunks are of files with one same path;
    otherwise it stops on an assertion, and it raises nothing else. *)
Theorem iter_files_asserts (files : list (list HunkRepairResult)) :
  (Forall good_file files /\ exists cands, iter_files files = Ok cands) \/
  (~ Forall good_file files /\ iter_files files = Raise AssertionError).
Proof.
  assert (Hiff : forallb group_ok (groups_of files) = true <-> Forall good_file files).
  { unfold runner.groups_of. rewrite forallb_forall, Forall_forall. split.
    - intros Hall hrs Hhrs. apply group_ok_good, Hall.
      apply list_elem_of_In, list_elem_of_fmap. by exists hrs.
    - intros Hall g Hg. apply list_elem_of_In, list_elem_of_fmap in Hg as (hrs & -> & Hhrs).
      by apply group_ok_good, Hall. }
  destruct (forallb group_ok (groups_of files)) eqn:Hok.
  - left. split; [by apply Hiff|]. by apply iter_files_yields.
  - right. split; [|by apply iter_files_raises].
    intros Hall. apply Hiff in Hall. congruence.
Qed.

End iter_files_asserts.

(** ** runner.py: more on transform *)

Section transform_more.
Import text results runner.
Context (to_average_results : SynthesisResultBatch -> list AvgSynthesisResult).

Local Abbreviation iter_files := (runner.iter_files to_average_results).
Local Abbreviation transform_bug := (runner.transform_bug to_average_results).
Local Abbreviation transform := (runner.transform to_average_results).

Implicit Types (cands : list (list AvgFilePatch)) (patches : list AvgPatch)
  (appeared : gset string) (tr : RepairTransformedResult) (st : RunnerState).

(** The transformed results only grow: for every bug the patches recorded
    are kept, in their order, in front of the new ones; the texts seen are
    kept; the bugs recorded keep their place. *)
Definition grows tr tr' : Prop :=
  (forall bug_id,
     bug_patches tr bug_id `prefix_of` bug_patches tr' bug_id /\
     bug_appeared tr bug_id ⊆ bug_appeared tr' bug_id) /\
  pydict.keys (tr_result_dict tr) `prefix_of` pydict.keys (tr_result_dict tr') /\
  pydict.keys (all_appeared tr) `prefix_of` pydict.keys (all_appeared tr').

Lemma grows_refl tr : grows tr tr.
Proof. by repeat split. Qed.

Lemma grows_trans tr1 tr2 tr3 : grows tr1 tr2 -> grows tr2 tr3 -> grows tr1 tr3.
Proof.
  intros (H1 & K1 & A1) (H2 & K2 & A2). split; [|split; by etrans].
  intros bug_id. destruct (H1 bug_id), (H2 bug_id). split; by etrans.
Qed.

Lemma transform_loop_keeps cands : forall i patches appeared,
  patches `prefix_of` (transform_loop i cands patches appeared).1 /\
  appeared ⊆ (transform_loop i cands patches appeared).2.
Proof.
  induction cands as [|p cands IH]; intros i patches appeared; [done|].
  cbn [transform_loop].
  assert (Hstep : patches `prefix_of` (transform_step patches appeared i p).1 /\
                  appeared ⊆ (transform_step patches appeared i p).2).
  { unfold transform_step.
    destruct (i <? length patches)%nat; [done|].
    destruct (any_hunk_missing p); [split; [by apply prefix_app_r|done]|].
    case_bool_decide; (split; [by apply prefix_app_r|]); [done|].
    apply union_subseteq_r. }
  destruct (transform_step patches appeared i p) as [patches' appeared'].
  destruct Hstep as [Hp Ha]. destruct (IH (S i) patches' appeared') as [Hp' Ha'].
  split; by etrans.
Qed.

Lemma keys_set_prefix {V} (k : string) (v : V) (d : list (string * V)) :
  pydict.keys d `prefix_of` pydict.keys (pydict.set k v d).
Proof.
  destruct (pydict.get k d) as [v0|] eqn:Hg.
  - by rewrite keys_set_present.
  - rewrite keys_set_absent by done. by apply prefix_app_r.
Qed.

Lemma after_bug_grows tr bug_id cands : grows tr (after_bug tr bug_id cands).
Proof.
  split; [|split; apply keys_set_prefix].
  intros b. destruct (decide (bug_id = b)) as [<-|Hne].
  - unfold after_bug, bug_patches, bug_appeared. simpl.
    rewrite !get_set_eq. simpl. apply transform_loop_keeps.
  - by destruct (after_bug_other tr bug_id cands b Hne) as (-> & -> & _).
Qed.

(** The entries made for a bug before its candidates are listed. *)
Definition with_defaults tr (bug_id : string) : RepairTransformedResult :=
  {| tr_result_dict := (pydict.setdefault bug_id [] (tr_result_dict tr)).2;
     all_appeared := (pydict.setdefault bug_id ∅ (all_appeared tr)).2 |}.

Lemma setdefault_keys_prefix {V} (k : string) (v : V) (d : list (string * V)) :
  pydict.keys d `prefix_of` pydict.keys (pydict.setdefault k v d).2.
Proof.
  unfold pydict.setdefault. destruct (pydict.get k d); [done|].
  apply keys_set_prefix.
Qed.

Lemma setdefault_get {V} (k k' : string) (v : V) (d : list (string * V)) :
  default v (pydict.get k' (pydict.setdefault k v d).2)
  = default v (pydict.get k' d).
Proof.
  unfold pydict.setdefault. destruct (pydict.get k d) eqn:Hk; [done|]. simpl.
  destruct (decide (k = k')) as [<-|Hne].
  - by rewrite get_set_eq, Hk.
  - by rewrite get_set_ne.
Qed.

Lemma with_defaults_grows tr bug_id : grows tr (with_defaults tr bug_id).
Proof.
  split; [|split; apply setdefault_keys_prefix].
  intros b. unfold bug_patches, bug_appeared, with_defaults. simpl.
  by rewrite !setdefault_get.
Qed.

Lemma with_transformed_twice st tr tr' :
  with_transformed (with_transformed st tr) tr' = with_transformed st tr'.
Proof. reflexivity. Qed.

Lemma iter_files_Ok_or_assert files :
  (exists cands, iter_files files = Ok cands) \/
  iter_files files = Raise AssertionError.
Proof.
  destruct (forallb group_ok (groups_of to_average_results files)) eqn:Hok.
  - left. by apply iter_files_yields.
  - right. by apply iter_files_raises.
Qed.

(** One bug, in every execution. *)
Lemma transform_bug_any st tr bug_id files :
  transformed_result (report st) = Some tr ->
  exists tr',
    grows tr tr' /\
    ((transform_bug bug_id files st = (Ok tt, with_transformed st tr')) \/
     (transform_bug bug_id files st = (Raise AssertionError, with_transformed st tr'))).
Proof.
  intros Htr. destruct (iter_files_Ok_or_assert files) as [[cands Hit]|Hit].
  - exists (after_bug tr bug_id cands). split; [apply after_bug_grows|].
    left. by apply transform_bug_run.
  - exists (with_defaults tr bug_id). split; [apply with_defaults_grows|].
    right. unfold runner.transform_bug.
    rewrite rm_bind_unfold, (get_transformed_run _ _ Htr).
    unfold with_defaults.
    destruct (pydict.setdefault bug_id [] (tr_result_dict tr)) as [patches rd].
    destruct (pydict.setdefault bug_id ∅ (all_appeared tr)) as [appeared aa].
    rewrite rm_bind_unfold, set_transformed_run.
    rewrite rm_bind_unfold. unfold rm_lift. by rewrite Hit.
Qed.

(** The loop over the bugs, in every execution. *)
Lemma sweep_any raw : forall st tr,
  transformed_result (report st) = Some tr ->
  exists tr',
    grows tr tr' /\
    let run := rforM_ raw (fun '(bug_id, files) => transform_bug bug_id files) st in
    run = (Ok tt, with_transformed st tr') \/
    run = (Raise AssertionError, with_transformed st tr').
Proof.
  induction raw as [|[bug_id files] raw IH]; intros st tr Htr.
  - exists tr. split; [apply grows_refl|]. left. simpl.
    by rewrite with_transformed_id.
  - destruct (transform_bug_any st tr bug_id files Htr) as (tr1 & Hg1 & [Hrun|Hrun]).
    + destruct (IH (with_transformed st tr1) tr1 eq_refl) as (tr2 & Hg2 & Hrest).
      exists tr2. split; [by eapply grows_trans|].
      cbn [rforM_]. rewrite rm_bind_unfold, Hrun.
      by rewrite !with_transformed_twice in Hrest.
    + exists tr1. split; [done|]. right.
      cbn [rforM_]. by rewrite rm_bind_unfold, Hrun.
Qed.

(** [transform], in every execution. *)
Lemma transform_any st :
  exists tr',
    grows (recorded st) tr' /\
    (transform st = (Ok tt, saved (with_transformed st tr')) \/
     transform st = (Raise AssertionError, with_transformed st tr')).
Proof.
  unfold runner.transform, recorded. rewrite rm_bind_unfold. unfold rm_get.
  rewrite rm_bind_unfold.
  destruct (transformed_result (report st)) as [tr|] eqn:Htr.
  - change ((mret tt : RM ()) st) with (Ok tt, st). cbn iota.
    destruct (sweep_any (rr_result_dict (repair_result (report st))) st tr Htr)
      as (tr' & Hg & [Hrun|Hrun]); exists tr'; (split; [done|]);
      rewrite rm_bind_unfold, Hrun; [by left|by right].
  - rewrite set_transformed_run. fold no_transformed.
    destruct (sweep_any (rr_result_dict (repair_result (report st)))
                (with_transformed st no_transformed) no_transformed eq_refl)
      as (tr' & Hg & [Hrun|Hrun]); exists tr'; (split; [done|]);
      rewrite rm_bind_unfold, Hrun; rewrite with_transformed_twice;
      [by left|by right].
Qed.

(** X26. [transform] is incremental, whether it returns or stops: after
    it, for every bug, the patches that were recorded are still there, each at
    its rank and as it was, in front of the patches added; no text is removed
    from the texts seen; and the bugs that were recorded keep their place in
    the two dictionaries. *)
Theorem transform_grows st :
  exists tr',
    transformed_result (report (transform st).2) = Some tr' /\
    grows (recorded st) tr'.
Proof.
  destruct (transform_any st) as (tr' & Hg & [-> | ->]); by exists tr'.
Qed.

(** X27. [transform] returns or stops on an assertion, and raises nothing
    else. It changes nothing of the report but the transformed results, runs
    nothing and dispatches nothing. When it returns, the report has been
    saved as it then is; when it stops, nothing has been saved, although the
    transformed results in memory may have grown. *)
Theorem transform_saves st :
  let r := (transform st).1 in
  let st' := (transform st).2 in
  config (report st') = config (report st) /\
  repair_result (report st') = repair_result (report st) /\
  validation_result (report st') = validation_result (report st) /\
  outside st' = outside st /\ dispatched st' = dispatched st /\
  ((r = Ok tt /\ disk st' = Some (report st')) \/
   (r = Raise AssertionError /\ disk st' = disk st)).
Proof.
  destruct (transform_any st) as (tr' & _ & [-> | ->]); simpl.
  - repeat split; try done. by left.
  - repeat split; try done. by right.
Qed.

End transform_more.

(** ** runner.py: what validate records *)

Section validate_more.
Import text results runner.
Context (ext : External).
Context (to_average_results : SynthesisResultBatch -> list AvgSynthesisResult).
Context (compute_patch : AvgFilePatch -> option TextFile).
Context (RULE : string).
Context (parallel : nat -> list (M PatchValidationResult)
                    -> M (list PatchValidationResult)).

Local Abbreviation validate :=
  (runner.validate ext to_average_results compute_patch RULE parallel).
Local Abbreviation run_batch := (runner.run_batch ext compute_patch RULE parallel).

Implicit Types (st : RunnerState) (vr : option ValidationResult).

Definition no_validation : ValidationResult :=
  {| validation_configs := []; vr_result_dict := [] |}.

(** The validation result of a patch, with the index of its configuration,
    and the configurations used so far. *)
Definition result_at vr (bug_id : string) (rank : nat)
    : option (nat * PatchValidationResult) :=
  pydict.get rank
    (default [] (pydict.get bug_id (vr_result_dict (default no_validation vr)))).

Definition configs_of vr : list ValidationConfig :=
  validation_configs (default no_validation vr).

(** What has been recorded since [validate] was called on [old] with
    [config]. *)
Definition recorded_since (old : option ValidationResult)
    (config : ValidationConfig) st : Prop :=
  is_Some (validation_result (report st)) /\
  configs_of (validation_result (report st)) = configs_of old ++ [config] /\
  (forall bug_id rank x,
     result_at old bug_id rank = Some x ->
     result_at (validation_result (report st)) bug_id rank = Some x) /\
  (forall bug_id rank i pv,
     result_at (validation_result (report st)) bug_id rank = Some (i, pv) ->
     result_at old bug_id rank = Some (i, pv) \/ i = length (configs_of old)).

Definition holds (I : RunnerState -> Prop) {A} (m : RM A) : Prop :=
  forall st, I st -> I (m st).2.

Lemma holds_bind I {A B} (m : RM A) (k : A -> RM B) :
  holds I m -> (forall a, holds I (k a)) -> holds I (m ≫= k).
Proof.
  intros Hm Hk st HI. rewrite rm_bind_unfold. specialize (Hm st HI).
  destruct (m st) as [[a|e] st1]; [|done]. by apply Hk.
Qed.

Lemma holds_same I {A} (m : RM A) :
  (forall st, report (m st).2 = report st) ->
  (forall st st', report st' = report st -> I st -> I st') ->
  holds I m.
Proof. intros Hm HI st Hst. eapply HI; [apply Hm|done]. Qed.

Lemma holds_rforM I {A} (f : A -> RM unit) l :
  (forall x, holds I (f x)) -> holds I (rforM_ l f).
Proof.
  intros Hf. induction l as [|x l IH]; [by intros st|].
  cbn [rforM_]. apply holds_bind; [apply Hf|done].
Qed.

Lemma recorded_since_report old config st st' :
  report st' = report st -> recorded_since old config st ->
  recorded_since old config st'.
Proof. unfold recorded_since. by intros ->. Qed.

Lemma get_validation_run st v :
  validation_result (report st) = Some v -> get_validation st = (Ok v, st).
Proof.
  intros Hv. unfold get_validation, mbind, RM_bind, rm_get. by rewrite Hv.
Qed.

Lemma get_validation_none st :
  validation_result (report st) = None ->
  get_validation st = (Raise AssertionError, st).
Proof.
  intros Hv. unfold get_validation, mbind, RM_bind, rm_get. by rewrite Hv.
Qed.

Lemma record_result_holds old config item_result :
  holds (recorded_since old config)
        (record_result (length (configs_of old)) item_result).
Proof.
  destruct item_result as [[[bug_id val_idx] patch] val_result].
  intros st (Hsome & Hconfigs & Hkeep & Hnew). unfold record_result.
  rewrite rm_bind_unfold.
  destruct (validation_result (report st)) as [vr|] eqn:Hvr;
    [|by destruct Hsome].
  rewrite (get_validation_run st vr Hvr).
  destruct (pydict.get bug_id (vr_result_dict vr)) as [validated|] eqn:Hbug.
  2: { simpl. unfold recorded_since. by rewrite Hvr. }
  rewrite rm_bind_unfold. unfold rm_assert, rm_lift, assert.
  case_bool_decide as Hfree.
  2: { simpl. unfold recorded_since. by rewrite Hvr. }
  unfold set_validation, mbind, RM_bind, rm_get, set_report. simpl.
  unfold recorded_since. simpl.
  assert (Hat : forall b r,
    result_at (Some {| validation_configs := validation_configs vr;
                       vr_result_dict :=
                         pydict.set bug_id
                           (pydict.set val_idx (length (configs_of old), val_result)
                              validated)
                           (vr_result_dict vr) |}) b r
    = if decide (bug_id = b /\ val_idx = r)
      then Some (length (configs_of old), val_result)
      else result_at (Some vr) b r).
  { intros b r. unfold result_at. simpl.
    destruct (decide (bug_id = b)) as [<-|Hb].
    - rewrite get_set_eq, Hbug. simpl.
      destruct (decide (val_idx = r)) as [<-|Hr].
      + rewrite decide_True by done. by rewrite get_set_eq.
      + rewrite decide_False by (by intros [_ ?]). by rewrite get_set_ne.
    - rewrite decide_False by (by intros [? _]). by rewrite get_set_ne. }
  split; [by eexists|]. split; [done|]. split.
  - intros b r x Hx. rewrite Hat. case_decide as Hhere; [|by apply Hkeep].
    destruct Hhere as [<- <-]. apply Hkeep in Hx.
    unfold result_at in Hx. simpl in Hx. rewrite Hbug in Hx. simpl in Hx.
    congruence.
  - intros b r i pv. rewrite Hat. case_decide as Hhere; [|by apply Hnew].
    intros [= <- <-]. by right.
Qed.

Lemma run_batch_holds old config d4j_ batch :
  holds (recorded_since old config)
        (run_batch d4j_ (length (configs_of old)) batch).
Proof.
  unfold runner.run_batch.
  apply holds_bind; [by apply holds_same; [|apply recorded_since_report]|].
  intros _. apply holds_bind; [by apply holds_same; [|apply recorded_since_report]|].
  intros _. apply holds_bind.
  { apply holds_same; [|apply recorded_since_report].
    intros st. unfold rm_outside. by destruct (parallel _ _ (outside st)). }
  intros val_results. apply holds_bind.
  - apply holds_rforM. intros x. apply record_result_holds.
  - intros _. by apply holds_same; [|apply recorded_since_report].
Qed.

Lemma result_at_collect pattern items vrd configs unvalidated vrd' b r :
  collect ext pattern items vrd = (unvalidated, vrd') ->
  result_at (Some {| validation_configs := configs; vr_result_dict := vrd' |}) b r
  = pydict.get r (default [] (pydict.get b vrd)).
Proof.
  intros (Hdef & _)%collect_spec. unfold result_at. simpl. by rewrite Hdef.
Qed.

Lemma validate_records_run (config : ValidationConfig) st r st' :
  validate config st = (r, st') ->
  (validation_result (report st') = validation_result (report st) /\ r <> Ok tt) \/
  recorded_since (validation_result (report st)) config st'.
Proof.
  intros Hrun. unfold runner.validate in Hrun. rewrite rm_bind_unfold in Hrun.
  destruct (quiet_transform_if_not_performed to_average_results st) as [_ Hv1].
  destruct (transform_if_not_performed to_average_results st) as [[[]|e] st1];
    simpl in Hv1; [|injection Hrun as <- <-; by left].
  rewrite rm_bind_unfold in Hrun. unfold rm_get at 1 in Hrun.
  rewrite rm_bind_unfold in Hrun. unfold rm_outside at 1 in Hrun.
  destruct (get_d4j ext (report st1) (outside st1)) as [[d4j_|e] w2];
    [|injection Hrun as <- <-; by left].
  set (st2 := {| report := report st1; disk := disk st1; outside := w2;
                 dispatched := dispatched st1 |}) in Hrun.
  rewrite rm_bind_unfold in Hrun.
  destruct (transformed_result (report st1)) as [tr|] eqn:Htr.
  2: { unfold get_transformed in Hrun. rewrite rm_bind_unfold in Hrun.
       unfold rm_get in Hrun. simpl in Hrun. rewrite Htr in Hrun.
       injection Hrun as <- <-. by left. }
  rewrite (get_transformed_run st2 tr) in Hrun by done.
  destruct (collect ext (bug_pattern config) (tr_result_dict tr)
              (vr_result_dict
                 (default {| validation_configs := []; vr_result_dict := [] |}
                    (validation_result (report st1)))))
    as [unvalidated vrd'] eqn:Hcollect.
  rewrite rm_bind_unfold in Hrun.
  match type of Hrun with context [set_validation ?vr st2] =>
    change (set_validation vr st2) with
      (Ok tt, (set_validation vr st2).2) in Hrun;
    set (st3 := (set_validation vr st2).2) in Hrun end.
  cbn iota in Hrun. right.
  assert (Hidx : (length (validation_configs
                    (default {| validation_configs := []; vr_result_dict := [] |}
                       (validation_result (report st1))) ++ [config]) - 1)%nat
                 = length (configs_of (validation_result (report st)))).
  { rewrite Hv1, length_app. unfold configs_of, no_validation. simpl. lia. }
  rewrite Hidx in Hrun.
  assert (H3 : recorded_since (validation_result (report st)) config st3).
  { split; [by eexists|]. split; [|split].
    - unfold configs_of. simpl. by rewrite Hv1.
    - intros b rk x Hx. subst st3. simpl.
      rewrite (result_at_collect _ _ _ _ _ _ b rk Hcollect). by rewrite Hv1.
    - intros b rk i pv. subst st3. simpl.
      rewrite (result_at_collect _ _ _ _ _ _ b rk Hcollect). rewrite Hv1.
      intros Hx. by left. }
  match type of Hrun with context [rforM_ ?l ?f st3] =>
    pose proof (holds_rforM (recorded_since (validation_result (report st)) config)
                  f l (fun batch => run_batch_holds _ config d4j_ batch) st3 H3)
      as Hfinal end.
  by rewrite Hrun in Hfinal.
Qed.

(** X28. What [validate] does to the validation results, in every
    execution: no result recorded before is lost or replaced; every result
    that is new carries the index of the configuration of this call, which is
    the number of configurations used before; and when [validate] returns,
    its configuration has been appended to the configurations. *)
Theorem validate_records (config : ValidationConfig) st :
  let old := validation_result (report st) in
  let new := validation_result (report (validate config st).2) in
  (forall bug_id rank x,
     result_at old bug_id rank = Some x -> result_at new bug_id rank = Some x) /\
  (forall bug_id rank i pv,
     result_at new bug_id rank = Some (i, pv) ->
     result_at old bug_id rank = Some (i, pv) \/ i = length (configs_of old)) /\
  ((validate config st).1 = Ok tt -> configs_of new = configs_of old ++ [config]).
Proof.
  destruct (validate config st) as [r st'] eqn:Hrun. simpl.
  destruct (validate_records_run config st r st' Hrun)
    as [[-> Hr]|(_ & Hconfigs & Hkeep & Hnew)].
  - split; [done|]. split; [by left|done].
  - done.
Qed.

End validate_more.

(** ** runner.py: the candidates of a concrete bug *)

Section iter_files_more_examples.
Import text results runner.

Definition lang_1_files : list (list HunkRepairResult) :=
  [[hunk_rounds [[synthesized "a"; synthesized "b"];
                 [synthesized "a"; pruned]];
    hunk_rounds [[synthesized "x"; synthesized "y"];
                 [synthesized "x"; synthesized ""]]]].

Definition lang_1_candidates : list (list AvgFilePatch) :=
  Eval vm_compute in
    match iter_files per_result lang_1_files with
    | Ok cands => cands
    | Raise _ => []
    end.

Lemma lang_1_candidates_run :
  iter_files per_result lang_1_files = Ok lang_1_candidates.
Proof. vm_compute. reflexivity. Qed.

Definition lang_1_first : list AvgFilePatch :=
  Eval vm_compute in default [] (lang_1_candidates !! 0%nat).

Lemma iter_files_ranks_witness :
  iter_files per_result lang_1_files = Ok lang_1_candidates /\
  (lang_1_candidates !! 0%nat = Some lang_1_first <->
   lang_1_files <> [] /\
   Forall2 (file_patch_at per_result 0) lang_1_first lang_1_files).
Proof.
  split; [vm_compute; reflexivity|].
  apply (iter_files_ranks per_result lang_1_files lang_1_candidates).
  vm_compute; reflexivity.
Defined.

End iter_files_more_examples.

(** ** runner.py: evaluate_generation *)

Section evaluate_generation_facts.
Import results runner.
Context (to_average_results : SynthesisResultBatch -> list AvgSynthesisResult).
Context {T : Type} (t_zero : T) (t_add : T -> T -> T).
Context (total_gen_time : AvgPatch -> T).
Context (patch_is_unfinished patch_is_pruned : AvgPatch -> bool).

Local Abbreviation zero := (datapoint_zero t_zero).
Local Abbreviation add := (datapoint_add t_add).
Local Abbreviation point_of :=
  (datapoint_of total_gen_time patch_is_unfinished patch_is_pruned).
Local Abbreviation evaluate_generation :=
  (runner.evaluate_generation to_average_results t_zero t_add total_gen_time
     patch_is_unfinished patch_is_pruned).

(** [points] are the running sums of the datapoints of [patches], from
    zero. *)
Definition cumulative (patches : list AvgPatch)
    (points : list (GenerationDatapoint T)) : Prop :=
  length points = S (length patches) /\
  points !! 0%nat = Some zero /\
  forall k p patch,
    points !! k = Some p -> patches !! k = Some patch ->
    points !! S k = Some (add p (point_of patch)).

Lemma accumulate_last (points : list (GenerationDatapoint T)) l x :
  points !! pred (length points) = Some l ->
  accumulate t_add points x = Ok (points ++ [add l x]).
Proof. intros Hl. unfold accumulate. by rewrite last_lookup, Hl. Qed.

Lemma reduce_accumulate (items : list (GenerationDatapoint T)) :
  forall init, init <> [] ->
  exists out,
    reduce (accumulate t_add) items init = Ok out /\
    length out = (length init + length items)%nat /\
    (forall i x, init !! i = Some x -> out !! i = Some x) /\
    (forall k s p,
       out !! (length init - 1 + k)%nat = Some s -> items !! k = Some p ->
       out !! (length init + k)%nat = Some (add s p)).
Proof.
  induction items as [|x items IH]; intros init Hne.
  - exists init. split; [done|]. split; [simpl; lia|]. split; [done|].
    intros k s p _ Hp. by rewrite lookup_nil in Hp.
  - destruct (init !! pred (length init)) as [l|] eqn:Hl.
    2: { apply lookup_ge_None in Hl. destruct init; [done|simpl in Hl; lia]. }
    cbn [reduce]. rewrite (accumulate_last init l x Hl).
    assert (Hpos : (0 < length init)%nat) by (apply lookup_lt_Some in Hl; lia).
    destruct (IH (init ++ [add l x])) as (out & Hout & Hlen & Hpre & Hstep);
      [by destruct init|].
    exists out. split; [done|]. rewrite length_app in Hlen, Hstep.
    simpl in Hlen, Hstep. split; [simpl; lia|]. split.
    + intros i y Hy. apply Hpre. by apply lookup_app_l_Some.
    + intros [|k] s p Hs Hp.
      * simpl in Hp. injection Hp as <-. rewrite Nat.add_0_r in Hs.
        rewrite Nat.add_0_r.
        assert (Hl' : out !! (length init - 1)%nat = Some l).
        { apply Hpre, lookup_app_l_Some.
          by replace (length init - 1)%nat with (pred (length init)) by lia. }
        assert (s = l) as -> by congruence.
        apply Hpre. rewrite lookup_app_r by lia.
        by replace (length init - length init)%nat with 0%nat by lia.
      * simpl in Hp.
        replace (length init + S k)%nat with (length init + 1 + k)%nat by lia.
        apply Hstep; [|done].
        by replace (length init + 1 - 1 + k)%nat
             with (length init - 1 + S k)%nat by lia.
Qed.

Lemma reduce_cumulative patches :
  exists points,
    reduce (accumulate t_add) (point_of <$> patches) [zero] = Ok points /\
    cumulative patches points.
Proof.
  destruct (reduce_accumulate (point_of <$> patches) [zero])
    as (out & Hout & Hlen & Hpre & Hstep); [done|].
  exists out. split; [done|]. split; [|split].
  - rewrite Hlen, length_fmap. simpl. lia.
  - by apply Hpre.
  - intros k p patch Hp Hpatch. apply (Hstep k); [done|].
    by rewrite list_lookup_fmap, Hpatch.
Qed.

(** The loop over the bugs, lines 156-174. *)
Lemma per_bug_loop (items : list (string * list AvgPatch)) :
  forall result0,
  exists result,
    reduce (fun result '(bug_id, patches) =>
              datapoints ← reduce (accumulate t_add) (point_of <$> patches) [zero];
              Ok (pydict.set bug_id datapoints result))
           items result0 = Ok result /\
    (forall bug_id,
       is_Some (pydict.get bug_id result) <->
       is_Some (pydict.get bug_id result0) \/ is_Some (pydict.get bug_id items)) /\
    (forall bug_id points,
       pydict.get bug_id result = Some points ->
       pydict.get bug_id result0 = Some points \/
       exists patches, (bug_id, patches) ∈ items /\ cumulative patches points).
Proof.
  induction items as [|[b patches] items IH]; intros result0.
  - exists result0. split; [done|]. split.
    + intros bug_id. simpl. split; [by left|]. intros [?|[? ?]]; done.
    + intros bug_id points Hp. by left.
  - cbn [reduce]. destruct (reduce_cumulative patches) as (points & -> & Hcum).
    destruct (IH (pydict.set b points result0)) as (result & Hrun & Hkeys & Hvals).
    exists result. split; [done|]. split.
    + intros bug_id. rewrite Hkeys. simpl.
      destruct (decide (b = bug_id)) as [<-|Hne].
      * rewrite get_set_eq. split; intros _; [right|left]; by eexists.
      * rewrite get_set_ne by done. tauto.
    + intros bug_id pts Hpts. destruct (Hvals _ _ Hpts) as [Hold|(ps & Hin & Hps)].
      * destruct (decide (b = bug_id)) as [<-|Hne].
        -- rewrite get_set_eq in Hold. injection Hold as <-. right.
           exists patches. split; [apply list_elem_of_here|done].
        -- rewrite get_set_ne in Hold by done. by left.
      * right. exists ps. split; [by apply list_elem_of_further|done].
Qed.

Lemma transform_if_not_performed_any st :
  (exists tr st',
     transform_if_not_performed to_average_results st = (Ok tt, st') /\
     transformed_result (report st') = Some tr) \/
  (exists st',
     transform_if_not_performed to_average_results st
     = (Raise AssertionError, st')).
Proof.
  unfold transform_if_not_performed. rewrite rm_bind_unfold. unfold rm_get.
  destruct (transformed_result (report st)) as [tr|] eqn:Htr.
  - left. by exists tr, st.
  - destruct (transform_any to_average_results st) as (tr' & _ & [-> | ->]).
    + left. by eexists tr', _.
    + right. by eexists.
Qed.

(** X29. [evaluate_generation] returns unless the transformation it starts
    stops on an assertion; the lookup of the last point never fails. What it
    returns has a list of points for exactly the bugs of the transformed
    results, and the list of a bug is cumulative over the patches of the bug:
    one point more than patches, the first one zero, and each next one the
    sum of the point before and the datapoint of the patch at that rank. *)
Theorem evaluate_generation_cumulative st :
  match (evaluate_generation st).1 with
  | Raise e =>
      e = AssertionError /\
      (transform_if_not_performed to_average_results st).1 = Raise e
  | Ok result =>
      exists tr,
        transformed_result (report (evaluate_generation st).2) = Some tr /\
        (forall bug_id,
           is_Some (pydict.get bug_id result) <->
           is_Some (pydict.get bug_id (tr_result_dict tr))) /\
        (forall bug_id points,
           pydict.get bug_id result = Some points ->
           exists patches,
             (bug_id, patches) ∈ tr_result_dict tr /\ cumulative patches points)
  end.
Proof.
  unfold runner.evaluate_generation. rewrite rm_bind_unfold.
  destruct (transform_if_not_performed_any st) as [(tr & st' & -> & Htr)|[st' ->]];
    [|done].
  rewrite rm_bind_unfold, (get_transformed_run st' tr Htr). unfold rm_lift.
  destruct (per_bug_loop (tr_result_dict tr) []) as (result & -> & Hkeys & Hvals).
  simpl. exists tr. split; [done|]. split.
  - intros bug_id. rewrite Hkeys. simpl. split; [|by right].
    by intros [[? ?]|?].
  - intros bug_id points Hp. by destruct (Hvals _ _ Hp) as [?|?].
Qed.

End evaluate_generation_facts.
